(** * The development reloader and the dependency launcher

    A shallow embedding of [reloader.py] (the file watcher with its
    debounce gate, the restart callback and the supervising loop) and of
    [launcher.py] ([DependencyInstaller.run]), with the properties the
    design document states about them.

    Conventions of the embedding.
    - Clock readings ([time.time()]) are rationals.  The source compares
      the difference of two readings with the literal [1.0]; for readings
      of the size of epoch seconds that difference is computed exactly, so
      the comparison is the one on rationals.
    - The operating system, the child processes and the watchdog library
      are an explicit [World] threaded through a state monad.
    - The watcher thread and the main thread are interleaved at the grain
      of one watchdog dispatch and one iteration of the polling loop.

    The later modules embed, in the same way, the log of the overlay
    window ([overlay_window.py]), the audio device manager
    ([audio_device_manager.py]) and the handlers of the dashboard
    ([dashboard.py]).  There:
    - what a subprocess, the device query or the file system answers is
      a field of an environment record, and what a method prints or runs
      is part of its result;
    - Qt widgets and the objects of main.py count as true in a Python
      test; a button takes a click only while it is shown and enabled,
      and the handlers of one window run one at a time. *)

From Stdlib Require Import QArith Lqa ZArith String Ascii Lia Bool DecimalString.
From stdpp Require Import base list sorting.

(** ** Python string methods used by the two programs *)

Module PyStr.

Definition startswith (s p : string) : bool := String.prefix p s.

Definition endswith (s suffix : string) : bool :=
  let n := String.length s in
  let m := String.length suffix in
  (m <=? n)%nat && String.eqb (String.substring (n - m) m s) suffix.

(** [str.isspace] on the ASCII range: tab to carriage return, the four
    separators 28..31 and the blank. *)
Definition isspace (c : ascii) : bool :=
  let n := nat_of_ascii c in
  ((9 <=? n)%nat && (n <=? 13)%nat) || ((28 <=? n)%nat && (n <=? 32)%nat).

Fixpoint lstrip (s : string) : string :=
  match s with
  | EmptyString => EmptyString
  | String c s' => if isspace c then lstrip s' else s
  end.

Fixpoint rstrip (s : string) : string :=
  match s with
  | EmptyString => EmptyString
  | String c s' =>
      match rstrip s' with
      | EmptyString => if isspace c then EmptyString else String c EmptyString
      | r => String c r
      end
  end.

Definition strip (s : string) : string := rstrip (lstrip s).

End PyStr.

(** ** reloader.py *)

Module Reloader.

Local Open Scope string_scope.

(** *** Data *)

(** The event kinds watchdog delivers to a handler. *)
Inductive EventType := Created | Modified | Deleted | Moved.

Record FileSystemEvent := mkEvent {
  event_type : EventType;
  is_directory : bool;
  src_path : string }.

(** What a child does when it receives the termination request:
    [ExitsAfter d rc] leaves after [d] time units with code [rc],
    [Ignores] stays alive. *)
Inductive Sigterm := ExitsAfter (d : Q) (rc : Z) | Ignores.

(** The default disposition: the process ends at once, and Python reports
    the negated signal number. *)
Definition default_sigterm : Sigterm := ExitsAfter 0 (-15).

(** [Killed]: the forced kill was sent and nobody has collected the
    process. *)
Inductive OsState := Alive | Killed | Exited (rc : Z).

(** One [subprocess.Popen] object together with the process behind it.
    [returncode] is the Python attribute: [None] until [poll] or [wait]
    has collected the exit status. *)
Record Child := mkChild {
  os_state : OsState;
  returncode : option Z;
  sigterm_sent : bool;
  on_sigterm : Sigterm }.

Record RestartHandler := mkHandler { last_reload : Q }.

Inductive ObserverState := ObsAbsent | ObsStarted | ObsStopped.

Inductive MainState := MainNotStarted | MainInLoop | MainReturned.

(** Ghost record of one call of the handler's callback: the clock reading
    that passed the gate and the reading taken when the callback had
    returned.  The call happens between the two. *)
Record Signal := mkSignal {
  sig_path : string;
  sig_from : Q;
  sig_to : Q }.

Record World := mkWorld {
  now : Q;                          (* the wall clock *)
  watchdog_installed : bool;        (* can [import watchdog] succeed *)
  upcoming : list Sigterm;          (* behaviour of the children spawned next *)
  procs : list Child;               (* every Popen object created, by handle *)
  process : option nat;             (* main's variable [process] *)
  event_handler : option RestartHandler;
  observer : ObserverState;
  main_thread : MainState;
  stdout : list string;
  signals : list Signal }.            (* ghost: the calls of the callback *)

Definition set_now (t : Q) (w : World) : World :=
  mkWorld t (watchdog_installed w) (upcoming w) (procs w) (process w)
    (event_handler w) (observer w) (main_thread w) (stdout w) (signals w).

Definition set_upcoming (u : list Sigterm) (w : World) : World :=
  mkWorld (now w) (watchdog_installed w) u (procs w) (process w)
    (event_handler w) (observer w) (main_thread w) (stdout w) (signals w).

Definition set_procs (ps : list Child) (w : World) : World :=
  mkWorld (now w) (watchdog_installed w) (upcoming w) ps (process w)
    (event_handler w) (observer w) (main_thread w) (stdout w) (signals w).

Definition set_process (p : option nat) (w : World) : World :=
  mkWorld (now w) (watchdog_installed w) (upcoming w) (procs w) p
    (event_handler w) (observer w) (main_thread w) (stdout w) (signals w).

Definition set_event_handler (h : option RestartHandler) (w : World) : World :=
  mkWorld (now w) (watchdog_installed w) (upcoming w) (procs w) (process w)
    h (observer w) (main_thread w) (stdout w) (signals w).

Definition set_observer (o : ObserverState) (w : World) : World :=
  mkWorld (now w) (watchdog_installed w) (upcoming w) (procs w) (process w)
    (event_handler w) o (main_thread w) (stdout w) (signals w).

Definition set_main_thread (m : MainState) (w : World) : World :=
  mkWorld (now w) (watchdog_installed w) (upcoming w) (procs w) (process w)
    (event_handler w) (observer w) m (stdout w) (signals w).

Definition set_stdout (o : list string) (w : World) : World :=
  mkWorld (now w) (watchdog_installed w) (upcoming w) (procs w) (process w)
    (event_handler w) (observer w) (main_thread w) o (signals w).

Definition set_signals (s : list Signal) (w : World) : World :=
  mkWorld (now w) (watchdog_installed w) (upcoming w) (procs w) (process w)
    (event_handler w) (observer w) (main_thread w) (stdout w) s.

(** *** The state monad *)

Definition M (A : Type) : Type := World -> A * World.

Definition ret {A} (a : A) : M A := fun w => (a, w).

Definition bind {A B} (m : M A) (k : A -> M B) : M B :=
  fun w => let (a, w') := m w in k a w'.

Notation "'let*' x ':=' m 'in' k" := (bind m (fun x => k))
  (at level 10, x name, m at level 100, k at level 200).
Notation "m '>>' k" := (bind m (fun _ => k))
  (at level 95, right associativity).

Definition exec {A} (m : M A) (w : World) : World := snd (m w).

(** *** Primitives of the environment *)

Definition time_time : M Q := fun w => (now w, w).

Definition print (s : string) : M unit :=
  fun w => (tt, set_stdout (stdout w ++ [s]) w).

Definition update_child (h : nat) (c : Child) (w : World) : World :=
  set_procs (<[h := c]> (procs w)) w.

(** [subprocess.Popen(...)]: a new object, whose handle is the number of
    objects created before it.  The command is the running interpreter,
    so starting it is taken to succeed. *)
Definition Popen : M nat :=
  fun w =>
    let h := length (procs w) in
    let b := match upcoming w with [] => default_sigterm | b :: _ => b end in
    (h, set_upcoming (tail (upcoming w))
          (set_procs (procs w ++ [mkChild Alive None false b]) w)).

(** [Popen.poll()]: collect the exit status if the process has ended. *)
Definition poll (h : nat) : M (option Z) :=
  fun w =>
    match procs w !! h with
    | Some c =>
        match returncode c with
        | Some rc => (Some rc, w)
        | None =>
            match os_state c with
            | Exited rc =>
                (Some rc,
                 update_child h
                   (mkChild (Exited rc) (Some rc) (sigterm_sent c) (on_sigterm c)) w)
            | _ => (None, w)
            end
        end
    | None => (None, w)
    end.

(** [Popen.terminate()]: polls first and sends nothing to a process whose
    status is already known. *)
Definition terminate (h : nat) : M unit :=
  let* rc := poll h in
  match rc with
  | Some _ => ret tt
  | None =>
      fun w =>
        match procs w !! h with
        | Some c =>
            (tt, update_child h
                   (mkChild (os_state c) (returncode c) true (on_sigterm c)) w)
        | None => (tt, w)
        end
  end.

(** [Popen.kill()]: the same for the forced kill.  The call returns as
    soon as the signal is sent. *)
Definition kill (h : nat) : M unit :=
  let* rc := poll h in
  match rc with
  | Some _ => ret tt
  | None =>
      fun w =>
        match procs w !! h with
        | Some c =>
            (tt, update_child h
                   (mkChild Killed (returncode c) (sigterm_sent c) (on_sigterm c)) w)
        | None => (tt, w)
        end
  end.

Inductive WaitResult := Returned (rc : Z) | TimeoutExpired.

(** [Popen.wait(timeout)]: returns the status of a process that has ended
    or ends before the timeout, collecting it; otherwise the whole
    timeout passes and [TimeoutExpired] is raised. *)
Definition wait (h : nat) (timeout : Q) : M WaitResult :=
  fun w =>
    match procs w !! h with
    | Some c =>
        match returncode c with
        | Some rc => (Returned rc, w)
        | None =>
            match os_state c with
            | Exited rc =>
                (Returned rc,
                 update_child h
                   (mkChild (Exited rc) (Some rc) (sigterm_sent c) (on_sigterm c)) w)
            | Killed =>
                (Returned (-9),
                 update_child h
                   (mkChild (Exited (-9)) (Some (-9)%Z) (sigterm_sent c) (on_sigterm c)) w)
            | Alive =>
                match sigterm_sent c, on_sigterm c with
                | true, ExitsAfter d rc =>
                    if Qle_bool d timeout then
                      (Returned rc,
                       set_now (now w + d)%Q
                         (update_child h
                            (mkChild (Exited rc) (Some rc) true (on_sigterm c)) w))
                    else (TimeoutExpired, set_now (now w + timeout)%Q w)
                | _, _ => (TimeoutExpired, set_now (now w + timeout)%Q w)
                end
            end
        end
    | None => (TimeoutExpired, set_now (now w + timeout)%Q w)
    end.

Definition get_process : M (option nat) := fun w => (process w, w).

Definition assign_process (h : nat) : M unit :=
  fun w => (tt, set_process (Some h) w).

Definition emit_signal (path : string) (t t' : Q) : M unit :=
  fun w => (tt, set_signals (signals w ++ [mkSignal path t t']) w).

(** *** RestartHandler *)

(** The line feed that starts the handler's message. *)
Definition newline : string := String (ascii_of_nat 10) EmptyString.

Definition RestartHandler_init : M RestartHandler :=
  let* t := time_time in
  ret (mkHandler t).

Definition watched (path : string) : bool :=
  PyStr.endswith path ".py" || PyStr.endswith path ".ini".

(** [self.callback] is a parameter: the handler is built once, with
    [restart_process].  The [emit_signal] line is ghost: it records the
    call of the callback with the two clock readings around it. *)
Definition on_modified (callback : M unit) (self : RestartHandler)
    (event : FileSystemEvent) : M RestartHandler :=
  if is_directory event then ret self
  else if watched (src_path event) then
    let* t := time_time in
    if negb (Qle_bool (t - last_reload self) 1.0) then
      print (newline ++ "[Reloader] detected change in " ++ src_path event) >>
      callback >>
      let* t' := time_time in
      emit_signal (src_path event) t t' >>
      ret (mkHandler t')
    else ret self
  else ret self.

(** [FileSystemEventHandler.dispatch]: each kind goes to its own method,
    and the class overrides [on_modified] only; the inherited methods do
    nothing. *)
Definition dispatch (callback : M unit) (self : RestartHandler)
    (event : FileSystemEvent) : M RestartHandler :=
  match event_type event with
  | Modified => on_modified callback self event
  | Created | Deleted | Moved => ret self
  end.

(** *** main *)

Definition run_app : M nat := Popen.

(** The [if process:] block of [restart_process]: graceful termination
    first, the forced kill when the wait times out. *)
Definition stop_child (p : option nat) : M unit :=
  match p with
  | Some h =>
      terminate h >>
      let* r := wait h 2 in
      match r with
      | Returned _ => ret tt
      | TimeoutExpired => kill h
      end
  | None => ret tt
  end.

Definition restart_process : M unit :=
  print "[Reloader] Restarting app..." >>
  let* p := get_process in
  stop_child p >>
  let* h' := run_app in
  assign_process h'.

Inductive Startup := UncaughtImportError | ReturnedEarly | Supervising.

(** Lines 30-59 of [main]: up to [observer.start()]. *)
Definition main_startup : M Startup :=
  print "[Reloader] Starting development monitor..." >>
  fun w =>
    if watchdog_installed w then
      (let* h := run_app in
       assign_process h >>
       let* eh := RestartHandler_init in
       (fun w' => (tt, set_observer ObsStarted
                         (set_event_handler (Some eh) w'))) >>
       (fun w' => (Supervising, set_main_thread MainInLoop w'))) w
    else
      (print "[Reloader] Error: 'watchdog' library not found." >>
       print "Please install it: pip install watchdog" >>
       (fun w' => (ReturnedEarly, set_main_thread MainReturned w'))) w.

(** The module as a script: its own [from watchdog... import] lines run
    before [main] is called. *)
Definition module_startup : M Startup :=
  fun w =>
    if watchdog_installed w then main_startup w
    else (UncaughtImportError, set_main_thread MainReturned w).

Definition observer_stop : M unit :=
  fun w => (tt, set_observer ObsStopped w).

(** One iteration of [while True], after its [time.sleep(1)]; the result
    tells whether the loop is left. *)
Definition loop_iteration : M bool :=
  let* p := get_process in
  match p with
  | Some h =>
      let* rc := poll h in
      match rc with
      | Some 0%Z =>
          print "[Reloader] App exited cleanly." >>
          observer_stop >>
          ret true
      | Some _ => ret false
      | None => ret false
      end
  | None => ret false
  end.

(** The [except KeyboardInterrupt] branch. *)
Definition on_keyboard_interrupt : M unit :=
  observer_stop >>
  let* p := get_process in
  match p with
  | Some h => terminate h
  | None => ret tt
  end.

(** *** The interleaving of the two threads and the environment *)

Inductive Action :=
| Elapse (dt : Q)                  (* time passes *)
| FsEvent (e : FileSystemEvent)    (* the observer thread delivers an event *)
| Tick                             (* the main thread runs one loop iteration *)
| ChildExit (rc : Z)               (* the current child ends by itself *)
| Interrupt.                       (* the operator interrupts the main thread *)

Definition child_exits (rc : Z) (w : World) : World :=
  match process w with
  | Some h =>
      match procs w !! h with
      | Some c =>
          match os_state c with
          | Alive =>
              update_child h
                (mkChild (Exited rc) (returncode c) (sigterm_sent c) (on_sigterm c)) w
          | _ => w
          end
      | None => w
      end
  | None => w
  end.

Definition step (a : Action) (w : World) : World :=
  match a with
  | Elapse dt => set_now (now w + dt)%Q w
  | FsEvent e =>
      match observer w, event_handler w with
      | ObsStarted, Some self =>
          let (self', w') := dispatch restart_process self e w in
          set_event_handler (Some self') w'
      | _, _ => w
      end
  | Tick =>
      match main_thread w with
      | MainInLoop =>
          let (leave, w') := loop_iteration w in
          if leave then set_main_thread MainReturned w' else w'
      | _ => w
      end
  | ChildExit rc => child_exits rc w
  | Interrupt =>
      match main_thread w with
      | MainInLoop => set_main_thread MainReturned (exec on_keyboard_interrupt w)
      | _ => w
      end
  end.

Definition run (tr : list Action) (w : World) : World :=
  fold_left (fun w a => step a w) tr w.

Definition initial_world (t0 : Q) (wd : bool) (ups : list Sigterm) : World :=
  mkWorld t0 wd ups [] None None ObsAbsent MainNotStarted [] [].

(** The world when the loop is entered, for a start at time [t0]. *)
Definition boot (t0 : Q) (ups : list Sigterm) : World :=
  exec module_startup (initial_world t0 true ups).

(** *** Observations used in the statements *)

(** The events the handler lets through to its gate. *)
Definition qualifying (e : FileSystemEvent) : bool :=
  match event_type e with
  | Modified => negb (is_directory e) && watched (src_path e)
  | _ => false
  end.

(** Time does not run backwards, and a child does not answer a signal
    before it is sent. *)
Definition valid_action (a : Action) : bool :=
  match a with
  | Elapse dt => Qle_bool 0 dt
  | _ => true
  end.

Definition valid_trace (tr : list Action) : bool := forallb valid_action tr.

Definition sigterm_ok (b : Sigterm) : bool :=
  match b with
  | ExitsAfter d _ => Qle_bool 0 d
  | Ignores => true
  end.

(** Any two calls of the callback are more than the interval apart: the
    later one starts more than one time unit after the earlier one has
    returned. *)
Definition separated (l : list Signal) : Prop :=
  forall (i j : nat) (s1 s2 : Signal),
    (i < j)%nat -> l !! i = Some s1 -> l !! j = Some s2 ->
    (sig_to s1 + 1.0 < sig_from s2)%Q.

(** [x] is an instant at which the call recorded by [s] can have
    happened. *)
Definition fired_at (s : Signal) (x : Q) : Prop :=
  (sig_from s <= x)%Q /\ (x <= sig_to s)%Q.

Definition in_window (a len x : Q) : Prop := (a <= x)%Q /\ (x <= a + len)%Q.

(** The world in which the second clock reading of [on_modified] is
    taken: the message is printed and the callback has returned. *)
Definition after_callback (callback : M unit) (e : FileSystemEvent)
    (w : World) : World :=
  exec callback
    (exec (print (newline ++ "[Reloader] detected change in " ++ src_path e)) w).

(** [e], delivered in [w], gets through the gate and calls the callback. *)
Definition fires (w : World) (e : FileSystemEvent) : bool :=
  match observer w, event_handler w with
  | ObsStarted, Some self =>
      qualifying e && negb (Qle_bool (now w - last_reload self) 1.0)
  | _, _ => false
  end.

(** A stretch of a run without change signal and without interrupt. *)
Fixpoint quiet (tr : list Action) (w : World) : bool :=
  match tr with
  | [] => true
  | a :: tr' =>
      match a with
      | FsEvent e => negb (fires w e)
      | Interrupt => false
      | _ => true
      end && quiet tr' (step a w)
  end.

Definition current_child (w : World) : option Child :=
  match process w with
  | Some h => procs w !! h
  | None => None
  end.

(** The loop is polling, the watcher delivers events, the child is up. *)
Definition is_running (w : World) : bool :=
  match main_thread w, observer w, event_handler w, current_child w with
  | MainInLoop, ObsStarted, Some _, Some c =>
      match os_state c, returncode c with
      | Alive, None => true
      | _, _ => false
      end
  | _, _, _, _ => false
  end.

(** [main] has left its loop and the watcher is stopped. *)
Definition is_stopped (w : World) : bool :=
  match main_thread w, observer w with
  | MainReturned, ObsStopped => true
  | _, _ => false
  end.

Definition at_most_one_in_window (l : list Signal) : Prop :=
  forall (a len : Q) (i j : nat) (s1 s2 : Signal) (x1 x2 : Q),
    (len <= 1.0)%Q ->
    l !! i = Some s1 -> l !! j = Some s2 ->
    fired_at s1 x1 -> fired_at s2 x2 ->
    in_window a len x1 -> in_window a len x2 ->
    i = j.

(** What the signalling primitives leave alone. *)
Definition same_control (w w' : World) : Prop :=
  length (procs w') = length (procs w) /\
  process w' = process w /\
  observer w' = observer w /\
  main_thread w' = main_thread w /\
  upcoming w' = upcoming w /\
  event_handler w' = event_handler w /\
  signals w' = signals w /\
  watchdog_installed w' = watchdog_installed w.

Definition keeps {A} (m : M A) : Prop :=
  forall w, same_control w (snd (m w)).

(** A world in which nothing but the clock can move any more. *)
Definition inert (w : World) : Prop :=
  main_thread w <> MainInLoop /\
  observer w <> ObsStarted /\
  match current_child w with
  | Some c => os_state c <> Alive
  | None => True
  end.

(** The current child [h] has ended with code [rc], collected or not, and
    [n] Popen objects exist. *)
Definition child_down (h : nat) (rc : Z) (n : nat) (w : World) : Prop :=
  process w = Some h /\
  length (procs w) = n /\
  (exists self, event_handler w = Some self) /\
  exists c,
    procs w !! h = Some c /\
    os_state c = Exited rc /\
    (returncode c = None \/ returncode c = Some rc).

(** Invariants of a run. *)
Definition delays_ok (w : World) : Prop :=
  Forall (fun c => sigterm_ok (on_sigterm c) = true) (procs w) /\
  Forall (fun b => sigterm_ok b = true) (upcoming w).

Definition stable (w w' : World) : Prop :=
  signals w' = signals w /\
  event_handler w' = event_handler w /\
  (now w <= now w')%Q.

Definition preserves {A} (m : M A) : Prop :=
  forall w, delays_ok w -> delays_ok (snd (m w)) /\ stable w (snd (m w)).

Definition debounce_inv (t0 : Q) (w : World) : Prop :=
  delays_ok w /\
  separated (signals w) /\
  Forall (fun s => (t0 + 1.0 < sig_from s)%Q) (signals w) /\
  Forall (fun s => (sig_from s <= sig_to s)%Q) (signals w) /\
  exists self,
    event_handler w = Some self /\
    (t0 <= last_reload self)%Q /\
    (last_reload self <= now w)%Q /\
    Forall (fun s => (sig_to s <= last_reload self)%Q) (signals w).

(** *** Further observations *)

(** A child that ends within the grace period when asked to. *)
Definition prompt (b : Sigterm) : bool :=
  match b with
  | ExitsAfter d _ => Qle_bool d 2
  | Ignores => false
  end.

(** The process has ended and its status has been collected. *)
Definition collected (c : Child) : Prop :=
  exists rc, os_state c = Exited rc /\ returncode c = Some rc.

(** The Popen object agrees with its process, which was never killed and
    answers the termination request in time. *)
Definition sane (c : Child) : Prop :=
  prompt (on_sigterm c) = true /\
  os_state c <> Killed /\
  forall rc, returncode c = Some rc -> os_state c = Exited rc.

(** The current child is the last one created and all the others are
    collected. *)
Definition tidy (w : World) : Prop :=
  exists olds cur,
    procs w = (olds ++ [cur])%list /\
    process w = Some (length olds) /\
    Forall collected olds /\
    sane cur /\
    Forall (fun b => prompt b = true) (upcoming w).

(** The action leaves every Popen object but [h] as it is, and creates
    none. *)
Definition touches_only (h : nat) {A} (m : M A) : Prop :=
  forall w,
    same_control w (snd (m w)) /\
    forall i, i <> h -> procs (snd (m w)) !! i = procs w !! i.

(** The action keeps the Popen object [h] sane. *)
Definition keeps_sane (h : nat) {A} (m : M A) : Prop :=
  forall w c,
    procs w !! h = Some c -> sane c ->
    exists c', procs (snd (m w)) !! h = Some c' /\ sane c'.


(** No process was created, none was replaced, no signal was emitted. *)
Definition counts_kept (w w' : World) : Prop :=
  length (procs w') = length (procs w) /\
  signals w' = signals w /\
  process w' = process w.


(** *** Sample runs *)


Definition app_py_modified : FileSystemEvent := mkEvent Modified false "app.py".

(** Three saves of [app.py], 0.2 and 1.5 after the first, with a child
    that has to be killed at the first restart. *)
Definition three_saves : list Action :=
  [Elapse 5; FsEvent app_py_modified; Elapse 0.2; FsEvent app_py_modified;
   Elapse 1.3; FsEvent app_py_modified].

Definition early_saves : list Action :=
  [Elapse 0.4; FsEvent app_py_modified; Elapse 0.6].

Definition crash_then_wait : list Action :=
  [Tick; Elapse 0.5; FsEvent app_py_modified; Tick; Elapse 3; Tick].

Definition idle_then_late_save : list Action :=
  [Elapse 5; FsEvent app_py_modified; Tick; Interrupt; ChildExit 1].

Definition save_crash_save : list Action :=
  [Elapse 2; FsEvent app_py_modified; Tick; Elapse 3; ChildExit 1; Tick;
   FsEvent app_py_modified; Tick].


End Reloader.

(** ** launcher.py *)

Module Launcher.

Local Open Scope string_scope.
Local Open Scope list_scope.

(** The two signals of [DependencyInstaller]. *)
Inductive Emitted := Progress (msg : string) | Finished (success : bool).

(** What [open("requirements.txt", "r")] and the reading of the file
    do. *)
Inductive OpenResult :=
| FileNotFoundError
| OtherOSError (msg : string)
| Opened (lines : list string).

(** A pip process that was started: the lines [readline] returns before
    the end of the output, how many times [poll] still answers [None]
    once the output has ended, the exit code and the text on standard
    error.  Reading is taken to succeed. *)
Record PipRun := mkPipRun {
  stdout_lines : list string;
  polls_at_eof : nat;
  exit_code : Z;
  stderr_text : string }.

(** What [subprocess.Popen] does: it raises with the message of the
    operating system, or the process starts. *)
Inductive PopenResult := StartFails (msg : string) | Started (r : PipRun).

Record Env := mkEnv {
  sys_executable : string;
  manifest : OpenResult;
  popen : PopenResult }.

(** What a run of the thread leaves behind: the signals in the order of
    emission, the commands handed to [Popen], and the exception that
    ended [run] if one was not caught. *)
Record Result := mkResult {
  emitted : list Emitted;
  popen_calls : list (list string);
  raised : option string }.


(** The body of [while True] for the lines that are read before the end
    of the output.  An empty string before the end does not occur; the
    loop would poll, find the process running and read on. *)
Fixpoint read_lines (lines : list string) : list Emitted :=
  match lines with
  | [] => []
  | output :: rest =>
      if String.eqb output "" then read_lines rest
      else Progress (PyStr.strip output) :: read_lines rest
  end.

(** At the end of the output [readline] returns the empty string; the
    loop spins, emitting nothing, until [poll] reports the exit. *)
Fixpoint wait_exit (polls : nat) : list Emitted :=
  match polls with
  | O => []
  | S k => wait_exit k
  end.

Definition pip_command (env : Env) : list string :=
  [sys_executable env; "-m"; "pip"; "install"; "-r"; "requirements.txt"].

Definition run (env : Env) : Result :=
  let log0 := [Progress "Checking dependencies..."] in
  match manifest env with
  | FileNotFoundError =>
      mkResult
        (log0 ++ [Progress "requirements.txt not found. Skipping check.";
                  Finished true])
        [] None
  | OtherOSError msg => mkResult log0 [] (Some msg)
  | Opened lines =>
      let log1 :=
        log0 ++ [Progress "Installing/Verifying dependencies via pip..."] in
      match popen env with
      | StartFails e =>
          mkResult
            (log1 ++ [Progress ("Failed to run pip: " ++ e); Finished false])
            [pip_command env] None
      | Started r =>
          let log2 :=
            log1 ++ read_lines (stdout_lines r) ++ wait_exit (polls_at_eof r) in
          if (exit_code r =? 0)%Z then
            mkResult
              (log2 ++ [Progress "Dependencies installed successfully.";
                        Finished true])
              [pip_command env] None
          else
            mkResult
              (log2 ++ [Progress ("Error: " ++ stderr_text r); Finished false])
              [pip_command env] None
      end
  end.

(** The consumer of the signals: the widgets of [LauncherWindow] that
    [update_log] and [on_install_finished] write. *)
Record LauncherWindow := mkWindow {
  label : string;
  log_label : string;
  log_label_style : string;
  pbar_range : Z * Z;
  pbar_value : option Z;
  start_btn_shown : bool;
  launch_timer : option Z;
  critical_boxes : list (string * string) }.


Definition update_log (message : string) (win : LauncherWindow)
  : LauncherWindow :=
  mkWindow (label win) message (log_label_style win) (pbar_range win)
    (pbar_value win) (start_btn_shown win) (launch_timer win)
    (critical_boxes win).

Definition on_install_finished (success : bool) (win : LauncherWindow)
  : LauncherWindow :=
  if success then
    mkWindow "Initialization Complete" "Ready to launch!"
      (log_label_style win) (0, 100)%Z (Some 100%Z) true (Some 800%Z)
      (critical_boxes win)
  else
    mkWindow "Initialization Failed" (log_label win) "color: red;"
      (0, 100)%Z (Some 100%Z) (start_btn_shown win) (launch_timer win)
      (critical_boxes win ++
       [("Error",
         ("Failed to install dependencies." ++ Reloader.newline ++
          "Check console for details.")%string)]).

(** The slots connected in [start_check]. *)
Definition deliver (win : LauncherWindow) (s : Emitted) : LauncherWindow :=
  match s with
  | Progress msg => update_log msg win
  | Finished success => on_install_finished success win
  end.


(** *** Observations used in the statements *)





(** *** Sample environments *)



Definition no_manifest : Env :=
  mkEnv "/usr/bin/python3" FileNotFoundError
    (StartFails "[Errno 2] No such file or directory").



End Launcher.

(** ** overlay_window.py *)

(** A Python [dict] with integer keys: the entries in the order of their
    first insertion. *)
Module PyDict.

Section Dict.

Context {V : Type}.

Fixpoint get (k : Z) (d : list (Z * V)) : option V :=
  match d with
  | [] => None
  | (k', v) :: rest => if (k' =? k)%Z then Some v else get k rest
  end.

(** [d[k] = v] *)
Fixpoint set (k : Z) (v : V) (d : list (Z * V)) : list (Z * V) :=
  match d with
  | [] => [(k, v)]
  | (k', v') :: rest =>
      if (k' =? k)%Z then (k, v) :: rest else (k', v') :: set k v rest
  end.

Definition keys (d : list (Z * V)) : list Z := map fst d.

End Dict.

End PyDict.

Module Overlay.

Local Open Scope string_scope.
Local Open Scope list_scope.

(** [str] of an integer, as the f-strings print it. *)
Definition str_int (n : Z) : string := NilZero.string_of_int (Z.to_int n).

(** *** LogItem *)

Record LogItem := mkLogItem {
  chunk_id : Z;
  original_label : string;
  translated_label : string }.

Definition LogItem_init (chunk_id : Z)
    (timestamp original_text translated_text : string) : LogItem :=
  mkLogItem chunk_id
    ("[" ++ timestamp ++ "] " ++ original_text)%string
    (if String.eqb translated_text "" then "..." else translated_text).

Definition update_translated (text : string) (self : LogItem) : LogItem :=
  mkLogItem (chunk_id self) (original_label self) text.

(** [now] is what [time.strftime('%H:%M:%S')] returns at the call. *)
Definition update_original (now text : string) (self : LogItem) : LogItem :=
  mkLogItem (chunk_id self) ("[" ++ now ++ "] " ++ text)%string
    (translated_label self).

(** *** The log of the overlay window *)

Record Entry := mkEntry {
  timestamp : string;
  original : string;
  translated : string }.

(** The part of [OverlayWindow] that [update_text] and [_save_transcript]
    work on.  A widget is referred to by its handle, the number of
    [LogItem] objects created before it; [items] and the layout refer to
    the same objects. *)
Record Log := mkLog {
  items : list (Z * nat);
  transcript_data : list (Z * Entry);
  widgets : list LogItem;
  container_layout : list nat;
  console : list string;
  scroll_timers : nat;
  save_btn_text : string;
  files : list (string * list string);
  feedback_timers : list string }.

(** The state [initUI] leaves. *)
Definition initial_log : Log :=
  mkLog [] [] [] [] [] 0 "💾 Save" [] [].

(** The first loop of [update_text]: the widget of the first item with
    this chunk id. *)
Fixpoint find_widget (cid : Z) (its : list (Z * nat)) : option nat :=
  match its with
  | [] => None
  | (c, wd) :: rest => if (c =? cid)%Z then Some wd else find_widget cid rest
  end.

(** The second loop: the index of the first item with a larger chunk id,
    the length of the list when there is none. *)
Fixpoint insertion_point (cid : Z) (its : list (Z * nat)) : nat :=
  match its with
  | [] => 0
  | (c, _) :: rest => if (cid <? c)%Z then 0 else S (insertion_point cid rest)
  end.

(** [list.insert(i, x)] for an index within the list. *)
Definition insert_at {A} (i : nat) (x : A) (l : list A) : list A :=
  take i l ++ x :: drop i l.

Definition update_text (now_store now_label : string) (cid : Z)
    (original_text translated_text : string) (self : Log) : Log :=
  let console1 :=
    console self ++
    [("[Overlay] Received update for #" ++ str_int cid ++ ": " ++
      original_text ++ " -> " ++ translated_text)%string] in
  let data :=
    match PyDict.get cid (transcript_data self) with
    | None =>
        PyDict.set cid (mkEntry now_store original_text translated_text)
          (transcript_data self)
    | Some e =>
        if String.eqb translated_text "" then transcript_data self
        else PyDict.set cid (mkEntry (timestamp e) (original e) translated_text)
               (transcript_data self)
    end in
  match find_widget cid (items self) with
  | Some wd =>
      let widgets1 :=
        if String.eqb original_text "" then widgets self
        else alter (update_original now_label original_text) wd (widgets self) in
      let widgets2 :=
        if String.eqb translated_text "" then widgets1
        else alter (update_translated translated_text) wd widgets1 in
      mkLog (items self) data widgets2 (container_layout self)
        (console1 ++
         [("[Overlay] Updated existing widget #" ++ str_int cid)%string])
        (scroll_timers self) (save_btn_text self) (files self)
        (feedback_timers self)
  | None =>
      let stamp :=
        match PyDict.get cid data with
        | Some e => timestamp e
        | None => ""
        end in
      let new_widget := LogItem_init cid stamp original_text translated_text in
      let wd := length (widgets self) in
      let insert_idx := insertion_point cid (items self) in
      mkLog (insert_at insert_idx (cid, wd) (items self)) data
        (widgets self ++ [new_widget])
        (insert_at insert_idx wd (container_layout self))
        (console1 ++
         [("[Overlay] Inserted new widget #" ++ str_int cid ++ " at index " ++
           str_int (Z.of_nat insert_idx))%string])
        (S (scroll_timers self)) (save_btn_text self) (files self)
        (feedback_timers self)
  end.

(** One call of [update_text], with the two clock strings it may read. *)
Record Update := mkUpdate {
  u_now_store : string;
  u_now_label : string;
  u_chunk : Z;
  u_original : string;
  u_translated : string }.

Definition apply_update (self : Log) (u : Update) : Log :=
  update_text (u_now_store u) (u_now_label u) (u_chunk u) (u_original u)
    (u_translated u) self.

Definition run_updates (calls : list Update) (self : Log) : Log :=
  fold_left apply_update calls self.

(** *** _save_transcript *)

(** What the method reads from its environment: the two clock strings,
    and what [os.makedirs] and [open] raise, if anything.  Writing to the
    open file is taken to succeed. *)
Record SaveEnv := mkSaveEnv {
  stamp_file : string;
  stamp_header : string;
  makedirs_error : option string;
  open_error : option string }.

Fixpoint repeat_string (s : string) (n : nat) : string :=
  match n with
  | O => ""
  | S k => (s ++ repeat_string s k)%string
  end.

Definition nl : string := Reloader.newline.

Definition record_text (cid : Z) (data : Entry) : string :=
  ("[" ++ timestamp data ++ "] (ID: " ++ str_int cid ++ ")" ++ nl ++
   "Original: " ++ original data ++ nl ++
   "Translation: " ++ translated data ++ nl ++
   repeat_string "-" 30 ++ nl)%string.

(** [sorted(self.transcript_data.keys())] *)
Definition sorted_ids (d : list (Z * Entry)) : list Z :=
  merge_sort Z.le (PyDict.keys d).

(** The strings handed to [f.write], in order. *)
Definition transcript_lines (env : SaveEnv) (d : list (Z * Entry))
  : list string :=
  ("Transcript saved at " ++ stamp_header env ++ nl)%string ::
  (repeat_string "=" 50 ++ nl ++ nl)%string ::
  map (fun cid =>
         match PyDict.get cid d with
         | Some data => record_text cid data
         | None => ""
         end)
    (sorted_ids d).

(** The result is the window and the exception that left the method, if
    any. *)
Definition save_transcript (env : SaveEnv) (self : Log)
  : Log * option string :=
  match transcript_data self with
  | [] =>
      (mkLog (items self) (transcript_data self) (widgets self)
         (container_layout self)
         (console self ++ ["[Overlay] Nothing to save."])
         (scroll_timers self) (save_btn_text self) (files self)
         (feedback_timers self),
       None)
  | _ :: _ =>
      match makedirs_error env with
      | Some msg => (self, Some msg)
      | None =>
          let filename :=
            ("transcripts/transcript_" ++ stamp_file env ++ ".txt")%string in
          match open_error env with
          | Some msg =>
              (mkLog (items self) (transcript_data self) (widgets self)
                 (container_layout self)
                 (console self ++
                  [("[Overlay] Error saving transcript: " ++ msg)%string])
                 (scroll_timers self) (save_btn_text self) (files self)
                 (feedback_timers self),
               None)
          | None =>
              (mkLog (items self) (transcript_data self) (widgets self)
                 (container_layout self)
                 (console self ++ [("[Overlay] Saved to " ++ filename)%string])
                 (scroll_timers self) "Saved!"
                 (files self ++
                  [(filename, transcript_lines env (transcript_data self))])
                 (feedback_timers self ++ [save_btn_text self]),
               None)
          end
      end
  end.

(** *** Moving the window with the mouse *)








(** *** Observations used in the statements *)

(** What a widget shows for a translation. *)
Definition shown (translation : string) : string :=
  if String.eqb translation "" then "..." else translation.

(** The last translation that is not empty among the calls for [cid],
    the empty string when there is none. *)
Definition latest_translation (cid : Z) (calls : list Update) : string :=
  fold_left
    (fun acc u =>
       if (u_chunk u =? cid)%Z && negb (String.eqb (u_translated u) "")
       then u_translated u else acc)
    calls "".

(** The items, the widgets and the dictionary agree after a history of
    calls. *)
Definition item_ok (calls : list Update) (self : Log) (it : Z * nat) : Prop :=
  exists wd e,
    widgets self !! it.2 = Some wd /\
    chunk_id wd = it.1 /\
    PyDict.get it.1 (transcript_data self) = Some e /\
    translated e = latest_translation it.1 calls /\
    translated_label wd = shown (translated e).

Definition log_inv (calls : list Update) (self : Log) : Prop :=
  StronglySorted Z.lt (items self).*1 /\
  NoDup (items self).*2 /\
  container_layout self = (items self).*2 /\
  Forall (item_ok calls self) (items self) /\
  (forall cid e, PyDict.get cid (transcript_data self) = Some e ->
                 cid ∈ (items self).*1) /\
  (forall cid, cid ∈ (items self).*1 <->
               exists u, u ∈ calls /\ u_chunk u = cid).


(** *** Sample calls *)

Definition save_ok : SaveEnv :=
  mkSaveEnv "20240101_100010" "2024-01-01 10:00:10" None None.

Definition hello_calls : list Update :=
  [mkUpdate "10:00:01" "10:00:01" 2 "Sequence test" "";
   mkUpdate "10:00:02" "10:00:02" 1 "Hello world" "";
   mkUpdate "10:00:03" "10:00:04" 1 "Hello, world" "Bonjour";
   mkUpdate "10:00:05" "10:00:05" 1 "" ""].

End Overlay.

(** ** audio_device_manager.py *)

Module AudioDeviceManager.

Local Open Scope string_scope.
Local Open Scope list_scope.

Definition nl : string := Reloader.newline.

(** The double quote. *)
Definition dq : string := String (ascii_of_nat 34) EmptyString.

(** [needle in hay] for two strings. *)
Definition contains (needle hay : string) : bool :=
  match String.index 0 needle hay with
  | Some _ => true
  | None => false
  end.

(** *** The devices *)

(** One entry of [sd.query_devices()], with the keys the module reads. *)
Record Device := mkDevice {
  name : string;
  max_output_channels : Z;
  max_input_channels : Z }.

(** [import sounddevice] and [sd.query_devices()]: an exception with its
    message, or the devices. *)
Inductive Query := QueryFails (msg : string) | Devices (ds : list Device).

(** The dictionaries [{'name': ..., 'id': i}] the methods return. *)
Record Listed := mkListed { l_name : string; l_id : nat }.

(** The loop over [enumerate(sd_devices)], from index [i] on. *)
Fixpoint output_from (i : nat) (ds : list Device) : list Listed :=
  match ds with
  | [] => []
  | d :: rest =>
      if (0 <? max_output_channels d)%Z
      then mkListed (name d) i :: output_from (S i) rest
      else output_from (S i) rest
  end.

(** The list returned and the lines printed. *)
Definition get_output_devices (q : Query) : list Listed * list string :=
  match q with
  | Devices ds => (output_from 0 ds, [])
  | QueryFails e =>
      ([], [("[AudioDeviceManager] Error getting devices via sounddevice: "
             ++ e)%string])
  end.

(** *** set_default_output_device *)

(** What [subprocess.run] does with a command: it raises, the command
    runs into the timeout, or it ends with a code and an output. *)
Inductive RunOutcome :=
| Raises (msg : string)
| TimesOut (msg : string)
| Exits (rc : Z) (out : string).

(** The argument: an index (an [int]) or a name. *)
Inductive DeviceRef := ById (i : Z) | ByName (n : string).

Record SwitchEnv := mkSwitchEnv {
  which_run : RunOutcome;               (* which SwitchAudioSource *)
  query : Query;
  index_error : string;                 (* the message of the IndexError *)
  switch_run : string -> RunOutcome }.  (* SwitchAudioSource -s name *)

Record CallResult := mkCallResult {
  returned : bool;
  printed : list string;
  commands : list (list string) }.

(** [devices[i]] for an index below the length: a negative index counts
    from the end, and one before the first element raises. *)
Definition py_index (ds : list Device) (i : Z) : option Device :=
  if (0 <=? i)%Z then ds !! Z.to_nat i
  else if (- Z.of_nat (length ds) <=? i)%Z
       then ds !! Z.to_nat (Z.of_nat (length ds) + i)
       else None.

Definition switch_failed (e : string) (cmds : list (list string))
  : CallResult :=
  mkCallResult false
    [("[AudioDeviceManager] Error setting default device: " ++ e)%string]
    cmds.

Definition switch_fallback (cmds : list (list string)) : CallResult :=
  mkCallResult false
    ["[AudioDeviceManager] Please set default output device manually in System Settings > Sound";
     "[AudioDeviceManager] Or install SwitchAudioSource: brew install switchaudio-osx"]
    cmds.

(** The [if device_name:] block, for a name that was found. *)
Definition switch_to (env : SwitchEnv) (device_name : string)
    (cmds : list (list string)) : CallResult :=
  if String.eqb device_name "" then switch_fallback cmds
  else
    let cmd := ["SwitchAudioSource"; "-s"; device_name] in
    match switch_run env device_name with
    | Exits rc _ => mkCallResult (rc =? 0)%Z [] (cmds ++ [cmd])
    | Raises e | TimesOut e => switch_failed e (cmds ++ [cmd])
    end.

Definition set_default_output_device (env : SwitchEnv) (device_id : DeviceRef)
  : CallResult :=
  let which := ["which"; "SwitchAudioSource"] in
  match which_run env with
  | Raises e | TimesOut e => switch_failed e [which]
  | Exits rc _ =>
      if (rc =? 0)%Z then
        match device_id with
        | ByName n => switch_to env n [which]
        | ById i =>
            match query env with
            | QueryFails e => switch_failed e [which]
            | Devices ds =>
                if (i <? Z.of_nat (length ds))%Z then
                  match py_index ds i with
                  | Some d => switch_to env (name d) [which]
                  | None => switch_failed (index_error env) [which]
                  end
                else switch_fallback [which]
            end
        end
      else switch_fallback [which]
  end.

(** *** create_multi_output_device *)

Record MultiEnv := mkMultiEnv {
  open_run : RunOutcome;        (* open -a "Audio MIDI Setup", 5 s *)
  osascript_run : RunOutcome }. (* osascript -e applescript, 10 s *)

Definition applescript : string :=
  (nl ++ "            tell application " ++ dq ++ "System Events" ++
       dq ++ nl ++ "                tell process " ++ dq ++
       "Audio MIDI Setup" ++ dq ++ nl ++
       "                    set frontmost to true" ++ nl ++
       "                    delay 0.5" ++ nl ++ "                    " ++
       nl ++ "                    try" ++ nl ++
       "                        -- Try to find and click the + button" ++
       nl ++
       "                        click button 1 of group 1 of splitter group 1 of window " ++
       dq ++ "Audio Devices" ++ dq ++ nl ++
       "                        delay 0.3" ++ nl ++
       "                        click menu item " ++ dq ++
       "Create Multi-Output Device" ++ dq ++
       " of menu 1 of button 1 of group 1 of splitter group 1 of window " ++
       dq ++ "Audio Devices" ++ dq ++ nl ++
       "                        return " ++ dq ++ "success" ++ dq ++ nl ++
       "                    on error errMsg" ++ nl ++
       "                        return " ++ dq ++ "error: " ++ dq ++
       " & errMsg" ++ nl ++ "                    end try" ++ nl ++
       "                end tell" ++ nl ++ "            end tell" ++ nl ++
       "            ")%string.

Definition open_command : list string := ["open"; "-a"; "Audio MIDI Setup"].

Definition osascript_command : list string :=
  ["osascript"; "-e"; applescript].

(** [print] under [if not silent:]. *)
Definition say (silent : bool) (lines : list string) : list string :=
  if silent then [] else lines.

Definition bar : string := Overlay.repeat_string "â•" 60.

Definition manual_steps : list string :=
  [("[AudioDeviceManager] Audio MIDI Setup opened." ++ nl)%string;
   bar;
   ("ðŸ“‹ MANUAL STEPS (Easy!):" ++ nl)%string;
   "  1ï¸âƒ£  In the Audio MIDI Setup window (bottom-left corner):";
   "     Click the [+] button";
   (nl ++ "  2ï¸âƒ£  Select 'Create Multi-Output Device'" ++ nl)%string;
   "  3ï¸âƒ£  Check the boxes for:";
   "     âœ“ Your speakers (e.g., External Headphones, MacBook Pro Speakers)";
   ("     âœ“ BlackHole 2ch (for capturing audio)" ++ nl)%string;
   "  4ï¸âƒ£  IMPORTANT: Uncheck 'Drift Correction' for your speakers";
   ("     (so you can hear the audio)" ++ nl)%string;
   ("  5ï¸âƒ£  Set this new device as your system output in System Settings" ++
             nl)%string;
   bar;
   (nl ++
             "ðŸ’¡ TIP: You only need to do this once. The device will persist." ++
             nl)%string].

(** The two [except] clauses. *)
Definition multi_timeout (silent : bool) (out : list string)
    (cmds : list (list string)) : CallResult :=
  mkCallResult true
    (out ++ say silent ["[AudioDeviceManager] Timeout - please follow manual steps above"])
    cmds.

Definition multi_error (silent : bool) (e : string) (out : list string)
    (cmds : list (list string)) : CallResult :=
  mkCallResult true
    (out ++ say silent
       [("[AudioDeviceManager] Error: " ++ e)%string;
        ("Please follow the manual steps above." ++ nl)%string])
    cmds.

(** [device_name] and [device_ids] are arguments of the method; its body
    does not read them. *)
Definition create_multi_output_device (env : MultiEnv)
    (device_name : string) (device_ids : list string) (silent : bool)
  : CallResult :=
  let out0 :=
    say silent
      [(nl ++
             "[AudioDeviceManager] Attempting to create multi-output device...")%string;
       ("[AudioDeviceManager] This requires Accessibility permissions for automation." ++
             nl)%string] in
  match open_run env with
  | TimesOut _ => multi_timeout silent out0 [open_command]
  | Raises e => multi_error silent e out0 [open_command]
  | Exits rc _ =>
      if negb (rc =? 0)%Z then
        mkCallResult false
          (out0 ++ say silent ["[AudioDeviceManager] Could not open Audio MIDI Setup"])
          [open_command]
      else
        let out1 :=
          out0 ++ say silent manual_steps ++
          say silent ["[AudioDeviceManager] Attempting automation (may require permissions)..."] in
        let cmds := [open_command; osascript_command] in
        match osascript_run env with
        | TimesOut _ => multi_timeout silent out1 cmds
        | Raises e => multi_error silent e out1 cmds
        | Exits rc2 stdout =>
            if (rc2 =? 0)%Z && contains "success" stdout then
              mkCallResult true
                (out1 ++ say silent
                   ["âœ… [AudioDeviceManager] Automation successful!";
                    ("   Now configure the device checkboxes as shown above." ++ nl)%string])
                cmds
            else
              mkCallResult true
                (out1 ++ say silent
                   ["âš ï¸  [AudioDeviceManager] Automation failed (permissions needed).";
                    ("   Please follow the manual steps above." ++ nl)%string;
                    "   To enable automation in the future:";
                    "   â†’ System Settings > Privacy & Security > Accessibility";
                    ("   â†’ Add your Terminal/IDE and toggle it ON" ++ nl)%string])
                cmds
        end
  end.

(** *** Sample environments *)

Definition three_devices : list Device :=
  [mkDevice "MacBook Pro Microphone" 0 1;
   mkDevice "MacBook Pro Speakers" 2 0;
   mkDevice "BlackHole 2ch" 2 2].

Definition switch_installed : SwitchEnv :=
  mkSwitchEnv (Exits 0 "/opt/homebrew/bin/SwitchAudioSource")
    (Devices three_devices) "tuple index out of range"
    (fun _ => Exits 0 "").

End AudioDeviceManager.

(** ** dashboard.py *)

Module Dashboard.

Local Open Scope string_scope.
Local Open Scope list_scope.

(** *** The widgets the handlers touch *)

Record Button := mkButton {
  b_text : string;
  b_enabled : bool;
  b_hidden : bool }.

Record Label := mkLabel { l_text : string; l_style : string }.

Inductive WindowState := NotShown | Normal | Minimized.

(** The calls the handlers make on objects that live outside this file:
    the worker thread, the pipeline and the overlay window of main.py, the
    application.  A pipeline carries the number of the worker that built
    it. *)
Inductive Call :=
| WorkerStart (k : nat)
| OverlayCreate (o : nat)
| OverlayShow (o : nat)
| ConnectUpdateText (p o : nat)
| ConnectStop (o : nat)
| PipelineStart (p : nat)
| PipelineStop (p : nat)
| OverlayClose (o : nat)
| AppQuit
| EventAccept.

(** An attribute that [__init__] does not set: absent, [None], or an
    object. *)
Definition Attr := option (option nat).

Record Dashboard := mkDashboard {
  status_label : Label;
  start_btn : Button;
  stop_btn : Button;
  pipeline : Attr;
  overlay_window : Attr;
  startup_worker : option nat;
  window : WindowState;
  calls : list Call;          (* ghost: the calls made so far *)
  pending : list nat;         (* ghost: workers whose signal is under way *)
  fresh : nat;                (* ghost: the next object number *)
  console : list string;
  quit : bool }.

Definition launch_text : string := "▶ Launch Translator".

(** The state after [__init__] ([init_home_tab] for the three widgets). *)
Definition initial : Dashboard :=
  mkDashboard
    (mkLabel "Ready" "font-size: 18px; color: #a6e3a1;")
    (mkButton launch_text true false)
    (mkButton "⏹ Stop Translator" true true)
    None None None NotShown [] [] 0 [] false.

(** [hasattr(self, a) and self.a], for objects that are true. *)
Definition truthy (a : Attr) : option nat :=
  match a with
  | Some (Some x) => Some x
  | _ => None
  end.

(** *** The handlers *)

Definition on_start (self : Dashboard) : Dashboard :=
  let k := fresh self in
  mkDashboard
    (mkLabel "Initializing Pipeline... (This may take a moment)"
             "font-size: 18px; color: #fab387;")
    (mkButton "Loading..." false (b_hidden (start_btn self)))
    (stop_btn self)
    (pipeline self) (overlay_window self)
    (Some k)
    (window self)
    (calls self ++ [WorkerStart k])
    (pending self ++ [k])
    (S k)
    (console self)
    (quit self).

(** [StartupWorker.run]: the pipeline is built, or an exception with its
    message and traceback is printed; either way [finished] is emitted
    once, with the pipeline or with [None]. *)
Inductive Built := BuiltOk | BuildFails (e traceback : string).

Definition StartupWorker_run (k : nat) (b : Built)
  : list string * option nat :=
  match b with
  | BuiltOk => ([], Some k)
  | BuildFails e tb => ([("Startup Error: " ++ e)%string; tb], None)
  end.

(** [has_stop] is [hasattr(self.overlay_window, 'stop_requested')]. *)
Definition on_pipeline_ready (has_stop : bool) (pipeline_arg : option nat)
    (self : Dashboard) : Dashboard :=
  match pipeline_arg with
  | None =>
      mkDashboard
        (mkLabel "Initialization Failed Check Console"
                 (l_style (status_label self)))
        (mkButton launch_text true (b_hidden (start_btn self)))
        (stop_btn self)
        (pipeline self) (overlay_window self) (startup_worker self)
        (window self) (calls self) (pending self) (fresh self)
        (console self) (quit self)
  | Some p =>
      let o := fresh self in
      mkDashboard
        (mkLabel "Running..." "font-size: 18px; color: #a6e3a1;")
        (mkButton (b_text (start_btn self)) (b_enabled (start_btn self)) true)
        (mkButton (b_text (stop_btn self)) (b_enabled (stop_btn self)) false)
        (Some (Some p)) (Some (Some o)) (startup_worker self)
        Minimized
        (calls self ++
           [OverlayCreate o; OverlayShow o; ConnectUpdateText p o] ++
           (if has_stop then [ConnectStop o] else []) ++
           [PipelineStart p])
        (pending self) (S o) (console self) (quit self)
  end.

Definition on_stop (self : Dashboard) : Dashboard :=
  let '(pipeline1, calls1) :=
    match truthy (pipeline self) with
    | Some p => (Some None, calls self ++ [PipelineStop p])
    | None => (pipeline self, calls self)
    end in
  let '(overlay1, calls2) :=
    match truthy (overlay_window self) with
    | Some o => (Some None, calls1 ++ [OverlayClose o])
    | None => (overlay_window self, calls1)
    end in
  mkDashboard
    (mkLabel "Stopped" (l_style (status_label self)))
    (mkButton launch_text true false)
    (mkButton (b_text (stop_btn self)) (b_enabled (stop_btn self)) true)
    pipeline1 overlay1 (startup_worker self)
    Normal calls2 (pending self) (fresh self) (console self) (quit self).

Definition set_status_text (t : string) (self : Dashboard) : Dashboard :=
  mkDashboard
    (mkLabel t (l_style (status_label self)))
    (start_btn self) (stop_btn self) (pipeline self) (overlay_window self)
    (startup_worker self) (window self) (calls self) (pending self)
    (fresh self) (console self) (quit self).

Definition closeEvent (self : Dashboard) : Dashboard :=
  let s := on_stop (set_status_text "Stopping..." self) in
  mkDashboard
    (status_label s) (start_btn s) (stop_btn s) (pipeline s)
    (overlay_window s) (startup_worker s) (window s)
    (calls s ++ [AppQuit; EventAccept]) (pending s) (fresh s) (console s)
    true.

(** *** The event loop *)

(** What reaches the handlers.  A click reaches a button that is shown and
    enabled; the overlay's stop signal reaches [on_stop] when it was
    connected and the overlay is still open; a worker's [finished] signal
    is delivered after the worker was started; nothing is delivered once
    the application has quit.  Handlers run one at a time. *)
Inductive Event :=
| ClickStart
| ClickStop
| WorkerFinished (b : Built)
| OverlayStop
| Close.

Definition clickable (b : Button) : bool := b_enabled b && negb (b_hidden b).

Definition is_connect_stop (o : nat) (c : Call) : bool :=
  match c with
  | ConnectStop o' => Nat.eqb o o'
  | _ => false
  end.

Definition take_pending (rest : list nat) (out : list string)
    (self : Dashboard) : Dashboard :=
  mkDashboard
    (status_label self) (start_btn self) (stop_btn self) (pipeline self)
    (overlay_window self) (startup_worker self) (window self) (calls self)
    rest (fresh self) (console self ++ out) (quit self).

Definition deliver (has_stop : bool) (ev : Event) (self : Dashboard)
  : Dashboard :=
  if quit self then self
  else
    match ev with
    | ClickStart =>
        if clickable (start_btn self) then on_start self else self
    | ClickStop =>
        if clickable (stop_btn self) then on_stop self else self
    | WorkerFinished b =>
        match pending self with
        | [] => self
        | k :: rest =>
            let '(out, p) := StartupWorker_run k b in
            on_pipeline_ready has_stop p (take_pending rest out self)
        end
    | OverlayStop =>
        match truthy (overlay_window self) with
        | Some o =>
            if existsb (is_connect_stop o) (calls self)
            then on_stop self else self
        | None => self
        end
    | Close => closeEvent self
    end.

Definition run (has_stop : bool) (evs : list Event) (self : Dashboard)
  : Dashboard :=
  fold_left (fun s ev => deliver has_stop ev s) evs self.

(** The pipelines that were started and not stopped, read off the calls. *)
Definition track (acc : list nat) (c : Call) : list nat :=
  match c with
  | PipelineStart p => acc ++ [p]
  | PipelineStop p => List.filter (fun q => negb (Nat.eqb q p)) acc
  | _ => acc
  end.

Definition running (cs : list Call) : list nat := fold_left track cs [].

(** The overlay windows that were shown and not closed. *)
Definition track_overlay (acc : list nat) (c : Call) : list nat :=
  match c with
  | OverlayShow o => acc ++ [o]
  | OverlayClose o => List.filter (fun q => negb (Nat.eqb q o)) acc
  | _ => acc
  end.

Definition open_overlays (cs : list Call) : list nat :=
  fold_left track_overlay cs [].

(** *** The device list *)

(** The data of an entry of the combo box: none, a string or an integer. *)
Inductive ItemData := NoData | DataStr (s : string) | DataInt (i : Z).

Definition ItemData_eqb (a b : ItemData) : bool :=
  match a, b with
  | NoData, NoData => true
  | DataStr s, DataStr t => String.eqb s t
  | DataInt i, DataInt j => Z.eqb i j
  | _, _ => false
  end.

(** A [QComboBox]: its entries and the current index, -1 for none. *)
Record ComboBox := mkComboBox {
  items : list (string * ItemData);
  currentIndex : Z }.

Definition clear (c : ComboBox) : ComboBox := mkComboBox [] (-1).

(** The first entry of an empty box becomes the current one. *)
Definition addItem (text : string) (data : ItemData) (c : ComboBox)
  : ComboBox :=
  mkComboBox (items c ++ [(text, data)])
    (match items c with
     | [] => 0%Z
     | _ :: _ => currentIndex c
     end).

Fixpoint find_from (i : Z) (data : ItemData) (l : list (string * ItemData))
  : Z :=
  match l with
  | [] => (-1)%Z
  | (_, d) :: rest =>
      if ItemData_eqb d data then i else find_from (i + 1)%Z data rest
  end.

Definition findData (data : ItemData) (c : ComboBox) : Z :=
  find_from 0%Z data (items c).

Definition in_range (i : Z) (c : ComboBox) : bool :=
  ((0 <=? i) && (i <? Z.of_nat (length (items c))))%Z.

Definition setCurrentIndex (i : Z) (c : ComboBox) : ComboBox :=
  mkComboBox (items c) (if in_range i c then i else (-1)%Z).

Definition currentData (c : ComboBox) : ItemData :=
  if in_range (currentIndex c) c then
    match items c !! Z.to_nat (currentIndex c) with
    | Some (_, d) => d
    | None => NoData
    end
  else NoData.

(** The text of the entry of device [i]: [f"[{i}] {d['name']}"]. *)
Definition entry_text (i : nat) (d : AudioDeviceManager.Device) : string :=
  ("[" ++ Overlay.str_int (Z.of_nat i) ++ "] " ++ AudioDeviceManager.name d)
  %string.

(** The loop over [enumerate(devices)], from index [i] on. *)
Fixpoint add_inputs (i : nat) (ds : list AudioDeviceManager.Device)
    (c : ComboBox) : ComboBox :=
  match ds with
  | [] => c
  | d :: rest =>
      if (0 <? AudioDeviceManager.max_input_channels d)%Z
      then add_inputs (S i) rest
             (addItem (entry_text i d) (DataInt (Z.of_nat i)) c)
      else add_inputs (S i) rest c
  end.

(** [device_index] is [config.device_index]. *)
Definition populate_devices (q : AudioDeviceManager.Query)
    (device_index : option ItemData) (device_combo : ComboBox) : ComboBox :=
  let c1 := addItem "Auto (Default)" (DataStr "auto") (clear device_combo) in
  match q with
  | AudioDeviceManager.QueryFails e =>
      addItem ("Error: " ++ e)%string NoData c1
  | AudioDeviceManager.Devices ds =>
      let c2 := add_inputs 0 ds c1 in
      match device_index with
      | None => c2
      | Some d =>
          let index := findData d c2 in
          if (0 <=? index)%Z then setCurrentIndex index c2 else c2
      end
  end.

(** The value [save_config] stores under [audio] / [device_index]:
    [str(idx) if idx is not None else "auto"]. *)
Definition saved_device_index (device_combo : ComboBox) : string :=
  match currentData device_combo with
  | NoData => "auto"
  | DataStr s => s
  | DataInt i => Overlay.str_int i
  end.

(** *** Observations *)

Definition current (a : Attr) : list nat :=
  match truthy a with
  | Some x => [x]
  | None => []
  end.

(** What holds between the handlers: the pipeline and the overlay of the
    attributes are the ones in use, the two buttons are shown in turn, and
    while a worker's signal is under way the start button is locked. *)
Definition consistent (w : Dashboard) : Prop :=
  running (calls w) = current (pipeline w) /\
  open_overlays (calls w) = current (overlay_window w) /\
  b_hidden (start_btn w) = negb (b_hidden (stop_btn w)) /\
  (b_hidden (stop_btn w) = false <-> truthy (pipeline w) <> None) /\
  (truthy (overlay_window w) <> None <-> truthy (pipeline w) <> None) /\
  (quit w = true -> truthy (pipeline w) = None).

Definition locked (w : Dashboard) : Prop :=
  quit w = true \/
  pending w = [] \/
  (length (pending w) = 1%nat /\ clickable (start_btn w) = false /\
   truthy (pipeline w) = None).

(** The entries the loop of [populate_devices] adds. *)
Fixpoint input_entries (i : nat) (ds : list AudioDeviceManager.Device)
  : list (string * ItemData) :=
  match ds with
  | [] => []
  | d :: rest =>
      if (0 <? AudioDeviceManager.max_input_channels d)%Z
      then (entry_text i d, DataInt (Z.of_nat i)) :: input_entries (S i) rest
      else input_entries (S i) rest
  end.

Definition offered (data : ItemData) (c : ComboBox) : bool :=
  existsb (fun e => ItemData_eqb (snd e) data) (items c).

(** *** A sample session *)

Definition start_stop_start : list Event :=
  [ClickStart; ClickStart; WorkerFinished BuiltOk; ClickStart; OverlayStop;
   ClickStart; WorkerFinished (BuildFails "no model" "Traceback");
   ClickStart; WorkerFinished BuiltOk; Close].

End Dashboard.

(** ** Properties of the string methods *)

Module PyStrSpec.

Import PyStr.
Local Open Scope string_scope.

Lemma length_append (s t : string) :
  String.length (s ++ t) = (String.length s + String.length t)%nat.
Proof. induction s as [| c s IH]; cbn; [reflexivity | rewrite IH; reflexivity]. Qed.

Lemma substring_whole (s : string) : substring 0 (String.length s) s = s.
Proof. induction s as [| c s IH]; cbn; [reflexivity | rewrite IH; reflexivity]. Qed.

Lemma substring_after (pre s : string) (m : nat) :
  substring (String.length pre) m (pre ++ s) = substring 0 m s.
Proof. induction pre as [| c pre IH]; cbn; [reflexivity | exact IH]. Qed.

Lemma substring_split (s : string) (k : nat) :
  (k <= String.length s)%nat ->
  s = substring 0 k s ++ substring k (String.length s - k) s.
Proof.
  revert k. induction s as [| c s IH]; intros k Hk.
  - destruct k; reflexivity.
  - destruct k as [| k].
    + cbn [substring append]. rewrite Nat.sub_0_r.
      cbn [String.length]. cbn [substring]. rewrite substring_whole. reflexivity.
    + cbn [String.length] in *. cbn [substring append Nat.sub].
      rewrite <- IH by lia. reflexivity.
Qed.

Example strip_examples :
  strip "  Collecting PyQt6 " = "Collecting PyQt6" /\
  strip "   " = "" /\
  startswith "# comment" "#" = true /\
  endswith "settings.ini" ".ini" = true /\
  endswith "ini" ".ini" = false.
Proof. vm_compute. repeat split; reflexivity. Qed.

(** [endswith] is [str.endswith]: the string is some prefix followed by
    the suffix. *)
Lemma endswith_spec (s suffix : string) :
  endswith s suffix = true <-> exists pre, s = pre ++ suffix.
Proof.
  unfold endswith. split.
  - intros H. apply andb_true_iff in H as [Hle Heq].
    apply Nat.leb_le in Hle. apply String.eqb_eq in Heq.
    exists (substring 0 (String.length s - String.length suffix) s).
    pose proof (substring_split s (String.length s - String.length suffix)
                  ltac:(lia)) as Hs.
    replace (String.length s - (String.length s - String.length suffix))%nat
      with (String.length suffix) in Hs by lia.
    rewrite Heq in Hs. exact Hs.
  - intros [pre ->]. rewrite length_append.
    apply andb_true_iff. split; [apply Nat.leb_le; lia |].
    replace (String.length pre + String.length suffix - String.length suffix)%nat
      with (String.length pre) by lia.
    rewrite substring_after, substring_whole. apply String.eqb_refl.
Qed.

End PyStrSpec.

(** ** Properties of the reloader *)

Module ReloaderSpec.

Import Reloader.
Local Open Scope string_scope.

Ltac wsimpl :=
  cbn [now watchdog_installed upcoming procs process event_handler observer
       main_thread stdout signals set_now set_upcoming set_procs set_process
       set_event_handler set_observer set_main_thread set_stdout set_signals
       update_child fst snd] in *.

Ltac stable_tac := unfold stable, ret; wsimpl; repeat split; lra.

Lemma world_eta (w : World) :
  mkWorld (now w) (watchdog_installed w) (upcoming w) (procs w) (process w)
    (event_handler w) (observer w) (main_thread w) (stdout w) (signals w) = w.
Proof. destruct w; reflexivity. Qed.

(** *** Frame lemmas: what the primitives leave alone *)

Lemma stable_refl w : stable w w.
Proof. unfold stable; repeat split; lra. Qed.

Lemma stable_trans w1 w2 w3 : stable w1 w2 -> stable w2 w3 -> stable w1 w3.
Proof.
  unfold stable; intros (S1 & H1 & N1) (S2 & H2 & N2).
  repeat split; try congruence; lra.
Qed.

Lemma preserves_ret {A} (a : A) : preserves (ret a).
Proof. intros w D; split; [exact D | stable_tac]. Qed.

Lemma preserves_bind {A B} (m : M A) (k : A -> M B) :
  preserves m -> (forall a, preserves (k a)) -> preserves (bind m k).
Proof.
  intros Hm Hk w D. unfold bind.
  destruct (m w) as [a w1] eqn:E.
  specialize (Hm w D); rewrite E in Hm; cbn [snd] in Hm.
  destruct Hm as [D1 S1].
  destruct (Hk a w1 D1) as [D2 S2].
  split; [exact D2 | eapply stable_trans; eassumption].
Qed.

Lemma delays_ok_update h c w :
  delays_ok w -> sigterm_ok (on_sigterm c) = true ->
  delays_ok (update_child h c w).
Proof.
  intros [Dp Du] Hc; split; wsimpl; [| exact Du].
  destruct (decide (h < length (procs w))%nat) as [Hlt | Hge].
  - apply Forall_insert; assumption.
  - rewrite list_insert_ge by lia. exact Dp.
Qed.

Lemma delays_ok_lookup h c w :
  delays_ok w -> procs w !! h = Some c -> sigterm_ok (on_sigterm c) = true.
Proof.
  intros [Dp _] Hl.
  exact (proj1 (Forall_lookup _ _) Dp h c Hl).
Qed.

Ltac frame_only :=
  intros w D; split; [exact D | stable_tac].

Lemma preserves_print s : preserves (print s).
Proof. unfold print; frame_only. Qed.

Lemma preserves_get_process : preserves get_process.
Proof. unfold get_process; frame_only. Qed.

Lemma preserves_assign_process h : preserves (assign_process h).
Proof. unfold assign_process; frame_only. Qed.

Lemma preserves_poll h : preserves (poll h).
Proof.
  intros w D. unfold poll.
  destruct (procs w !! h) as [c |] eqn:El; [| split; [exact D | stable_tac]].
  destruct (returncode c); [split; [exact D | stable_tac] |].
  destruct (os_state c); cbn [snd];
    try (split; [exact D | stable_tac]).
  split; [| stable_tac].
  apply delays_ok_update; [exact D |].
  cbn [on_sigterm]. eapply delays_ok_lookup; eassumption.
Qed.

Lemma preserves_signal (f : OsState -> OsState) (g : bool -> bool) h :
  preserves (fun w =>
    match procs w !! h with
    | Some c =>
        (tt, update_child h
               (mkChild (f (os_state c)) (returncode c) (g (sigterm_sent c))
                  (on_sigterm c)) w)
    | None => (tt, w)
    end).
Proof.
  intros w D.
  destruct (procs w !! h) as [c |] eqn:El; cbn [snd];
    [| split; [exact D | stable_tac]].
  split; [| stable_tac].
  apply delays_ok_update; [exact D |].
  cbn [on_sigterm]. eapply delays_ok_lookup; eassumption.
Qed.

Lemma preserves_terminate h : preserves (terminate h).
Proof.
  unfold terminate. apply preserves_bind; [apply preserves_poll |].
  intros [rc |]; [apply preserves_ret |].
  exact (preserves_signal (fun s => s) (fun _ => true) h).
Qed.

Lemma preserves_kill h : preserves (kill h).
Proof.
  unfold kill. apply preserves_bind; [apply preserves_poll |].
  intros [rc |]; [apply preserves_ret |].
  exact (preserves_signal (fun _ => Killed) (fun b => b) h).
Qed.

Lemma stable_set_now w d : (0 <= d)%Q -> stable w (set_now (now w + d) w).
Proof. intros Hd; unfold stable; wsimpl; repeat split; lra. Qed.

Lemma preserves_wait h timeout : (0 <= timeout)%Q -> preserves (wait h timeout).
Proof.
  intros Ht w D. unfold wait.
  destruct (procs w !! h) as [c |] eqn:El; cbn [snd];
    [| split; [exact D | apply stable_set_now; exact Ht]].
  pose proof (delays_ok_lookup h c w D El) as Hc.
  destruct (returncode c); [split; [exact D | stable_tac] |].
  destruct (os_state c); cbn [snd].
  - destruct (sigterm_sent c);
      [| split; [exact D | apply stable_set_now; exact Ht]].
    destruct (on_sigterm c) as [d rc |] eqn:Eb;
      [| split; [exact D | apply stable_set_now; exact Ht]].
    destruct (Qle_bool d timeout); cbn [snd];
      [| split; [exact D | apply stable_set_now; exact Ht]].
    cbn [sigterm_ok] in Hc. apply Qle_bool_iff in Hc.
    split.
    + apply (delays_ok_update h _ w D). cbn [on_sigterm sigterm_ok].
      apply Qle_bool_iff; exact Hc.
    + unfold stable; wsimpl; repeat split; lra.
  - split; [| stable_tac].
    apply delays_ok_update; [exact D | exact Hc].
  - split; [| stable_tac].
    apply delays_ok_update; [exact D | exact Hc].
Qed.

Lemma preserves_Popen : preserves Popen.
Proof.
  intros w [Dp Du]. unfold Popen; cbn [snd]. split; [| stable_tac].
  split; wsimpl.
  - apply Forall_app; split; [exact Dp |].
    constructor; [| constructor]. cbn [on_sigterm].
    destruct (upcoming w) as [| b r]; [reflexivity |].
    inversion Du; assumption.
  - destruct (upcoming w) as [| b r]; [constructor |].
    inversion Du; assumption.
Qed.

Lemma preserves_restart_process : preserves restart_process.
Proof.
  unfold restart_process.
  apply preserves_bind; [apply preserves_print | intros _].
  apply preserves_bind; [apply preserves_get_process | intros p].
  apply preserves_bind.
  - destruct p as [h |]; [| apply preserves_ret].
    apply preserves_bind; [apply preserves_terminate | intros _].
    apply preserves_bind; [apply preserves_wait; lra |].
    intros [rc |]; [apply preserves_ret | apply preserves_kill].
  - intros _. apply preserves_bind; [apply preserves_Popen |].
    intros h'. apply preserves_assign_process.
Qed.

(** *** The restart spawns exactly one child and touches nothing else *)

Lemma same_control_refl w : same_control w w.
Proof. unfold same_control; repeat split; reflexivity. Qed.

Lemma same_control_trans w1 w2 w3 :
  same_control w1 w2 -> same_control w2 w3 -> same_control w1 w3.
Proof.
  unfold same_control.
  intros (A1 & A2 & A3 & A4 & A5 & A6 & A7 & A8)
         (B1 & B2 & B3 & B4 & B5 & B6 & B7 & B8).
  repeat split; congruence.
Qed.

Lemma same_control_update h c w : same_control w (update_child h c w).
Proof.
  unfold same_control; wsimpl. rewrite length_insert.
  repeat split; reflexivity.
Qed.

Lemma keeps_ret {A} (a : A) : keeps (ret a).
Proof. intros w; apply same_control_refl. Qed.

Lemma keeps_bind {A B} (m : M A) (k : A -> M B) :
  keeps m -> (forall a, keeps (k a)) -> keeps (bind m k).
Proof.
  intros Hm Hk w. unfold bind.
  destruct (m w) as [a w1] eqn:E.
  specialize (Hm w); rewrite E in Hm; cbn [snd] in Hm.
  eapply same_control_trans; [exact Hm | apply Hk].
Qed.

Lemma keeps_print s : keeps (print s).
Proof. intros w; unfold print, same_control; wsimpl; repeat split; reflexivity. Qed.

Lemma keeps_poll h : keeps (poll h).
Proof.
  intros w. unfold poll.
  destruct (procs w !! h) as [c |]; [| apply same_control_refl].
  destruct (returncode c); [apply same_control_refl |].
  destruct (os_state c); cbn [snd];
    first [apply same_control_refl | apply same_control_update].
Qed.

Lemma keeps_terminate h : keeps (terminate h).
Proof.
  unfold terminate. apply keeps_bind; [apply keeps_poll |].
  intros [rc |]; [apply keeps_ret |].
  intros w. destruct (procs w !! h) as [c |]; cbn [snd];
    [apply same_control_update | apply same_control_refl].
Qed.

Lemma keeps_kill h : keeps (kill h).
Proof.
  unfold kill. apply keeps_bind; [apply keeps_poll |].
  intros [rc |]; [apply keeps_ret |].
  intros w. destruct (procs w !! h) as [c |]; cbn [snd];
    [apply same_control_update | apply same_control_refl].
Qed.

Lemma same_control_set_now t w w' :
  same_control w w' -> same_control w (set_now t w').
Proof. intros H; exact H. Qed.

Lemma keeps_wait h timeout : keeps (wait h timeout).
Proof.
  intros w. unfold wait.
  destruct (procs w !! h) as [c |]; cbn [snd];
    [| apply same_control_set_now, same_control_refl].
  destruct (returncode c); [apply same_control_refl |].
  destruct (os_state c); cbn [snd]; try apply same_control_update.
  destruct (sigterm_sent c);
    [| apply same_control_set_now, same_control_refl].
  destruct (on_sigterm c) as [d rc |];
    [| apply same_control_set_now, same_control_refl].
  destruct (Qle_bool d timeout); cbn [snd].
  - apply same_control_set_now, same_control_update.
  - apply same_control_set_now, same_control_refl.
Qed.

Lemma keeps_stop_child p : keeps (stop_child p).
Proof.
  destruct p as [h |]; [| apply keeps_ret]. cbn [stop_child].
  apply keeps_bind; [apply keeps_terminate | intros _].
  apply keeps_bind; [apply keeps_wait |].
  intros [rc |]; [apply keeps_ret | apply keeps_kill].
Qed.

(** The world in which [restart_process] calls [run_app]. *)
Lemma restart_process_eq w :
  exists w1,
    same_control w w1 /\
    restart_process w = (tt, set_process (Some (length (procs w1)))
                               (exec Popen w1)).
Proof.
  unfold restart_process, bind at 1.
  cbn [print]. unfold bind at 1. cbn [get_process]. wsimpl.
  unfold bind at 1.
  pose proof (keeps_stop_child (process w)
                (set_stdout (stdout w ++ ["[Reloader] Restarting app..."]) w))
    as Hk.
  destruct (stop_child (process w) _) as [u w1]. cbn [snd] in Hk.
  exists w1. split.
  - eapply same_control_trans; [| exact Hk].
    unfold same_control; wsimpl; repeat split; reflexivity.
  - destruct u. reflexivity.
Qed.

Lemma restart_process_spawns w :
  let w' := exec restart_process w in
  length (procs w') = S (length (procs w)) /\
  process w' = Some (length (procs w)) /\
  procs w' !! length (procs w) =
    Some (mkChild Alive None false
            match upcoming w with [] => default_sigterm | b :: _ => b end) /\
  observer w' = observer w /\
  main_thread w' = main_thread w /\
  event_handler w' = event_handler w /\
  signals w' = signals w.
Proof.
  destruct (restart_process_eq w) as (w1 & (L & P & O & Mt & U & H & Sg & Wd) & E).
  unfold exec. rewrite E. cbn [snd]. unfold Popen, exec. cbv beta. wsimpl.
  rewrite length_app, L, U. cbn [length].
  repeat split; try assumption; try lia.
  rewrite <- L. apply list_lookup_middle. reflexivity.
Qed.

Lemma preserves_observer_stop : preserves observer_stop.
Proof. unfold observer_stop; frame_only. Qed.

Lemma preserves_loop_iteration : preserves loop_iteration.
Proof.
  unfold loop_iteration.
  apply preserves_bind; [apply preserves_get_process | intros p].
  destruct p as [h |]; [| apply preserves_ret].
  apply preserves_bind; [apply preserves_poll | intros rc].
  destruct rc as [[| q | q] |]; try apply preserves_ret.
  apply preserves_bind; [apply preserves_print | intros _].
  apply preserves_bind; [apply preserves_observer_stop | intros _].
  apply preserves_ret.
Qed.

Lemma preserves_on_keyboard_interrupt : preserves on_keyboard_interrupt.
Proof.
  unfold on_keyboard_interrupt.
  apply preserves_bind; [apply preserves_observer_stop | intros _].
  apply preserves_bind; [apply preserves_get_process | intros p].
  destruct p as [h |]; [apply preserves_terminate | apply preserves_ret].
Qed.

Lemma child_exits_frame rc w :
  delays_ok w -> delays_ok (child_exits rc w) /\ stable w (child_exits rc w).
Proof.
  intros D. unfold child_exits.
  destruct (process w) as [h |]; [| split; [exact D | stable_tac]].
  destruct (procs w !! h) as [c |] eqn:El; [| split; [exact D | stable_tac]].
  destruct (os_state c); try (split; [exact D | stable_tac]).
  split; [| stable_tac].
  apply delays_ok_update; [exact D |].
  cbn [on_sigterm]. eapply delays_ok_lookup; eassumption.
Qed.

(** *** The gate of [on_modified] *)

Lemma on_modified_skip callback self e w :
  is_directory e = true \/ watched (src_path e) = false ->
  on_modified callback self e w = (self, w).
Proof.
  intros [H | H]; unfold on_modified; rewrite H; [reflexivity |].
  destruct (is_directory e); reflexivity.
Qed.

Lemma on_modified_closed callback self e w :
  (now w - last_reload self <= 1.0)%Q ->
  on_modified callback self e w = (self, w).
Proof.
  intros Hle. unfold on_modified.
  destruct (is_directory e); [reflexivity |].
  destruct (watched (src_path e)); [| reflexivity].
  unfold bind, time_time.
  apply Qle_bool_iff in Hle. rewrite Hle. reflexivity.
Qed.

Lemma on_modified_open callback self e w :
  is_directory e = false -> watched (src_path e) = true ->
  (1.0 < now w - last_reload self)%Q ->
  on_modified callback self e w =
    (mkHandler (now (after_callback callback e w)),
     set_signals
       (signals (after_callback callback e w) ++
        [mkSignal (src_path e) (now w) (now (after_callback callback e w))])
       (after_callback callback e w)).
Proof.
  intros Hd Hw Hlt. unfold on_modified. rewrite Hd, Hw.
  unfold bind at 1. unfold time_time at 1.
  destruct (Qle_bool (now w - last_reload self) 1.0) eqn:Eg.
  - apply Qle_bool_iff in Eg. lra.
  - cbn [negb]. unfold after_callback, exec, bind.
    destruct (print _ w) as [u1 w1]. cbn [snd].
    destruct (callback w1) as [u2 w2]. cbn [snd].
    reflexivity.
Qed.

Lemma after_callback_restart e w :
  delays_ok w ->
  delays_ok (after_callback restart_process e w) /\
  stable w (after_callback restart_process e w).
Proof.
  intros D. unfold after_callback.
  pose proof (preserves_bind _ (fun _ => restart_process)
                (preserves_print
                   (newline ++ "[Reloader] detected change in " ++ src_path e))
                (fun _ => preserves_restart_process) w D) as H.
  unfold bind in H. unfold exec.
  destruct (print _ w) as [u1 w1]. cbn [snd] in *. exact H.
Qed.

(** *** The invariant of the debouncer along a run *)

Lemma separated_snoc l s :
  separated l ->
  Forall (fun s' => (sig_to s' + 1.0 < sig_from s)%Q) l ->
  separated (l ++ [s]).
Proof.
  intros Hs Hb i j s1 s2 Hij H1 H2.
  apply lookup_snoc_Some in H2. destruct H2 as [[Hj H2] | [Hj ->]].
  - rewrite lookup_app_l in H1 by lia. exact (Hs i j s1 s2 Hij H1 H2).
  - rewrite lookup_app_l in H1 by lia.
    exact (proj1 (Forall_lookup _ _) Hb i s1 H1).
Qed.

Lemma debounce_inv_stable t0 w w' :
  debounce_inv t0 w -> delays_ok w' -> stable w w' -> debounce_inv t0 w'.
Proof.
  intros (D & Hsep & Hfrom & Hord & self & Hh & Ht0 & Hlr & Hto) D' (Ss & Sh & Sn).
  split; [exact D' |]. rewrite Ss.
  split; [exact Hsep |]. split; [exact Hfrom |]. split; [exact Hord |].
  exists self. rewrite Sh. repeat split; try assumption. lra.
Qed.

Lemma debounce_inv_set_handler t0 self w :
  debounce_inv t0 w -> event_handler w = Some self ->
  debounce_inv t0 (set_event_handler (Some self) w).
Proof.
  intros H Hh. rewrite <- Hh.
  replace (set_event_handler (event_handler w) w) with w; [exact H |].
  destruct w; reflexivity.
Qed.

Lemma debounce_inv_fire t0 self e w :
  debounce_inv t0 w -> event_handler w = Some self ->
  is_directory e = false -> watched (src_path e) = true ->
  (1.0 < now w - last_reload self)%Q ->
  debounce_inv t0
    (set_event_handler
       (Some (fst (on_modified restart_process self e w)))
       (snd (on_modified restart_process self e w))).
Proof.
  intros (D & Hsep & Hfrom & Hord & self' & Hh' & Ht0 & Hlr & Hto) Hh Hd Hw Hgate.
  rewrite Hh in Hh'. injection Hh' as <-.
  rewrite on_modified_open by assumption. cbn [fst snd].
  destruct (after_callback_restart e w D) as [D1 (Ss & Sh & Sn)].
  set (w1 := after_callback restart_process e w) in *.
  split; [exact D1 |]. wsimpl. rewrite Ss.
  split; [| split; [| split]].
  - apply separated_snoc; [exact Hsep |].
    eapply Forall_impl; [exact Hto |]. cbn [sig_from]. intros s Hs. lra.
  - apply Forall_app; split; [exact Hfrom |].
    constructor; [cbn [sig_from]; lra | constructor].
  - apply Forall_app; split; [exact Hord |].
    constructor; [cbn [sig_from sig_to]; lra | constructor].
  - exists (mkHandler (now w1)). cbn [last_reload].
    repeat split; try lra.
    apply Forall_app; split.
    + eapply Forall_impl; [exact Hto |]. intros s Hs. cbn beta in *. lra.
    + constructor; [cbn [sig_to]; lra | constructor].
Qed.

Lemma step_debounce_inv t0 a w :
  valid_action a = true -> debounce_inv t0 w -> debounce_inv t0 (step a w).
Proof.
  intros Hv Hinv. destruct a as [dt | e | | rc |]; cbn [step].
  - cbn [valid_action] in Hv. apply Qle_bool_iff in Hv.
    eapply debounce_inv_stable; [exact Hinv | apply Hinv | stable_tac].
  - destruct (observer w); try exact Hinv.
    destruct (event_handler w) as [self |] eqn:Hh; [| exact Hinv].
    unfold dispatch.
    destruct (event_type e);
      try (unfold ret; apply debounce_inv_set_handler; assumption).
    destruct (is_directory e) eqn:Hd.
    { rewrite on_modified_skip by (left; exact Hd).
      apply debounce_inv_set_handler; assumption. }
    destruct (watched (src_path e)) eqn:Hw.
    2:{ rewrite on_modified_skip by (right; exact Hw).
        apply debounce_inv_set_handler; assumption. }
    destruct (Qlt_le_dec 1.0 (now w - last_reload self)) as [Hlt | Hle].
    + pose proof (debounce_inv_fire t0 self e w Hinv Hh Hd Hw Hlt) as H.
      destruct (on_modified restart_process self e w) as [self' w']. exact H.
    + rewrite on_modified_closed by exact Hle.
      apply debounce_inv_set_handler; assumption.
  - destruct (main_thread w); try exact Hinv.
    destruct (preserves_loop_iteration w (proj1 Hinv)) as [D S].
    destruct (loop_iteration w) as [leave w']. cbn [snd] in *.
    destruct leave; eapply debounce_inv_stable; try exact Hinv;
      try exact D; try exact S.
  - destruct (child_exits_frame rc w (proj1 Hinv)) as [D S].
    eapply debounce_inv_stable; eassumption.
  - destruct (main_thread w); try exact Hinv.
    destruct (preserves_on_keyboard_interrupt w (proj1 Hinv)) as [D S].
    unfold exec. eapply debounce_inv_stable; [exact Hinv | exact D | exact S].
Qed.

Lemma run_app_cons a tr w : run (a :: tr) w = run tr (step a w).
Proof. reflexivity. Qed.

Lemma run_debounce_inv t0 tr w :
  valid_trace tr = true -> debounce_inv t0 w -> debounce_inv t0 (run tr w).
Proof.
  revert w. induction tr as [| a tr IH]; intros w Hv Hinv; [exact Hinv |].
  cbn [valid_trace forallb] in Hv. apply andb_true_iff in Hv as [Ha Htr].
  rewrite run_app_cons. apply IH; [exact Htr |].
  apply step_debounce_inv; assumption.
Qed.

Lemma boot_eq t0 ups :
  boot t0 ups =
    mkWorld t0 true (tail ups)
      [mkChild Alive None false
         match ups with [] => default_sigterm | b :: _ => b end]
      (Some 0%nat) (Some (mkHandler t0)) ObsStarted MainInLoop
      ["[Reloader] Starting development monitor..."] [].
Proof. reflexivity. Qed.

Lemma boot_debounce_inv t0 ups :
  forallb sigterm_ok ups = true -> debounce_inv t0 (boot t0 ups).
Proof.
  intros Hups. rewrite boot_eq.
  split; [split; wsimpl |].
  - constructor; [| constructor]. cbn [on_sigterm].
    destruct ups as [| b r]; [reflexivity |].
    cbn [forallb] in Hups. apply andb_true_iff in Hups. tauto.
  - destruct ups as [| b r]; [constructor |].
    cbn [forallb tail] in *. apply andb_true_iff in Hups as [_ Hr].
    apply Forall_forall. intros x Hx. apply list_elem_of_In in Hx.
    exact (proj1 (forallb_forall _ _) Hr x Hx).
  - wsimpl. split; [| split; [constructor | split; [constructor |]]].
    + intros i j s1 s2 _ H1. rewrite lookup_nil in H1. discriminate.
    + exists (mkHandler t0). cbn [last_reload].
      repeat split; try lra. constructor.
Qed.

(** *** The debouncer *)

(** Two saves 0.2 apart and a third 1.5 after the first: two restarts. *)
Example two_signals_for_three_saves :
  length (signals (run three_saves (boot 0 []))) = 2%nat /\
  length (procs (run three_saves (boot 0 []))) = 3%nat.
Proof. vm_compute. split; reflexivity. Qed.

Example watched_paths :
  watched "app.py" = true /\ watched "config.ini" = true /\
  watched "app.pyc" = false /\ watched "py" = false /\
  watched "notes.txt" = false.
Proof. vm_compute. repeat split; reflexivity. Qed.

Lemma step_event_unchanged self e w :
  event_handler w = Some self ->
  dispatch restart_process self e w = (self, w) ->
  step (FsEvent e) w = w.
Proof.
  intros Hh Hd. cbn [step]. rewrite Hh, Hd.
  destruct (observer w); try reflexivity.
  rewrite <- Hh. destruct w; reflexivity.
Qed.

Lemma dispatch_qualifying callback self e w :
  qualifying e = true ->
  dispatch callback self e w = on_modified callback self e w /\
  is_directory e = false /\ watched (src_path e) = true.
Proof.
  unfold qualifying, dispatch. destruct (event_type e); try discriminate.
  intros H. apply andb_true_iff in H as [Hd Hw].
  destruct (is_directory e); [discriminate | auto].
Qed.

Lemma separated_window l : separated l -> at_most_one_in_window l.
Proof.
  intros Hs a len i j s1 s2 x1 x2 Hlen H1 H2 [F1 T1] [F2 T2] [A1 B1] [A2 B2].
  destruct (Nat.lt_trichotomy i j) as [Hlt | [Heq | Hgt]]; [| exact Heq |];
    exfalso.
  - pose proof (Hs i j s1 s2 Hlt H1 H2). lra.
  - pose proof (Hs j i s2 s1 Hgt H2 H1). lra.
Qed.

Lemma after_callback_spawns e w :
  length (procs (after_callback restart_process e w)) = S (length (procs w)).
Proof.
  unfold after_callback.
  destruct (restart_process_spawns
              (exec (print (newline ++ "[Reloader] detected change in "
                              ++ src_path e)) w)) as [L _].
  exact L.
Qed.

(** C1.  Along every run of the reloader, a qualifying event (Modified,
    not a directory, path ending in a watched extension) whose clock
    reading is at most 1.0 after [last_reload] leaves the world as it is;
    one more than 1.0 after it calls the callback exactly once (one
    signal, one child spawned) and stores the clock reading taken after
    the callback in [last_reload].  Hence any two signals of the run are
    more than 1.0 apart, and no window of length at most 1.0 holds two of
    them. *)
Theorem debounce_gate_and_separation
    (t0 : Q) (ups : list Sigterm) (tr : list Action) (e : FileSystemEvent)
    (Hups : forallb sigterm_ok ups = true)
    (Htr : valid_trace tr = true)
    (He : qualifying e = true) :
  let w := run tr (boot t0 ups) in
  let w' := step (FsEvent e) w in
  (exists self,
     event_handler w = Some self /\
     ((now w - last_reload self <= 1.0)%Q -> w' = w) /\
     (observer w = ObsStarted -> (1.0 < now w - last_reload self)%Q ->
        signals w' =
          (signals w ++ [mkSignal (src_path e) (now w) (now w')])%list /\
        event_handler w' = Some (mkHandler (now w')) /\
        length (procs w') = S (length (procs w)))) /\
  separated (signals w) /\
  at_most_one_in_window (signals w).
Proof.
  intros w w'.
  pose proof (run_debounce_inv t0 tr _ Htr (boot_debounce_inv t0 ups Hups))
    as Hinv.
  fold w in Hinv.
  destruct Hinv as (D & Hsep & Hfrom & Hord & self & Hh & Ht0 & Hlr & Hto).
  destruct (dispatch_qualifying restart_process self e w He) as (Hdis & Hd & Hw).
  split; [| split; [exact Hsep | apply separated_window; exact Hsep]].
  exists self. split; [exact Hh |]. split.
  - intros Hle. apply (step_event_unchanged self); [exact Hh |].
    rewrite Hdis. apply on_modified_closed; exact Hle.
  - intros Hobs Hlt. subst w'. cbn [step]. rewrite Hobs, Hh, Hdis.
    rewrite on_modified_open by assumption.
    destruct (after_callback_restart e w D) as [_ (Ss & _ & _)].
    wsimpl. rewrite Ss.
    split; [reflexivity |]. split; [reflexivity |].
    apply after_callback_spawns.
Qed.

Lemma debounce_gate_and_separation_witness :
  forallb sigterm_ok [Ignores] = true /\
  valid_trace three_saves = true /\
  qualifying app_py_modified = true /\
  separated (signals (run three_saves (boot 0 [Ignores]))) /\
  at_most_one_in_window (signals (run three_saves (boot 0 [Ignores]))).
Proof.
  split; [reflexivity |]. split; [reflexivity |]. split; [reflexivity |].
  exact (proj2 (debounce_gate_and_separation 0 [Ignores] three_saves
                  app_py_modified eq_refl eq_refl eq_refl)).
Defined.

(** C10.  The handler is built with [last_reload] set to the clock
    reading of its construction.  Hence, in every run, as long as the
    clock is at most 1.0 past that reading no signal has been emitted and
    a qualifying event is dropped; every signal of the run passes the gate
    at a reading strictly more than 1.0 after the construction. *)
Theorem first_signal_after_construction
    (t0 : Q) (ups : list Sigterm) (tr : list Action) (e : FileSystemEvent)
    (Hups : forallb sigterm_ok ups = true)
    (Htr : valid_trace tr = true)
    (He : qualifying e = true) :
  event_handler (boot t0 ups) = Some (mkHandler t0) /\
  let w := run tr (boot t0 ups) in
  ((now w - t0 <= 1.0)%Q -> signals w = [] /\ step (FsEvent e) w = w) /\
  Forall (fun s => (t0 + 1.0 < sig_from s)%Q) (signals w).
Proof.
  split; [reflexivity |]. intros w.
  pose proof (run_debounce_inv t0 tr _ Htr (boot_debounce_inv t0 ups Hups))
    as Hinv.
  fold w in Hinv.
  destruct Hinv as (D & Hsep & Hfrom & Hord & self & Hh & Ht0 & Hlr & Hto).
  split; [| exact Hfrom].
  intros Hearly. split.
  - destruct (signals w) as [| s l]; [reflexivity | exfalso].
    inversion Hfrom; inversion Hord; inversion Hto; subst. lra.
  - destruct (dispatch_qualifying restart_process self e w He) as (Hdis & _ & _).
    apply (step_event_unchanged self); [exact Hh |].
    rewrite Hdis. apply on_modified_closed. lra.
Qed.

Lemma first_signal_after_construction_witness :
  forallb sigterm_ok [] = true /\
  valid_trace early_saves = true /\
  qualifying app_py_modified = true /\
  signals (run early_saves (boot 100 [])) = [] /\
  step (FsEvent app_py_modified) (run early_saves (boot 100 [])) =
    run early_saves (boot 100 []).
Proof.
  split; [reflexivity |]. split; [reflexivity |]. split; [reflexivity |].
  refine (proj1 (proj2 (first_signal_after_construction 100 [] early_saves
                         app_py_modified eq_refl eq_refl eq_refl)) _).
  vm_compute. discriminate.
Defined.

(** C8.  An event for a directory, or for a path that ends neither in
    [.py] nor in [.ini], is dropped by the handler whatever its kind, the
    callback and the state of the world: nothing changes, so no signal is
    emitted, and a run with such an event at any place is the run without
    it. *)
Theorem unwatched_event_dropped
    (callback : M unit) (self : RestartHandler) (e : FileSystemEvent)
    (w : World) (before after : list Action)
    (He : is_directory e = true \/ watched (src_path e) = false) :
  dispatch callback self e w = (self, w) /\
  step (FsEvent e) w = w /\
  run (before ++ FsEvent e :: after) w = run (before ++ after) w.
Proof.
  assert (Hd : forall cb s v, dispatch cb s e v = (s, v)).
  { intros cb s v. unfold dispatch.
    destruct (event_type e); try reflexivity.
    apply on_modified_skip; exact He. }
  assert (Hs : forall v, step (FsEvent e) v = v).
  { intros v. cbn [step].
    destruct (observer v); try reflexivity.
    destruct (event_handler v) as [s |] eqn:Hh; [| reflexivity].
    rewrite Hd, <- Hh. destruct v; reflexivity. }
  split; [apply Hd |]. split; [apply Hs |].
  unfold run. rewrite !fold_left_app. cbn [fold_left]. rewrite Hs. reflexivity.
Qed.

Lemma unwatched_event_dropped_witness :
  (is_directory (mkEvent Modified false "notes.txt") = true \/
   watched (src_path (mkEvent Modified false "notes.txt")) = false) /\
  step (FsEvent (mkEvent Modified false "notes.txt"))
       (run [Elapse 5] (boot 0 [])) = run [Elapse 5] (boot 0 []).
Proof.
  split; [right; reflexivity |].
  exact (proj1 (proj2 (unwatched_event_dropped restart_process (mkHandler 0)
                         (mkEvent Modified false "notes.txt")
                         (run [Elapse 5] (boot 0 [])) [] []
                         (or_intror eq_refl)))).
Defined.

(** C9, as the code has it.  A Created or a Deleted event never reaches
    the gate: whatever its path, the state of the handler and the clock,
    it changes nothing and emits no signal.  Only Modified events
    qualify. *)
Theorem created_deleted_ignored
    (callback : M unit) (self : RestartHandler) (dir : bool) (path : string)
    (w : World) :
  dispatch callback self (mkEvent Created dir path) w = (self, w) /\
  dispatch callback self (mkEvent Deleted dir path) w = (self, w) /\
  step (FsEvent (mkEvent Created dir path)) w = w /\
  step (FsEvent (mkEvent Deleted dir path)) w = w.
Proof.
  split; [reflexivity |]. split; [reflexivity |].
  split; cbn [step]; destruct (observer w); try reflexivity;
    destruct (event_handler w) as [s |] eqn:Hh; try reflexivity;
    unfold dispatch, ret; cbn [event_type]; rewrite <- Hh;
    destruct w; reflexivity.
Qed.

(** C9, as stated, fails: five time units after the start, the creation
    of [app.py] emits no signal where its modification emits one. *)
Lemma created_event_counterexample :
  let w := run [Elapse 5] (boot 0 []) in
  watched "app.py" = true /\
  signals (step (FsEvent (mkEvent Created false "app.py")) w) = [] /\
  signals (step (FsEvent (mkEvent Deleted false "app.py")) w) = [] /\
  signals (step (FsEvent (mkEvent Modified false "app.py")) w) =
    [mkSignal "app.py" 5 5].
Proof. vm_compute. repeat split; reflexivity. Qed.

(** *** The supervising loop *)

Lemma not_fires_step w e : fires w e = false -> step (FsEvent e) w = w.
Proof.
  unfold fires. cbn [step].
  destruct (observer w); try reflexivity.
  destruct (event_handler w) as [self |] eqn:Hh; [| reflexivity].
  intros Hf.
  assert (Hd : dispatch restart_process self e w = (self, w)).
  { unfold qualifying in Hf. unfold dispatch.
    destruct (event_type e); try reflexivity.
    destruct (is_directory e) eqn:Hd;
      [apply on_modified_skip; left; exact Hd |].
    destruct (watched (src_path e)) eqn:Hw;
      [| apply on_modified_skip; right; exact Hw].
    cbn [negb andb] in Hf. apply negb_false_iff in Hf.
    apply on_modified_closed. apply Qle_bool_iff; exact Hf. }
  rewrite Hd, <- Hh. destruct w; reflexivity.
Qed.

Lemma is_running_inv w :
  is_running w = true ->
  main_thread w = MainInLoop /\ observer w = ObsStarted /\
  (exists self, event_handler w = Some self) /\
  exists h c, process w = Some h /\ procs w !! h = Some c /\
              os_state c = Alive /\ returncode c = None.
Proof.
  unfold is_running, current_child.
  destruct (main_thread w); try discriminate.
  destruct (observer w); try discriminate.
  destruct (event_handler w) as [self |]; try discriminate.
  destruct (process w) as [h |]; try discriminate.
  destruct (procs w !! h) as [c |] eqn:El; try discriminate.
  destruct (os_state c) eqn:Eo; try discriminate.
  destruct (returncode c) eqn:Er; try discriminate.
  intros _. repeat split; eauto 10.
Qed.

Lemma child_exits_down w h rc :
  is_running w = true -> process w = Some h ->
  main_thread (child_exits rc w) = MainInLoop /\
  observer (child_exits rc w) = ObsStarted /\
  child_down h rc (length (procs w)) (child_exits rc w).
Proof.
  intros Hrun Hh.
  destruct (is_running_inv w Hrun)
    as (Hm & Ho & Hs & h' & c & Hp & Hl & Hos & Hr).
  rewrite Hh in Hp. injection Hp as <-.
  assert (Hlt : (h < length (procs w))%nat) by (eapply lookup_lt_Some; eassumption).
  unfold child_exits. rewrite Hh, Hl, Hos.
  split; [exact Hm |]. split; [exact Ho |].
  unfold child_down; wsimpl. rewrite length_insert.
  repeat split; try assumption.
  eexists. split; [apply list_lookup_insert_eq; exact Hlt |].
  cbn [os_state returncode]. split; [reflexivity | left; exact Hr].
Qed.

Lemma poll_down h rc n w :
  child_down h rc n w ->
  fst (poll h w) = Some rc /\
  child_down h rc n (snd (poll h w)) /\
  main_thread (snd (poll h w)) = main_thread w /\
  observer (snd (poll h w)) = observer w.
Proof.
  intros (Hp & Hn & Hs & c & Hl & Hos & Hr).
  assert (Hlt : (h < length (procs w))%nat) by (eapply lookup_lt_Some; eassumption).
  unfold poll. rewrite Hl.
  destruct Hr as [Hr | Hr]; rewrite Hr.
  - rewrite Hos. cbn [fst snd]. split; [reflexivity |].
    split; [| split; reflexivity].
    unfold child_down; wsimpl. rewrite length_insert.
    repeat split; try assumption.
    eexists. split; [apply list_lookup_insert_eq; exact Hlt |].
    cbn [os_state returncode]. split; [reflexivity | right; reflexivity].
  - cbn [fst snd]. split; [reflexivity |].
    split; [| split; reflexivity].
    unfold child_down. repeat split; try assumption.
    exists c. repeat split; try assumption. right; exact Hr.
Qed.

Lemma child_exits_noop h rc n rc' w :
  child_down h rc n w -> child_exits rc' w = w.
Proof.
  intros (Hp & Hn & Hs & c & Hl & Hos & Hr).
  unfold child_exits. rewrite Hp, Hl, Hos. reflexivity.
Qed.

(** A crashed child stays as it is through a quiet stretch. *)
Lemma quiet_step_crashed h rc n a w :
  rc <> 0%Z ->
  match a with
  | FsEvent e => fires w e = false
  | Interrupt => False
  | _ => True
  end ->
  main_thread w = MainInLoop /\ observer w = ObsStarted /\ child_down h rc n w ->
  main_thread (step a w) = MainInLoop /\ observer (step a w) = ObsStarted /\
  child_down h rc n (step a w).
Proof.
  intros Hrc Ha (Hm & Ho & Hd).
  destruct a as [dt | e | | rc' |]; cbn [step].
  - split; [exact Hm |]. split; [exact Ho |]. exact Hd.
  - fold (step (FsEvent e) w). rewrite not_fires_step by exact Ha. auto.
  - rewrite Hm. unfold loop_iteration, bind, get_process.
    destruct Hd as [Hp Hrest]. rewrite Hp.
    destruct (poll_down h rc n w (conj Hp Hrest)) as (Hf & Hd' & Hm' & Ho').
    destruct (poll h w) as [r w1]. cbn [fst snd] in *. subst r.
    destruct rc as [| q | q]; [contradiction | |]; unfold ret;
      (split; [congruence |]; split; [congruence | exact Hd']).
  - rewrite (child_exits_noop h rc n rc' w Hd). auto.
  - contradiction.
Qed.

Lemma quiet_run_crashed h rc n tr w :
  rc <> 0%Z -> quiet tr w = true ->
  main_thread w = MainInLoop /\ observer w = ObsStarted /\ child_down h rc n w ->
  let w' := run tr w in
  main_thread w' = MainInLoop /\ observer w' = ObsStarted /\ child_down h rc n w'.
Proof.
  intros Hrc. revert w. induction tr as [| a tr IH]; intros w Hq Hinv;
    [exact Hinv |].
  cbn [quiet] in Hq. apply andb_true_iff in Hq as [Ha Hq].
  rewrite run_app_cons. apply IH; [exact Hq |].
  apply quiet_step_crashed; try assumption.
  destruct a; try exact I; [| discriminate].
  apply negb_true_iff; exact Ha.
Qed.

Lemma fires_inv w e :
  fires w e = true ->
  observer w = ObsStarted /\
  exists self, event_handler w = Some self /\
    qualifying e = true /\ (1.0 < now w - last_reload self)%Q.
Proof.
  unfold fires. destruct (observer w); try discriminate.
  destruct (event_handler w) as [self |]; try discriminate.
  intros H. apply andb_true_iff in H as [Hq Hg].
  split; [reflexivity |]. exists self. repeat split; try assumption.
  apply negb_true_iff in Hg.
  destruct (Qlt_le_dec 1.0 (now w - last_reload self)) as [Hlt | Hle];
    [exact Hlt |].
  apply Qle_bool_iff in Hle. congruence.
Qed.

(** What a delivered event that gets through the gate does to the world. *)
Lemma fires_step w e :
  fires w e = true ->
  let w1 := after_callback restart_process e w in
  step (FsEvent e) w =
    set_event_handler (Some (mkHandler (now w1)))
      (set_signals (signals w1 ++ [mkSignal (src_path e) (now w) (now w1)]) w1).
Proof.
  intros Hf. destruct (fires_inv w e Hf) as (Ho & self & Hh & Hq & Hg).
  destruct (dispatch_qualifying restart_process self e w Hq) as (Hdis & Hd & Hw).
  cbn [step]. rewrite Ho, Hh, Hdis.
  rewrite on_modified_open by assumption. reflexivity.
Qed.

(** C3.  When the child of a running supervisor ends by itself with a
    nonzero code, then through any stretch of the run without change
    signal and without interrupt the loop keeps polling, the watcher stays
    active, no process is spawned and the child stays down; the next
    event that gets through the gate spawns one new child, with a handle
    different from the crashed one, and the supervisor is running
    again. *)
Theorem crash_waits_for_change
    (w : World) (h : nat) (rc : Z) (tr : list Action) (e : FileSystemEvent)
    (Hrun : is_running w = true)
    (Hh : process w = Some h)
    (Hrc : rc <> 0%Z)
    (Hquiet : quiet tr (step (ChildExit rc) w) = true) :
  let w1 := run tr (step (ChildExit rc) w) in
  let w2 := step (FsEvent e) w1 in
  (main_thread w1 = MainInLoop /\ observer w1 = ObsStarted /\
   process w1 = Some h /\ length (procs w1) = length (procs w) /\
   exists c, procs w1 !! h = Some c /\ os_state c = Exited rc) /\
  (fires w1 e = true ->
   is_running w2 = true /\
   process w2 = Some (length (procs w)) /\
   length (procs w) <> h /\
   length (procs w2) = S (length (procs w))).
Proof.
  intros w1 w2.
  pose proof (child_exits_down w h rc Hrun Hh) as H0.
  pose proof (quiet_run_crashed h rc _ tr _ Hrc Hquiet H0) as H1.
  cbn zeta in H1. fold w1 in H1.
  destruct H1 as (Hm & Ho & Hp & Hn & Hs & c & Hl & Hos & Hr).
  split.
  - repeat split; try assumption. exists c. split; assumption.
  - intros Hf. subst w2. rewrite (fires_step w1 e Hf). cbn zeta.
    unfold after_callback.
    set (wp := exec (print (newline ++ "[Reloader] detected change in "
                              ++ src_path e)) w1).
    destruct (restart_process_spawns wp) as (L & P & N & O' & M' & H' & S').
    assert (Hwp : procs wp = procs w1) by reflexivity.
    rewrite Hwp in *.
    assert (Hlt : (h < length (procs w1))%nat) by (eapply lookup_lt_Some; eassumption).
    split; [| split; [| split]].
    + unfold is_running, current_child. wsimpl.
      rewrite M', O', P, N. cbn [os_state returncode].
      change (main_thread wp) with (main_thread w1).
      change (observer wp) with (observer w1).
      rewrite Hm, Ho. reflexivity.
    + wsimpl. rewrite P, Hn. reflexivity.
    + lia.
    + wsimpl. rewrite L, Hn. reflexivity.
Qed.

Lemma crash_waits_for_change_witness :
  is_running (boot 0 []) = true /\
  process (boot 0 []) = Some 0%nat /\
  1%Z <> 0%Z /\
  quiet crash_then_wait (step (ChildExit 1) (boot 0 [])) = true /\
  fires (run crash_then_wait (step (ChildExit 1) (boot 0 [])))
        app_py_modified = true /\
  process (run crash_then_wait (step (ChildExit 1) (boot 0 []))) = Some 0%nat /\
  process (step (FsEvent app_py_modified)
             (run crash_then_wait (step (ChildExit 1) (boot 0 []))))
    = Some 1%nat.
Proof.
  pose proof (crash_waits_for_change (boot 0 []) 0 1 crash_then_wait
                app_py_modified eq_refl eq_refl
                ltac:(discriminate) eq_refl) as H.
  cbn zeta in H. destruct H as [(_ & _ & Hp & _) Hfire].
  split; [reflexivity |]. split; [reflexivity |].
  split; [discriminate |]. split; [reflexivity |].
  split; [reflexivity |]. split; [exact Hp |].
  exact (proj1 (proj2 (Hfire eq_refl))).
Defined.

(** *** Clean exit *)

Lemma set_now_same w : set_now (now w) w = w.
Proof. destruct w; reflexivity. Qed.

Lemma step_inert a w : inert w -> exists t, step a w = set_now t w.
Proof.
  intros (Hm & Ho & Hc).
  destruct a as [dt | e | | rc |]; cbn [step].
  - eexists; reflexivity.
  - exists (now w). rewrite set_now_same.
    destruct (observer w); try reflexivity. contradiction.
  - exists (now w). rewrite set_now_same.
    destruct (main_thread w); try reflexivity. contradiction.
  - exists (now w). rewrite set_now_same.
    unfold child_exits. unfold current_child in Hc.
    destruct (process w) as [h |]; [| reflexivity].
    destruct (procs w !! h) as [c |]; [| reflexivity].
    destruct (os_state c); try reflexivity. contradiction.
  - exists (now w). rewrite set_now_same.
    destruct (main_thread w); try reflexivity. contradiction.
Qed.

Lemma run_inert tr w : inert w -> exists t, run tr w = set_now t w.
Proof.
  revert w. induction tr as [| a tr IH]; intros w Hi.
  - exists (now w). rewrite set_now_same. reflexivity.
  - rewrite run_app_cons. destruct (step_inert a w Hi) as [t ->].
    destruct (IH (set_now t w) Hi) as [t' ->].
    exists t'. reflexivity.
Qed.

Lemma child_down_inert h rc n w :
  child_down h rc n w -> main_thread w = MainReturned ->
  observer w = ObsStopped -> inert w.
Proof.
  intros (Hp & Hn & Hs & c & Hl & Hos & Hr) Hm Ho.
  unfold inert, current_child. rewrite Hm, Ho, Hp, Hl, Hos.
  repeat split; discriminate.
Qed.

(** The poll that finds exit code 0 leaves the loop and stops the
    watcher. *)
Lemma tick_clean_exit h n w :
  child_down h 0 n w ->
  main_thread w = MainInLoop \/
  (main_thread w = MainReturned /\ observer w = ObsStopped) ->
  child_down h 0 n (step Tick w) /\
  main_thread (step Tick w) = MainReturned /\
  observer (step Tick w) = ObsStopped.
Proof.
  intros Hd [Hm | [Hm Ho]]; cbn [step]; rewrite Hm; [| auto].
  unfold loop_iteration, bind, get_process.
  destruct Hd as [Hp Hrest]. rewrite Hp.
  destruct (poll_down h 0 n w (conj Hp Hrest)) as (Hf & Hd' & _ & _).
  destruct (poll h w) as [r w1]. cbn [fst snd] in *. subst r.
  cbn [print observer_stop ret]. wsimpl.
  split; [exact Hd' |]. split; reflexivity.
Qed.

Lemma quiet_step_clean h n a w :
  match a with
  | FsEvent e => fires w e = false
  | Interrupt => False
  | _ => True
  end ->
  child_down h 0 n w /\
  (main_thread w = MainInLoop \/
   (main_thread w = MainReturned /\ observer w = ObsStopped)) ->
  child_down h 0 n (step a w) /\
  (main_thread (step a w) = MainInLoop \/
   (main_thread (step a w) = MainReturned /\ observer (step a w) = ObsStopped)).
Proof.
  intros Ha (Hd & Hm).
  destruct a as [dt | e | | rc' |].
  - cbn [step]. split; [exact Hd | exact Hm].
  - rewrite not_fires_step by exact Ha. auto.
  - destruct (tick_clean_exit h n w Hd Hm) as (Hd' & Hm' & Ho').
    split; [exact Hd' | right; auto].
  - cbn [step]. rewrite (child_exits_noop h 0 n rc' w Hd). auto.
  - contradiction.
Qed.

Lemma quiet_run_clean h n tr w :
  quiet tr w = true ->
  child_down h 0 n w /\
  (main_thread w = MainInLoop \/
   (main_thread w = MainReturned /\ observer w = ObsStopped)) ->
  child_down h 0 n (run tr w) /\
  (main_thread (run tr w) = MainInLoop \/
   (main_thread (run tr w) = MainReturned /\ observer (run tr w) = ObsStopped)).
Proof.
  revert w. induction tr as [| a tr IH]; intros w Hq Hinv; [exact Hinv |].
  cbn [quiet] in Hq. apply andb_true_iff in Hq as [Ha Hq].
  rewrite run_app_cons. apply IH; [exact Hq |].
  apply quiet_step_clean; [| exact Hinv].
  destruct a; try exact I; [| discriminate].
  apply negb_true_iff; exact Ha.
Qed.

(** C2, as the code has it.  When the child of a running supervisor ends
    by itself with code 0 and no change signal is handled before the
    loop polls again, that poll stops the watcher and leaves the loop
    without any restart; from then on nothing changes but the clock: no
    event is delivered, no process is spawned, no signal is emitted. *)
Theorem clean_exit_stops_at_next_poll
    (w : World) (before after : list Action)
    (Hrun : is_running w = true)
    (Hquiet : quiet before (step (ChildExit 0) w) = true) :
  let w1 := step Tick (run before (step (ChildExit 0) w)) in
  let w2 := run after w1 in
  (is_stopped w1 = true /\
   length (procs w1) = length (procs w) /\ process w1 = process w) /\
  (is_stopped w2 = true /\
   procs w2 = procs w1 /\ process w2 = process w1 /\
   signals w2 = signals w1 /\ stdout w2 = stdout w1).
Proof.
  intros w1 w2.
  destruct (is_running_inv w Hrun) as (_ & _ & _ & h & c0 & Hh & _).
  destruct (child_exits_down w h 0 Hrun Hh) as (Hm0 & Ho0 & Hd0).
  destruct (quiet_run_clean h _ before _ Hquiet (conj Hd0 (or_introl Hm0)))
    as (Hd1 & Hm1).
  destruct (tick_clean_exit h _ _ Hd1 Hm1) as (Hd & Hm & Ho).
  fold w1 in Hd, Hm, Ho.
  assert (Hs1 : is_stopped w1 = true) by (unfold is_stopped; rewrite Hm, Ho; reflexivity).
  split.
  - split; [exact Hs1 |]. destruct Hd as (Hp & Hn & _). split; congruence.
  - destruct (run_inert after w1 (child_down_inert h 0 _ w1 Hd Hm Ho)) as [t Ht].
    subst w2. rewrite Ht. repeat split; try reflexivity. exact Hs1.
Qed.

Lemma clean_exit_stops_at_next_poll_witness :
  is_running (boot 0 []) = true /\
  quiet [Elapse 0.3] (step (ChildExit 0) (boot 0 [])) = true /\
  is_stopped (step Tick (run [Elapse 0.3] (step (ChildExit 0) (boot 0 []))))
    = true /\
  procs (run idle_then_late_save
           (step Tick (run [Elapse 0.3] (step (ChildExit 0) (boot 0 [])))))
    = procs (step Tick (run [Elapse 0.3] (step (ChildExit 0) (boot 0 [])))).
Proof.
  pose proof (clean_exit_stops_at_next_poll (boot 0 []) [Elapse 0.3]
                idle_then_late_save eq_refl eq_refl) as H.
  cbn zeta in H. destruct H as [(Hs & _) (_ & Hp & _)].
  split; [reflexivity |]. split; [reflexivity |].
  split; [exact Hs | exact Hp].
Defined.

(** C2, as stated, fails: the child ends with code 0, a save of [app.py]
    is handled before the next poll, and the restart puts a new child in
    place; the poll finds it alive, so the supervisor goes on running and
    the clean exit is never seen. *)
Lemma clean_exit_counterexample :
  let w := run [Elapse 5] (boot 0 []) in
  let w' := run [ChildExit 0; Elapse 0.5; FsEvent app_py_modified; Tick] w in
  is_running w = true /\
  is_stopped w' = false /\
  is_running w' = true /\
  process w' = Some 1%nat /\
  length (procs w') = 2%nat.
Proof. vm_compute. repeat split; reflexivity. Qed.

(** *** Start without watchdog *)

(** C7, as the code has it.  Without the watchdog library nothing is
    spawned and nothing is watched: run as a script, the module stops at
    its own import with an [ImportError] before [main] is called; [main]
    itself prints its two error lines and returns before [run_app].  No
    later action spawns a child. *)
Theorem no_watchdog_no_child (t0 : Q) (ups : list Sigterm) (tr : list Action) :
  let w0 := initial_world t0 false ups in
  let w := exec main_startup w0 in
  fst (module_startup w0) = UncaughtImportError /\
  procs (exec module_startup w0) = [] /\
  fst (main_startup w0) = ReturnedEarly /\
  stdout w = ["[Reloader] Starting development monitor...";
              "[Reloader] Error: 'watchdog' library not found.";
              "Please install it: pip install watchdog"] /\
  procs w = [] /\ process w = None /\
  observer w = ObsAbsent /\ main_thread w = MainReturned /\
  procs (run tr w) = [] /\ observer (run tr w) = ObsAbsent.
Proof.
  intros w0 w.
  repeat (split; [reflexivity |]).
  assert (Hi : inert w).
  { unfold inert. repeat split; discriminate. }
  destruct (run_inert tr w Hi) as [t ->]. split; reflexivity.
Qed.

(** C7, as stated, fails: started without watchdog, [main] returns with
    no child spawned and no process to supervise. *)
Lemma no_watchdog_counterexample :
  let w := exec main_startup (initial_world 0 false []) in
  fst (main_startup (initial_world 0 false [])) = ReturnedEarly /\
  procs w = [] /\ process w = None /\ is_running w = false.
Proof. vm_compute. repeat split; reflexivity. Qed.

(** *** The forced kill *)

Lemma update_child_lookup h c w :
  (h < length (procs w))%nat -> procs (update_child h c w) !! h = Some c.
Proof. intros Hlt. wsimpl. apply list_lookup_insert_eq; exact Hlt. Qed.

Lemma poll_alive w h c :
  procs w !! h = Some c -> returncode c = None -> os_state c = Alive ->
  poll h w = (None, w).
Proof. intros Hl Hr Hos. unfold poll. rewrite Hl, Hr, Hos. reflexivity. Qed.

Lemma terminate_alive w h c :
  procs w !! h = Some c -> returncode c = None -> os_state c = Alive ->
  terminate h w =
    (tt, update_child h (mkChild Alive None true (on_sigterm c)) w).
Proof.
  intros Hl Hr Hos. unfold terminate, bind.
  rewrite (poll_alive w h c Hl Hr Hos), Hl, Hr, Hos. reflexivity.
Qed.

Lemma kill_alive w h c :
  procs w !! h = Some c -> returncode c = None -> os_state c = Alive ->
  kill h w =
    (tt, update_child h (mkChild Killed None (sigterm_sent c) (on_sigterm c)) w).
Proof.
  intros Hl Hr Hos. unfold kill, bind.
  rewrite (poll_alive w h c Hl Hr Hos), Hl, Hr. reflexivity.
Qed.

Lemma wait_exits w h c d rc timeout :
  procs w !! h = Some c -> returncode c = None -> os_state c = Alive ->
  sigterm_sent c = true -> on_sigterm c = ExitsAfter d rc ->
  (d <= timeout)%Q ->
  wait h timeout w =
    (Returned rc,
     set_now (now w + d)%Q
       (update_child h (mkChild (Exited rc) (Some rc) true (on_sigterm c)) w)).
Proof.
  intros Hl Hr Hos Hs Hb Hd. unfold wait.
  rewrite Hl, Hr, Hos, Hs, Hb.
  apply Qle_bool_iff in Hd. rewrite Hd. reflexivity.
Qed.

Lemma wait_times_out w h c timeout :
  procs w !! h = Some c -> returncode c = None -> os_state c = Alive ->
  (on_sigterm c = Ignores \/
   exists d rc, on_sigterm c = ExitsAfter d rc /\ (timeout < d)%Q) ->
  wait h timeout w = (TimeoutExpired, set_now (now w + timeout)%Q w).
Proof.
  intros Hl Hr Hos Hb. unfold wait. rewrite Hl, Hr, Hos.
  destruct (sigterm_sent c); [| reflexivity].
  destruct Hb as [-> | (d & rc & -> & Hd)]; [reflexivity |].
  destruct (Qle_bool d timeout) eqn:E; [| reflexivity].
  apply Qle_bool_iff in E. lra.
Qed.

(** The graceful path: a child that honours the termination request
    within the grace period is collected by the wait, which returns when
    the child ends. *)
Lemma stop_child_terminate_path w h c d rc :
  procs w !! h = Some c -> os_state c = Alive -> returncode c = None ->
  on_sigterm c = ExitsAfter d rc -> (d <= 2)%Q ->
  let w' := exec (stop_child (Some h)) w in
  procs w' !! h = Some (mkChild (Exited rc) (Some rc) true (ExitsAfter d rc)) /\
  now w' = (now w + d)%Q.
Proof.
  intros Hl Hos Hr Hb Hd.
  assert (Hlt : (h < length (procs w))%nat) by (eapply lookup_lt_Some; eassumption).
  unfold exec, stop_child, bind.
  rewrite (terminate_alive w h c Hl Hr Hos).
  set (w1 := update_child h (mkChild Alive None true (on_sigterm c)) w).
  assert (Hl1 : procs w1 !! h = Some (mkChild Alive None true (on_sigterm c)))
    by (apply update_child_lookup; exact Hlt).
  rewrite (wait_exits w1 h _ d rc 2 Hl1 eq_refl eq_refl eq_refl Hb Hd).
  unfold ret. cbn [snd on_sigterm]. rewrite Hb.
  split; [| reflexivity].
  cbn [procs set_now]. apply update_child_lookup.
  subst w1. wsimpl. rewrite length_insert. exact Hlt.
Qed.

(** The forced path: when the grace period runs out the kill is sent and
    [stop_child] returns; the child is left uncollected. *)
Lemma stop_child_kill_path w h c :
  procs w !! h = Some c -> os_state c = Alive -> returncode c = None ->
  (on_sigterm c = Ignores \/
   exists d rc, on_sigterm c = ExitsAfter d rc /\ (2 < d)%Q) ->
  let w' := exec (stop_child (Some h)) w in
  procs w' !! h = Some (mkChild Killed None true (on_sigterm c)) /\
  now w' = (now w + 2)%Q /\
  length (procs w') = length (procs w).
Proof.
  intros Hl Hos Hr Hb.
  assert (Hlt : (h < length (procs w))%nat) by (eapply lookup_lt_Some; eassumption).
  unfold exec, stop_child, bind.
  rewrite (terminate_alive w h c Hl Hr Hos).
  set (w1 := update_child h (mkChild Alive None true (on_sigterm c)) w).
  assert (Hl1 : procs w1 !! h = Some (mkChild Alive None true (on_sigterm c)))
    by (apply update_child_lookup; exact Hlt).
  rewrite (wait_times_out w1 h _ 2 Hl1 eq_refl eq_refl Hb).
  set (w2 := set_now (now w1 + 2)%Q w1).
  assert (Hl2 : procs w2 !! h = Some (mkChild Alive None true (on_sigterm c)))
    by exact Hl1.
  rewrite (kill_alive w2 h _ Hl2 eq_refl eq_refl).
  cbn [snd sigterm_sent on_sigterm].
  split; [| split].
  - apply update_child_lookup. subst w2 w1. wsimpl.
    rewrite length_insert. exact Hlt.
  - reflexivity.
  - subst w2 w1. wsimpl. rewrite !length_insert. reflexivity.
Qed.

(** After a restart over the forced path two children are there at once:
    the killed one, which nobody has waited for, and the new one. *)
Lemma restart_process_kill_path w h c :
  process w = Some h ->
  procs w !! h = Some c -> os_state c = Alive -> returncode c = None ->
  (on_sigterm c = Ignores \/
   exists d rc, on_sigterm c = ExitsAfter d rc /\ (2 < d)%Q) ->
  let w' := exec restart_process w in
  procs w' !! h = Some (mkChild Killed None true (on_sigterm c)) /\
  process w' = Some (length (procs w)) /\
  procs w' !! length (procs w) =
    Some (mkChild Alive None false
            match upcoming w with [] => default_sigterm | b :: _ => b end).
Proof.
  intros Hp Hl Hos Hr Hb.
  assert (Hlt : (h < length (procs w))%nat) by (eapply lookup_lt_Some; eassumption).
  destruct (restart_process_spawns w) as (_ & P & N & _).
  cbn zeta. split; [| split; assumption].
  unfold exec, restart_process, bind. cbn [print get_process]. wsimpl.
  rewrite Hp.
  set (wp := set_stdout (stdout w ++ ["[Reloader] Restarting app..."]) w).
  destruct (stop_child_kill_path wp h c Hl Hos Hr Hb) as (Hk & _ & Hlen).
  unfold exec in Hk, Hlen.
  destruct (stop_child (Some h) wp) as [u w1]. cbn [snd] in *.
  unfold run_app, Popen, assign_process. wsimpl.
  rewrite lookup_app_l by (rewrite Hlen; exact Hlt). exact Hk.
Qed.

(** C4 at a child that ignores the termination request: the wait times
    out after 2 time units, the forced kill is sent, and the new child is
    spawned at once.  The old child was never collected ([returncode] is
    still [None]) while the new one is alive. *)
Lemma kill_path_not_awaited :
  let w := exec restart_process (boot 0 [Ignores]) in
  Qeq (now w) 2 /\
  procs w = [mkChild Killed None true Ignores;
             mkChild Alive None false default_sigterm] /\
  process w = Some 1%nat.
Proof. vm_compute. repeat split; reflexivity. Qed.

End ReloaderSpec.

(** ** Properties of the dependency installer *)

Module LauncherSpec.

Import Launcher.
Local Open Scope string_scope.


(** C5.  When [requirements.txt] does not exist, the thread hands no
    command to [Popen] and reports success: after the opening message it
    emits the note that the check is skipped and then [finished(True)],
    and it returns without an exception. *)
Theorem absent_manifest_succeeds (env : Env)
    (Habsent : manifest env = FileNotFoundError) :
  run env =
    mkResult
      [Progress "Checking dependencies...";
       Progress "requirements.txt not found. Skipping check.";
       Finished true]
      [] None.
Proof. unfold run. rewrite Habsent. reflexivity. Qed.

Lemma absent_manifest_succeeds_witness :
  manifest no_manifest = FileNotFoundError /\
  popen_calls (run no_manifest) = [] /\
  emitted (run no_manifest) =
    [Progress "Checking dependencies...";
     Progress "requirements.txt not found. Skipping check.";
     Finished true].
Proof.
  split; [reflexivity |].
  rewrite (absent_manifest_succeeds no_manifest eq_refl).
  split; reflexivity.
Defined.





End LauncherSpec.

(** ** Further properties of the reloader *)

Module ReloaderMore.

Import Reloader ReloaderSpec.
Local Open Scope string_scope.

(** *** How long a restart takes *)










(** *** Which paths are watched *)

(** X2.  The filter of [on_modified] lets through exactly the paths made of
    some prefix, possibly empty, followed by [.py] or by [.ini]. *)
Theorem watched_iff_suffix (path : string) :
  watched path = true <->
  (exists pre, path = pre ++ ".py") \/ (exists pre, path = pre ++ ".ini").
Proof.
  unfold watched. rewrite orb_true_iff.
  rewrite !PyStrSpec.endswith_spec. reflexivity.
Qed.

(** *** Children are spawned by change signals only *)

Lemma counts_kept_refl w : counts_kept w w.
Proof. unfold counts_kept; auto. Qed.


Lemma same_control_counts w w' : same_control w w' -> counts_kept w w'.
Proof.
  unfold same_control, counts_kept. intros (L & P & _ & _ & _ & _ & S & _).
  auto.
Qed.

Lemma loop_iteration_counts w : counts_kept w (snd (loop_iteration w)).
Proof.
  unfold loop_iteration, bind, get_process.
  destruct (process w) as [h |]; [| apply counts_kept_refl].
  pose proof (same_control_counts _ _ (keeps_poll h w)) as Hp.
  destruct (poll h w) as [rc w1]. cbn [snd] in Hp.
  destruct rc as [[| q | q] |]; exact Hp.
Qed.

Lemma on_keyboard_interrupt_counts w :
  counts_kept w (snd (on_keyboard_interrupt w)).
Proof.
  unfold on_keyboard_interrupt, bind, observer_stop, get_process. wsimpl.
  destruct (process w) as [h |];
    [| unfold counts_kept; repeat split; reflexivity].
  exact (same_control_counts _ _ (keeps_terminate h (set_observer ObsStopped w))).
Qed.

Lemma child_exits_counts rc w : counts_kept w (child_exits rc w).
Proof.
  unfold child_exits.
  destruct (process w) as [h |]; [| apply counts_kept_refl].
  destruct (procs w !! h) as [c |]; [| apply counts_kept_refl].
  destruct (os_state c); try apply counts_kept_refl.
  apply same_control_counts, same_control_update.
Qed.

Lemma step_spawn_count a w :
  length (procs w) = S (length (signals w)) ->
  length (procs (step a w)) = S (length (signals (step a w))).
Proof.
  intros Hinv. destruct a as [dt | e | | rc |].
  - exact Hinv.
  - destruct (fires w e) eqn:Hf; [| rewrite not_fires_step by exact Hf; exact Hinv].
    rewrite (fires_step w e Hf). cbn zeta. wsimpl.
    rewrite after_callback_spawns, length_app. cbn [length].
    unfold after_callback.
    destruct (restart_process_spawns
                (exec (print (newline ++ "[Reloader] detected change in "
                                ++ src_path e)) w))
      as (_ & _ & _ & _ & _ & _ & Sg).
    rewrite Sg. cbn [exec print snd]. wsimpl. lia.
  - cbn [step]. destruct (main_thread w); try exact Hinv.
    destruct (loop_iteration_counts w) as (L & Sg & _).
    destruct (loop_iteration w) as [leave w1]. cbn [snd] in *.
    destruct leave; wsimpl; congruence.
  - cbn [step]. destruct (child_exits_counts rc w) as (L & Sg & _). congruence.
  - cbn [step]. destruct (main_thread w); try exact Hinv.
    destruct (on_keyboard_interrupt_counts w) as (L & Sg & _).
    unfold exec. wsimpl. congruence.
Qed.

(** X3.  In every run of the reloader the number of processes created is one
    more than the number of change signals that got through the gate:
    after the first child, a process is spawned for a change signal and
    for nothing else (not for a crash, a poll, or the passing of time). *)
Theorem one_spawn_per_signal
    (t0 : Q) (ups : list Sigterm) (tr : list Action) :
  length (procs (run tr (boot t0 ups))) =
    S (length (signals (run tr (boot t0 ups)))).
Proof.
  assert (H : forall tr w, length (procs w) = S (length (signals w)) ->
                length (procs (run tr w)) = S (length (signals (run tr w)))).
  { clear tr. induction tr as [| a tr IH]; intros w Hw; [exact Hw |].
    rewrite run_app_cons. apply IH, step_spawn_count, Hw. }
  apply H. reflexivity.
Qed.

(** *** The operator's interrupt *)





(** *** Restarting a child that has already ended *)

Lemma stop_child_ended w h c rc :
  procs w !! h = Some c -> os_state c = Exited rc ->
  returncode c = None \/ returncode c = Some rc ->
  let w' := exec (stop_child (Some h)) w in
  now w' = now w /\
  length (procs w') = length (procs w) /\
  procs w' !! h =
    Some (mkChild (Exited rc) (Some rc) (sigterm_sent c) (on_sigterm c)).
Proof.
  intros Hl Hos Hr.
  assert (Hlt : (h < length (procs w))%nat) by (eapply lookup_lt_Some; eassumption).
  unfold exec, stop_child, bind, terminate, bind, poll.
  rewrite Hl. destruct Hr as [Hr | Hr]; rewrite Hr.
  - rewrite Hos. unfold ret, wait.
    rewrite update_child_lookup by exact Hlt. cbn [returncode snd].
    split; [reflexivity |]. split; [apply length_insert |].
    apply update_child_lookup; exact Hlt.
  - unfold ret, wait. rewrite Hl, Hr. cbn [snd].
    split; [reflexivity |]. split; [reflexivity |].
    rewrite Hl. f_equal. destruct c; cbn in *. congruence.
Qed.

(** X5.  A restart is safe when the child is already down: if the current
    child has ended by itself, with whatever code, [restart_process]
    sends it no signal, collects its status, takes no time and spawns the
    new child. *)
Theorem restart_of_ended_child
    (w : World) (h : nat) (c : Child) (rc : Z)
    (Hp : process w = Some h)
    (Hl : procs w !! h = Some c)
    (Hos : os_state c = Exited rc)
    (Hr : returncode c = None \/ returncode c = Some rc) :
  let w' := exec restart_process w in
  now w' = now w /\
  procs w' !! h =
    Some (mkChild (Exited rc) (Some rc) (sigterm_sent c) (on_sigterm c)) /\
  process w' = Some (length (procs w)) /\
  procs w' !! length (procs w) =
    Some (mkChild Alive None false
            match upcoming w with [] => default_sigterm | b :: _ => b end).
Proof.
  assert (Hlt : (h < length (procs w))%nat) by (eapply lookup_lt_Some; eassumption).
  destruct (restart_process_spawns w) as (_ & P & N & _).
  cbn zeta. split; [| split; [| split; assumption]];
    unfold exec, restart_process, bind; cbn [print get_process]; wsimpl;
    rewrite Hp;
    set (wp := set_stdout (stdout w ++ ["[Reloader] Restarting app..."]) w);
    destruct (stop_child_ended wp h c rc Hl Hos Hr) as (Hn & Hlen & Hk);
    unfold exec in Hn, Hlen, Hk;
    destruct (stop_child (Some h) wp) as [u w1]; cbn [snd] in *;
    unfold run_app, Popen, assign_process; wsimpl.
  - exact Hn.
  - rewrite lookup_app_l by (rewrite Hlen; exact Hlt). exact Hk.
Qed.

Lemma restart_of_ended_child_witness :
  let w := step (ChildExit 3) (boot 0 []) in
  process w = Some 0%nat /\
  procs w !! 0%nat = Some (mkChild (Exited 3) None false default_sigterm) /\
  now (exec restart_process w) = now w /\
  process (exec restart_process w) = Some 1%nat.
Proof.
  cbn zeta.
  pose proof (restart_of_ended_child (step (ChildExit 3) (boot 0 [])) 0
                (mkChild (Exited 3) None false default_sigterm) 3
                eq_refl eq_refl eq_refl (or_introl eq_refl)) as H.
  cbn zeta in H. destruct H as (Hn & _ & Hp & _).
  split; [reflexivity |]. split; [reflexivity |].
  split; [exact Hn | exact Hp].
Defined.

(** *** Children that honour the termination request *)

Lemma touches_only_ret h {A} (a : A) : touches_only h (ret a).
Proof. intros w. split; [apply same_control_refl | reflexivity]. Qed.

Lemma touches_only_bind h {A B} (m : M A) (k : A -> M B) :
  touches_only h m -> (forall a, touches_only h (k a)) ->
  touches_only h (bind m k).
Proof.
  intros Hm Hk w. unfold bind.
  destruct (Hm w) as [C1 F1]. destruct (m w) as [a w1]. cbn [snd] in *.
  destruct (Hk a w1) as [C2 F2].
  split; [eapply same_control_trans; eassumption |].
  intros i Hi. rewrite F2, F1 by exact Hi. reflexivity.
Qed.

Lemma touches_only_update h c w i :
  i <> h -> procs (update_child h c w) !! i = procs w !! i.
Proof. intros Hi. wsimpl. apply list_lookup_insert_ne. congruence. Qed.

Lemma touches_only_poll h : touches_only h (poll h).
Proof.
  intros w. split; [apply keeps_poll |]. intros i Hi. unfold poll.
  destruct (procs w !! h) as [c |]; [| reflexivity].
  destruct (returncode c); [reflexivity |].
  destruct (os_state c); cbn [snd]; try reflexivity.
  apply touches_only_update; exact Hi.
Qed.

Lemma touches_only_terminate h : touches_only h (terminate h).
Proof.
  intros w. split; [apply keeps_terminate |]. revert w.
  apply (touches_only_bind h (poll h) _ (touches_only_poll h)).
  intros [rc |]; [apply touches_only_ret |].
  intros w. split; [destruct (procs w !! h); cbn [snd];
                    [apply same_control_update | apply same_control_refl] |].
  intros i Hi. destruct (procs w !! h); cbn [snd]; [| reflexivity].
  apply touches_only_update; exact Hi.
Qed.

Lemma touches_only_kill h : touches_only h (kill h).
Proof.
  intros w. split; [apply keeps_kill |]. revert w.
  apply (touches_only_bind h (poll h) _ (touches_only_poll h)).
  intros [rc |]; [apply touches_only_ret |].
  intros w. split; [destruct (procs w !! h); cbn [snd];
                    [apply same_control_update | apply same_control_refl] |].
  intros i Hi. destruct (procs w !! h); cbn [snd]; [| reflexivity].
  apply touches_only_update; exact Hi.
Qed.

Lemma touches_only_wait h timeout : touches_only h (wait h timeout).
Proof.
  intros w. split; [apply keeps_wait |]. intros i Hi. unfold wait.
  destruct (procs w !! h) as [c |]; [| reflexivity].
  destruct (returncode c); [reflexivity |].
  destruct (os_state c); cbn [snd];
    try (apply touches_only_update; exact Hi).
  destruct (sigterm_sent c); [| reflexivity].
  destruct (on_sigterm c) as [d rc |]; [| reflexivity].
  destruct (Qle_bool d timeout); cbn [snd]; [| reflexivity].
  cbn [procs set_now]. apply touches_only_update; exact Hi.
Qed.

Lemma touches_only_stop_child h : touches_only h (stop_child (Some h)).
Proof.
  cbn [stop_child].
  apply touches_only_bind; [apply touches_only_terminate | intros _].
  apply touches_only_bind; [apply touches_only_wait |].
  intros [rc |]; [apply touches_only_ret | apply touches_only_kill].
Qed.

Lemma keeps_sane_poll h : keeps_sane h (poll h).
Proof.
  intros w c Hl Hs.
  assert (Hlt : (h < length (procs w))%nat) by (eapply lookup_lt_Some; eassumption).
  unfold poll. rewrite Hl.
  destruct (returncode c) eqn:Er; [exists c; split; assumption |].
  destruct (os_state c) eqn:Eo; cbn [snd];
    try solve [exists c; split; assumption].
  eexists. split; [apply update_child_lookup; exact Hlt |].
  destruct Hs as (S1 & S2 & S3).
  split; [exact S1 |]. split; [discriminate |].
  cbn [returncode os_state]. congruence.
Qed.

Lemma keeps_sane_terminate h : keeps_sane h (terminate h).
Proof.
  intros w c Hl Hs. unfold terminate, bind.
  destruct (keeps_sane_poll h w c Hl Hs) as (c1 & Hl1 & Hs1).
  destruct (poll h w) as [r w1]. cbn [snd] in *.
  destruct r as [rc |]; [exists c1; split; assumption |].
  assert (Hlt : (h < length (procs w1))%nat) by (eapply lookup_lt_Some; eassumption).
  rewrite Hl1. cbn [snd].
  eexists. split; [apply update_child_lookup; exact Hlt |].
  destruct Hs1 as (S1 & S2 & S3). split; [exact S1 |]. split; assumption.
Qed.

Lemma snoc_rebuild {A} (olds : list A) (cur c' : A) (l' : list A) :
  length l' = S (length olds) ->
  (forall i, i <> length olds -> l' !! i = (olds ++ [cur])%list !! i) ->
  l' !! length olds = Some c' ->
  l' = (olds ++ [c'])%list.
Proof.
  intros Hlen Hother Hcur. apply list_eq. intros i.
  destruct (decide (i = length olds)) as [-> | Hne].
  - rewrite Hcur. symmetry. apply list_lookup_middle. reflexivity.
  - rewrite Hother by exact Hne.
    destruct (decide (i < length olds)%nat) as [Hlt | Hge].
    + rewrite !lookup_app_l by exact Hlt. reflexivity.
    + rewrite !lookup_ge_None_2; [reflexivity | |];
        rewrite length_app; cbn [length]; lia.
Qed.

Lemma collected_sane c :
  collected c -> prompt (on_sigterm c) = true -> sane c.
Proof.
  intros (rc & Ho & Hr) Hp. split; [exact Hp |].
  split; [congruence |]. intros rc' Hr'. congruence.
Qed.

(** The frame of a tidy world that only changes the current child. *)
Lemma tidy_touch h olds cur w w' c' :
  procs w = (olds ++ [cur])%list -> h = length olds ->
  same_control w w' ->
  (forall i, i <> h -> procs w' !! i = procs w !! i) ->
  procs w' !! h = Some c' ->
  procs w' = (olds ++ [c'])%list /\ process w' = process w /\ upcoming w' = upcoming w.
Proof.
  intros Hp -> (L & P & _ & _ & U & _) Hother Hcur.
  split; [| split; assumption].
  apply (snoc_rebuild olds cur c').
  - rewrite L, Hp, length_app. cbn [length]. lia.
  - intros i Hi. rewrite Hother by exact Hi. rewrite Hp. reflexivity.
  - exact Hcur.
Qed.

(** Stopping a sane current child always ends with the child collected:
    the forced kill is not needed. *)
Lemma stop_child_sane w h c :
  procs w !! h = Some c -> sane c ->
  exists c',
    procs (exec (stop_child (Some h)) w) !! h = Some c' /\ collected c'.
Proof.
  intros Hl (Sp & Sk & Sr).
  destruct (os_state c) as [| | rc] eqn:Eo; [| contradiction |].
  - destruct (returncode c) as [rc |] eqn:Er;
      [specialize (Sr rc eq_refl); discriminate |].
    destruct (on_sigterm c) as [d rc |] eqn:Eb; [| discriminate].
    cbn [prompt] in Sp. apply Qle_bool_iff in Sp.
    destruct (stop_child_terminate_path w h c d rc Hl Eo Er Eb Sp) as [Hk _].
    eexists. split; [exact Hk |]. exists rc. split; reflexivity.
  - assert (Hr : returncode c = None \/ returncode c = Some rc).
    { destruct (returncode c) as [rc' |] eqn:Er; [| left; reflexivity].
      right. specialize (Sr rc' eq_refl). congruence. }
    destruct (stop_child_ended w h c rc Hl Eo Hr) as (_ & _ & Hk).
    eexists. split; [exact Hk |]. exists rc. split; reflexivity.
Qed.

Lemma restart_process_tidy w : tidy w -> tidy (exec restart_process w).
Proof.
  intros (olds & cur & Hp & Hproc & Hold & Hcur & Hup).
  unfold exec, restart_process, bind. cbn [print get_process]. wsimpl.
  rewrite Hproc.
  set (wp := set_stdout (stdout w ++ ["[Reloader] Restarting app..."]) w).
  assert (Hl : procs wp !! length olds = Some cur).
  { cbn [wp procs set_stdout]. rewrite Hp. apply list_lookup_middle. reflexivity. }
  destruct (stop_child_sane wp (length olds) cur Hl Hcur) as (c' & Hk & Hc').
  destruct (touches_only_stop_child (length olds) wp) as [Hsc Hother].
  unfold exec in Hk.
  destruct (stop_child (Some (length olds)) wp) as [u w1]. cbn [snd] in *.
  destruct (tidy_touch (length olds) olds cur wp w1 c' Hp eq_refl Hsc Hother Hk)
    as (Hp1 & _ & Hu1).
  unfold run_app, Popen, assign_process. wsimpl.
  exists (olds ++ [c'])%list,
    (mkChild Alive None false
       match upcoming w1 with [] => default_sigterm | b :: _ => b end).
  rewrite Hp1. split; [reflexivity |]. split; [reflexivity |].
  change (upcoming wp) with (upcoming w) in Hu1. rewrite Hu1.
  split; [| split; [| destruct (upcoming w); [constructor | inversion Hup; assumption]]].
  - apply Forall_app. split; [exact Hold |]. constructor; [exact Hc' | constructor].
  - split; [| split; [discriminate | discriminate]].
    cbn [on_sigterm]. destruct (upcoming w); [reflexivity |].
    inversion Hup; assumption.
Qed.

Lemma tidy_keep h olds cur w w' :
  procs w = (olds ++ [cur])%list -> process w = Some h -> h = length olds ->
  Forall collected olds -> sane cur ->
  Forall (fun b => prompt b = true) (upcoming w) ->
  same_control w w' ->
  (forall i, i <> h -> procs w' !! i = procs w !! i) ->
  (exists c', procs w' !! h = Some c' /\ sane c') ->
  tidy w'.
Proof.
  intros Hp Hproc Hh Hold Hcur Hup Hsc Hother (c' & Hk & Hs').
  destruct (tidy_touch h olds cur w w' c' Hp Hh Hsc Hother Hk)
    as (Hp' & Hproc' & Hu').
  exists olds, c'. rewrite Hp', Hproc', Hu', Hproc, Hh. auto.
Qed.

Lemma tidy_frame w w' :
  tidy w -> procs w' = procs w -> process w' = process w ->
  upcoming w' = upcoming w -> tidy w'.
Proof.
  intros (olds & cur & Hp & Hproc & Hrest) E1 E2 E3.
  exists olds, cur. rewrite E1, E2, E3. auto.
Qed.

Lemma step_tidy a w : tidy w -> tidy (step a w).
Proof.
  intros Ht. destruct a as [dt | e | | rc |].
  - eapply tidy_frame; [exact Ht | reflexivity ..].
  - destruct (fires w e) eqn:Hf; [| rewrite not_fires_step by exact Hf; exact Ht].
    rewrite (fires_step w e Hf). cbn zeta.
    eapply tidy_frame; [| reflexivity ..].
    unfold after_callback. apply restart_process_tidy.
    eapply tidy_frame; [exact Ht | reflexivity ..].
  - cbn [step]. destruct (main_thread w); try exact Ht.
    destruct Ht as (olds & cur & Hp & Hproc & Hold & Hcur & Hup).
    assert (Hl : procs w !! length olds = Some cur)
      by (rewrite Hp; apply list_lookup_middle; reflexivity).
    unfold loop_iteration, bind, get_process. rewrite Hproc.
    destruct (touches_only_poll (length olds) w) as [Hsc Hother].
    pose proof (keeps_sane_poll (length olds) w cur Hl Hcur) as Hs.
    destruct (poll (length olds) w) as [r w1]. cbn [snd] in *.
    assert (T1 : tidy w1)
      by exact (tidy_keep (length olds) olds cur w w1
                  Hp Hproc eq_refl Hold Hcur Hup Hsc Hother Hs).
    destruct r as [[| q | q] |]; cbn [print observer_stop ret];
      eapply tidy_frame; try exact T1; reflexivity.
  - cbn [step]. unfold child_exits.
    destruct Ht as (olds & cur & Hp & Hproc & Hold & Hcur & Hup).
    assert (Hl : procs w !! length olds = Some cur)
      by (rewrite Hp; apply list_lookup_middle; reflexivity).
    assert (Hlt : (length olds < length (procs w))%nat)
      by (eapply lookup_lt_Some; eassumption).
    rewrite Hproc, Hl.
    destruct (os_state cur) eqn:Eo;
      try solve [exists olds, cur; split; [assumption |];
                 split; [assumption |]; split; [assumption |];
                 split; assumption].
    apply (tidy_keep (length olds) olds cur w _
             Hp Hproc eq_refl Hold Hcur Hup).
    + apply same_control_update.
    + intros i Hi. apply touches_only_update; exact Hi.
    + eexists. split; [apply update_child_lookup; exact Hlt |].
      destruct Hcur as (S1 & S2 & S3).
      split; [exact S1 |]. split; [discriminate |].
      cbn [returncode os_state]. intros rc' Hr.
      specialize (S3 rc' Hr). congruence.
  - cbn [step]. destruct (main_thread w); try exact Ht.
    destruct Ht as (olds & cur & Hp & Hproc & Hold & Hcur & Hup).
    assert (Hl : procs w !! length olds = Some cur)
      by (rewrite Hp; apply list_lookup_middle; reflexivity).
    unfold exec, on_keyboard_interrupt, bind, observer_stop, get_process.
    wsimpl. rewrite Hproc.
    destruct (touches_only_terminate (length olds) (set_observer ObsStopped w))
      as [Hsc Hother].
    pose proof (keeps_sane_terminate (length olds)
                  (set_observer ObsStopped w) cur Hl Hcur) as Hs.
    destruct (terminate (length olds) (set_observer ObsStopped w)) as [u w1].
    cbn [snd] in *.
    eapply tidy_frame; [| reflexivity ..].
    exact (tidy_keep (length olds) olds cur (set_observer ObsStopped w) w1
             Hp Hproc eq_refl Hold Hcur Hup Hsc Hother Hs).
Qed.

Lemma run_tidy tr w : tidy w -> tidy (run tr w).
Proof.
  revert w. induction tr as [| a tr IH]; intros w Ht; [exact Ht |].
  rewrite run_app_cons. apply IH, step_tidy, Ht.
Qed.

Lemma boot_tidy t0 ups :
  forallb prompt ups = true -> tidy (boot t0 ups).
Proof.
  intros Hups. rewrite boot_eq.
  exists [], (mkChild Alive None false
                match ups with [] => default_sigterm | b :: _ => b end).
  wsimpl. split; [reflexivity |]. split; [reflexivity |].
  split; [constructor |].
  destruct ups as [| b r]; cbn [forallb tail] in *.
  - split; [| constructor].
    split; [reflexivity |]. split; discriminate.
  - apply andb_true_iff in Hups as [Hb Hr].
    split; [split; [exact Hb |]; split; discriminate |].
    apply Forall_forall. intros x Hx. apply list_elem_of_In in Hx.
    exact (proj1 (forallb_forall _ _) Hr x Hx).
Qed.

(** X6.  When every child honours the termination request within the grace
    period, the children never overlap: at every point of every run, each
    process but the current one has ended and has been collected, and the
    forced kill has never been sent. *)
Theorem cooperative_children_never_overlap
    (t0 : Q) (ups : list Sigterm) (tr : list Action)
    (Hups : forallb prompt ups = true) :
  let w := run tr (boot t0 ups) in
  forall (i : nat) (c : Child),
    procs w !! i = Some c ->
    os_state c <> Killed /\ (process w <> Some i -> collected c).
Proof.
  intros w i c Hl.
  destruct (run_tidy tr _ (boot_tidy t0 ups Hups))
    as (olds & cur & Hp & Hproc & Hold & Hcur & _).
  fold w in Hp, Hproc. rewrite Hp in Hl.
  apply lookup_snoc_Some in Hl. destruct Hl as [[Hlt Hl] | [-> <-]].
  - pose proof (proj1 (Forall_lookup _ _) Hold i c Hl) as Hc.
    split; [| intros _; exact Hc].
    destruct Hc as (rc & Ho & _). congruence.
  - split; [apply Hcur |]. intros Hne. congruence.
Qed.

Lemma cooperative_children_never_overlap_witness :
  forallb prompt [ExitsAfter 1.5 0; ExitsAfter 0.1 (-15)] = true /\
  forall (i : nat) (c : Child),
    procs (run save_crash_save (boot 0 [ExitsAfter 1.5 0; ExitsAfter 0.1 (-15)]))
      !! i = Some c ->
    os_state c <> Killed /\
    (process (run save_crash_save
                (boot 0 [ExitsAfter 1.5 0; ExitsAfter 0.1 (-15)])) <> Some i ->
     collected c).
Proof.
  split; [reflexivity |].
  exact (cooperative_children_never_overlap 0
           [ExitsAfter 1.5 0; ExitsAfter 0.1 (-15)] save_crash_save eq_refl).
Defined.

End ReloaderMore.

(** ** Further properties of the dependency installer *)

Module LauncherMore.

Import Launcher LauncherSpec.
Local Open Scope string_scope.

(** *** [str.strip] *)






(** *** The manifest *)



(** *** The stream of signals *)







(** *** The launcher window *)




End LauncherMore.

(** ** Properties of the overlay window *)

Module OverlaySpec.

Import Overlay.
Local Open Scope string_scope.
Local Open Scope list_scope.

(** *** The dictionary *)

Lemma get_set_eq {V} (k : Z) (v : V) d : PyDict.get k (PyDict.set k v d) = Some v.
Proof.
  induction d as [| [k' v'] d IH]; cbn [PyDict.get PyDict.set].
  - rewrite Z.eqb_refl. reflexivity.
  - destruct (k' =? k)%Z eqn:E; cbn [PyDict.get].
    + rewrite Z.eqb_refl. reflexivity.
    + rewrite E. exact IH.
Qed.

Lemma get_set_ne {V} (k k' : Z) (v : V) d :
  k <> k' -> PyDict.get k' (PyDict.set k v d) = PyDict.get k' d.
Proof.
  intros Hne. induction d as [| [k0 v0] d IH]; cbn [PyDict.get PyDict.set].
  - destruct (Z.eqb_spec k k'); [contradiction | reflexivity].
  - destruct (Z.eqb_spec k0 k) as [-> | Hk]; cbn [PyDict.get].
    + destruct (Z.eqb_spec k k'); [contradiction | reflexivity].
    + destruct (k0 =? k')%Z; [reflexivity | exact IH].
Qed.

(** *** The two loops and the insertion *)

Lemma find_widget_Some cid its wd :
  find_widget cid its = Some wd -> (cid, wd) ∈ its.
Proof.
  induction its as [| [c h] its IH]; cbn [find_widget]; [discriminate |].
  destruct (Z.eqb_spec c cid) as [-> | Hne].
  - intros [= ->]. apply list_elem_of_here.
  - intros H. apply list_elem_of_further, IH, H.
Qed.

Lemma find_widget_None cid its :
  find_widget cid its = None -> cid ∉ its.*1.
Proof.
  induction its as [| [c h] its IH]; cbn [find_widget fmap list_fmap].
  - intros _ H. inversion H.
  - destruct (Z.eqb_spec c cid) as [-> | Hne]; [discriminate |].
    intros H Hin. apply elem_of_cons in Hin. cbn in Hin.
    destruct Hin as [-> | Hin]; [contradiction | exact (IH H Hin)].
Qed.

Lemma insert_at_perm {A} i (x : A) l : insert_at i x l ≡ₚ x :: l.
Proof.
  unfold insert_at. rewrite <- Permutation_middle, take_drop. reflexivity.
Qed.

Lemma elem_of_insert_at {A} i (x y : A) l :
  y ∈ insert_at i x l <-> y = x \/ y ∈ l.
Proof. rewrite insert_at_perm. apply elem_of_cons. Qed.

Lemma fmap_insert_at {A B} (f : A -> B) i x l :
  f <$> insert_at i x l = insert_at i (f x) (f <$> l).
Proof.
  unfold insert_at. rewrite fmap_app, fmap_cons, fmap_take, fmap_drop.
  reflexivity.
Qed.

Lemma sorted_insert cid wd its :
  StronglySorted Z.lt its.*1 -> cid ∉ its.*1 ->
  StronglySorted Z.lt (insert_at (insertion_point cid its) (cid, wd) its).*1.
Proof.
  induction its as [| [c h] its IH]; intros Hs Hn.
  - cbn. repeat constructor.
  - cbn [insertion_point]. cbn [fmap list_fmap fst] in Hs, Hn.
    apply StronglySorted_inv in Hs as [Hs Hall].
    apply not_elem_of_cons in Hn as [Hne Hn].
    destruct (Z.ltb_spec cid c) as [Hlt | Hge].
    + cbn. constructor; [constructor; assumption |].
      constructor; [exact Hlt |].
      eapply Forall_impl; [exact Hall |]. cbn. intros a Ha. lia.
    + change (insert_at (S (insertion_point cid its)) (cid, wd) ((c, h) :: its))
        with ((c, h) :: insert_at (insertion_point cid its) (cid, wd) its).
      cbn [fmap list_fmap fst]. constructor; [apply IH; assumption |].
      apply Forall_forall. intros a Ha.
      rewrite fmap_insert_at in Ha. apply elem_of_insert_at in Ha.
      destruct Ha as [-> | Ha]; [cbn; lia |].
      exact (proj1 (Forall_forall _ _) Hall a Ha).
Qed.

Lemma sorted_fst_functional (its : list (Z * nat)) k a b :
  StronglySorted Z.lt its.*1 -> (k, a) ∈ its -> (k, b) ∈ its -> a = b.
Proof.
  induction its as [| [c h] its IH]; intros Hs Ha Hb; [inversion Ha |].
  cbn [fmap list_fmap fst] in Hs. apply StronglySorted_inv in Hs as [Hs Hall].
  assert (Hfresh : forall x, (c, x) ∈ its -> False).
  { intros x Hx.
    assert (Hc : c ∈ its.*1) by (apply list_elem_of_fmap; exists (c, x); auto).
    pose proof (proj1 (Forall_forall _ _) Hall c Hc). lia. }
  apply elem_of_cons in Ha, Hb.
  destruct Ha as [Ea | Ha], Hb as [Eb | Hb].
  - congruence.
  - injection Ea as -> ->. exfalso. eauto.
  - injection Eb as -> ->. exfalso. eauto.
  - exact (IH Hs Ha Hb).
Qed.

Lemma nodup_snd_functional (its : list (Z * nat)) h a b :
  NoDup its.*2 -> (a, h) ∈ its -> (b, h) ∈ its -> a = b.
Proof.
  induction its as [| [c g] its IH]; intros Hn Ha Hb; [inversion Ha |].
  cbn [fmap list_fmap snd] in Hn. apply NoDup_cons in Hn as [Hg Hn].
  assert (Hfresh : forall x, (x, g) ∈ its -> False).
  { intros x Hx. apply Hg. apply list_elem_of_fmap. exists (x, g). auto. }
  apply elem_of_cons in Ha, Hb.
  destruct Ha as [Ea | Ha], Hb as [Eb | Hb].
  - congruence.
  - injection Ea as -> ->. exfalso. eauto.
  - injection Eb as -> ->. exfalso. eauto.
  - exact (IH Hn Ha Hb).
Qed.

(** *** The translation a history of calls ends with *)

Lemma latest_snoc cid calls u :
  latest_translation cid (calls ++ [u]) =
    if (u_chunk u =? cid)%Z && negb (String.eqb (u_translated u) "")
    then u_translated u else latest_translation cid calls.
Proof. unfold latest_translation. rewrite fold_left_app. reflexivity. Qed.

Lemma latest_other cid calls u :
  u_chunk u <> cid ->
  latest_translation cid (calls ++ [u]) = latest_translation cid calls.
Proof.
  intros Hne. rewrite latest_snoc.
  destruct (Z.eqb_spec (u_chunk u) cid); [contradiction | reflexivity].
Qed.

(** *** One call of [update_text] *)

Ltac lsimpl :=
  cbn [items transcript_data widgets container_layout console scroll_timers
       save_btn_text files feedback_timers fst snd] in *.

(** The widgets after the two conditional updates of an existing one. *)
Lemma updated_widget_same now o t (wd : nat) (ws : list LogItem) w0 :
  ws !! wd = Some w0 ->
  exists w',
    (if String.eqb t "" then
       (if String.eqb o "" then ws else alter (update_original now o) wd ws)
     else
       alter (update_translated t) wd
         (if String.eqb o "" then ws else alter (update_original now o) wd ws))
      !! wd = Some w' /\
    chunk_id w' = chunk_id w0 /\
    translated_label w' = (if String.eqb t "" then translated_label w0 else t).
Proof.
  intros Hw.
  destruct (String.eqb t ""), (String.eqb o "");
    rewrite ?list_lookup_alter_eq, ?Hw; cbn [fmap option_fmap option_map];
    eexists; split; try reflexivity; split; reflexivity.
Qed.

Lemma updated_widget_other now o t (wd : nat) (ws : list LogItem) (h : nat) :
  h <> wd ->
  (if String.eqb t "" then
     (if String.eqb o "" then ws else alter (update_original now o) wd ws)
   else
     alter (update_translated t) wd
       (if String.eqb o "" then ws else alter (update_original now o) wd ws))
    !! h = ws !! h.
Proof.
  intros Hne.
  destruct (String.eqb t ""), (String.eqb o "");
    rewrite ?list_lookup_alter_ne by congruence; reflexivity.
Qed.

Lemma updated_entry_same cid t e0 td :
  PyDict.get cid td = Some e0 ->
  exists e',
    PyDict.get cid
      (if String.eqb t "" then td
       else PyDict.set cid (mkEntry (timestamp e0) (original e0) t) td)
      = Some e' /\
    timestamp e' = timestamp e0 /\ original e' = original e0 /\
    translated e' = (if String.eqb t "" then translated e0 else t).
Proof.
  intros Hg. destruct (String.eqb t "").
  - exists e0. auto.
  - rewrite get_set_eq. eexists. repeat split; reflexivity.
Qed.

Lemma updated_entry_other cid c t e0 td :
  c <> cid ->
  PyDict.get c
    (if String.eqb t "" then td
     else PyDict.set cid (mkEntry (timestamp e0) (original e0) t) td)
    = PyDict.get c td.
Proof.
  intros Hne. destruct (String.eqb t ""); [reflexivity |].
  apply get_set_ne. congruence.
Qed.

Lemma latest_here calls u :
  latest_translation (u_chunk u) (calls ++ [u]) =
    if String.eqb (u_translated u) "" then latest_translation (u_chunk u) calls
    else u_translated u.
Proof.
  rewrite latest_snoc, Z.eqb_refl. cbn [andb].
  destruct (String.eqb (u_translated u) ""); reflexivity.
Qed.

Lemma latest_absent cid calls :
  (forall v, v ∈ calls -> u_chunk v <> cid) ->
  latest_translation cid calls = "".
Proof.
  unfold latest_translation. generalize EmptyString at 2 3. intros acc.
  revert acc. induction calls as [| v calls IH]; intros acc Hno;
    [reflexivity |].
  cbn [fold_left].
  destruct (Z.eqb_spec (u_chunk v) cid) as [Hc | _].
  - exfalso. eapply Hno; [apply list_elem_of_here | exact Hc].
  - cbn [andb]. apply IH. intros w Hw.
    apply Hno. apply list_elem_of_further. exact Hw.
Qed.

Lemma apply_update_inv calls self u :
  log_inv calls self -> log_inv (calls ++ [u]) (apply_update self u).
Proof.
  intros (Hs & Hnd & Hlay & Hit & Hdom & Hhist).
  assert (Hhist' : forall c, c ∈ (items self).*1 \/ c = u_chunk u <->
                     exists v, v ∈ calls ++ [u] /\ u_chunk v = c).
  { intros c. split.
    - intros [Hc | ->].
      + apply Hhist in Hc as (v & Hv & <-). exists v. split; [| reflexivity].
        apply elem_of_app. left. exact Hv.
      + exists u. split; [| reflexivity].
        apply elem_of_app. right. apply list_elem_of_here.
    - intros (v & Hv & <-). apply elem_of_app in Hv as [Hv | Hv].
      + left. apply Hhist. eauto.
      + apply list_elem_of_singleton in Hv. subst. right. reflexivity. }
  unfold apply_update, update_text. cbv zeta.
  destruct (find_widget (u_chunk u) (items self)) as [wd |] eqn:Ef.
  - (* the chunk has a widget *)
    pose proof (find_widget_Some _ _ _ Ef) as Hin.
    destruct (proj1 (Forall_forall _ _) Hit _ Hin)
      as (w0 & e0 & Hw0 & Hc0 & Hg0 & Ht0 & Hl0).
    lsimpl. rewrite Hg0.
    assert (Hcid : u_chunk u ∈ (items self).*1).
    { apply list_elem_of_fmap. exists (u_chunk u, wd). auto. }
    split; [exact Hs |]. split; [exact Hnd |]. split; [exact Hlay |].
    lsimpl. split; [| split].
    + apply Forall_forall. intros [c h] Hch.
      destruct (proj1 (Forall_forall _ _) Hit _ Hch)
        as (w1 & e1 & Hw1 & Hc1 & Hg1 & Ht1 & Hl1).
      unfold item_ok. lsimpl.
      destruct (decide (c = u_chunk u)) as [-> | Hne].
      * assert (h = wd) by (eapply sorted_fst_functional; eassumption).
        subst h. rewrite Hw0 in Hw1. injection Hw1 as <-.
        rewrite Hg0 in Hg1. injection Hg1 as <-.
        destruct (updated_widget_same (u_now_label u) (u_original u)
                    (u_translated u) wd (widgets self) w0 Hw0)
          as (w' & Hw' & Hc' & Hl').
        destruct (updated_entry_same (u_chunk u) (u_translated u) e0
                    (transcript_data self) Hg0)
          as (e' & He' & _ & _ & Ht').
        exists w', e'. split; [exact Hw' |]. split; [congruence |].
        split; [exact He' |]. rewrite latest_here, Ht', Hl'.
        unfold shown in *.
        destruct (String.eqb (u_translated u) "") eqn:Et;
          [split; [exact Ht0 | exact Hl0] |].
        rewrite Et. split; reflexivity.
      * assert (Hh : h <> wd).
        { intros ->. apply Hne.
          eapply nodup_snd_functional; eassumption. }
        exists w1, e1.
        rewrite updated_widget_other by exact Hh.
        rewrite updated_entry_other by exact Hne.
        rewrite latest_other by congruence. auto.
    + intros c e Hg.
      destruct (decide (c = u_chunk u)) as [-> | Hne]; [exact Hcid |].
      rewrite updated_entry_other in Hg by exact Hne. eapply Hdom, Hg.
    + intros c. rewrite <- Hhist'. split; [tauto |].
      intros [Hc | ->]; assumption.
  - (* the chunk is new *)
    pose proof (find_widget_None _ _ Ef) as Hnew.
    assert (Hg : PyDict.get (u_chunk u) (transcript_data self) = None).
    { destruct (PyDict.get (u_chunk u) (transcript_data self)) as [e |] eqn:E;
        [| reflexivity].
      exfalso. apply Hnew. eapply Hdom, E. }
    rewrite Hg, get_set_eq. cbn [timestamp].
    assert (Hlt : forall c h, (c, h) ∈ items self ->
                    (h < length (widgets self))%nat).
    { intros c h Hch.
      destruct (proj1 (Forall_forall _ _) Hit _ Hch) as (w1 & _ & Hw1 & _).
      eapply lookup_lt_Some, Hw1. }
    split; [| split; [| split; [| split; [| split]]]]; lsimpl.
    + apply sorted_insert; assumption.
    + rewrite fmap_insert_at, insert_at_perm. cbn [snd].
      apply NoDup_cons. split; [| exact Hnd].
      intros Hin. apply list_elem_of_fmap in Hin as ([c h] & Eh & Hch).
      cbn in Eh. subst h. specialize (Hlt _ _ Hch). lia.
    + rewrite fmap_insert_at, Hlay. reflexivity.
    + apply Forall_forall. intros [c h] Hch.
      apply elem_of_insert_at in Hch. unfold item_ok. lsimpl.
      destruct Hch as [[= -> ->] | Hch].
      * eexists _, _. split; [apply list_lookup_middle; reflexivity |].
        split; [reflexivity |]. split; [apply get_set_eq |].
        cbn [translated translated_label LogItem_init].
        rewrite latest_here. unfold shown.
        assert (Hnone : latest_translation (u_chunk u) calls = "").
        { apply latest_absent. intros v Hv Hc. apply Hnew, Hhist. eauto. }
        destruct (String.eqb (u_translated u) "") eqn:Et.
        -- apply String.eqb_eq in Et. rewrite Et, Hnone. split; reflexivity.
        -- split; reflexivity.
      * destruct (proj1 (Forall_forall _ _) Hit _ Hch)
          as (w1 & e1 & Hw1 & Hc1 & Hg1 & Ht1 & Hl1).
        lsimpl.
        assert (Hne : c <> u_chunk u).
        { intros ->. apply Hnew. apply list_elem_of_fmap.
          exists (u_chunk u, h). auto. }
        exists w1, e1. split; [apply lookup_app_l_Some; exact Hw1 |].
        split; [exact Hc1 |].
        rewrite get_set_ne by congruence.
        rewrite latest_other by congruence. auto.
    + intros c e Hge. rewrite fmap_insert_at. apply elem_of_insert_at. cbn [fst].
      destruct (decide (c = u_chunk u)) as [-> | Hne]; [left; reflexivity |].
      rewrite get_set_ne in Hge by congruence. right. eapply Hdom, Hge.
    + intros c. rewrite fmap_insert_at, elem_of_insert_at. cbn [fst].
      rewrite <- Hhist'. tauto.
Qed.

Lemma initial_log_inv : log_inv [] initial_log.
Proof.
  split; [constructor |]. split; [constructor |]. split; [reflexivity |].
  split; [constructor |]. split; [discriminate |].
  intros c. cbn. split; [intros H; inversion H |].
  intros (u & Hu & _). inversion Hu.
Qed.

Lemma run_updates_snoc calls u self :
  run_updates (calls ++ [u]) self = apply_update (run_updates calls self) u.
Proof. unfold run_updates. rewrite fold_left_app. reflexivity. Qed.

Lemma run_updates_inv calls : log_inv calls (run_updates calls initial_log).
Proof.
  induction calls as [| u calls IH] using rev_ind; [apply initial_log_inv |].
  rewrite run_updates_snoc. apply apply_update_inv, IH.
Qed.

(** X11.  Whatever the order in which the updates arrive, the widgets are kept
    in strictly increasing order of chunk id, one widget per chunk for
    which an update was received, and the layout shows them in that
    order. *)
Theorem overlay_items_sorted (calls : list Update) :
  let self := run_updates calls initial_log in
  StronglySorted Z.lt (items self).*1 /\
  container_layout self = (items self).*2 /\
  NoDup (items self).*2 /\
  (forall cid, cid ∈ (items self).*1 <->
               exists u, u ∈ calls /\ u_chunk u = cid).
Proof.
  destruct (run_updates_inv calls) as (Hs & Hnd & Hlay & _ & _ & Hhist).
  cbn zeta. auto.
Qed.

(** X12.  The widget of a chunk shows the last translation received for it
    that is not empty, and three dots as long as there is none; the
    dictionary that is saved holds the same translation. *)
Theorem overlay_shows_latest_translation
    (calls : list Update) (cid : Z) (wd : nat)
    (Hin : (cid, wd) ∈ items (run_updates calls initial_log)) :
  let self := run_updates calls initial_log in
  exists w e,
    widgets self !! wd = Some w /\
    chunk_id w = cid /\
    translated_label w = shown (latest_translation cid calls) /\
    PyDict.get cid (transcript_data self) = Some e /\
    translated e = latest_translation cid calls.
Proof.
  destruct (run_updates_inv calls) as (_ & _ & _ & Hit & _).
  destruct (proj1 (Forall_forall _ _) Hit _ Hin)
    as (w & e & Hw & Hc & Hg & Ht & Hl).
  cbn [fst snd] in *. cbn zeta. exists w, e.
  rewrite Hl, Ht. auto.
Qed.

Lemma overlay_shows_latest_translation_witness :
  (1%Z, 1%nat) ∈ items (run_updates hello_calls initial_log) /\
  latest_translation 1 hello_calls = "Bonjour" /\
  exists w,
    widgets (run_updates hello_calls initial_log) !! 1%nat = Some w /\
    translated_label w = "Bonjour".
Proof.
  assert (Hin : (1%Z, 1%nat) ∈ items (run_updates hello_calls initial_log)).
  { vm_compute. apply list_elem_of_here. }
  split; [exact Hin |]. split; [reflexivity |].
  destruct (overlay_shows_latest_translation hello_calls 1 1 Hin)
    as (w & e & Hw & _ & Hl & _).
  exists w. split; [exact Hw | exact Hl].
Defined.

(** *** What the dictionary keeps *)

Lemma apply_update_keeps_entry self u cid e :
  PyDict.get cid (transcript_data self) = Some e ->
  exists e',
    PyDict.get cid (transcript_data (apply_update self u)) = Some e' /\
    timestamp e' = timestamp e /\ original e' = original e.
Proof.
  intros Hg.
  assert (Hd : exists e',
     PyDict.get cid
       match PyDict.get (u_chunk u) (transcript_data self) with
       | Some e0 =>
           if String.eqb (u_translated u) "" then transcript_data self
           else PyDict.set (u_chunk u)
                  (mkEntry (timestamp e0) (original e0) (u_translated u))
                  (transcript_data self)
       | None =>
           PyDict.set (u_chunk u)
             (mkEntry (u_now_store u) (u_original u) (u_translated u))
             (transcript_data self)
       end = Some e' /\
     timestamp e' = timestamp e /\ original e' = original e).
  { destruct (decide (cid = u_chunk u)) as [-> | Hne].
    - rewrite Hg.
      destruct (updated_entry_same (u_chunk u) (u_translated u) e
                  (transcript_data self) Hg) as (e' & He' & H1 & H2 & _).
      exists e'. auto.
    - exists e. split; [| auto].
      destruct (PyDict.get (u_chunk u) (transcript_data self)) as [e0 |].
      + rewrite updated_entry_other by exact Hne. exact Hg.
      + rewrite get_set_ne by congruence. exact Hg. }
  unfold apply_update, update_text. cbv zeta.
  destruct (find_widget (u_chunk u) (items self)); lsimpl; exact Hd.
Qed.

(** X13.  The dictionary never drops a chunk and never changes the time stamp
    or the original text it stored first, whatever updates follow (the
    widget, meanwhile, shows the original text of the latest update). *)
Theorem store_keeps_first_original
    (calls : list Update) (self : Log) (cid : Z) (e : Entry)
    (Hg : PyDict.get cid (transcript_data self) = Some e) :
  exists e',
    PyDict.get cid (transcript_data (run_updates calls self)) = Some e' /\
    timestamp e' = timestamp e /\ original e' = original e.
Proof.
  revert self e Hg. induction calls as [| u calls IH]; intros self e Hg.
  - exists e. auto.
  - destruct (apply_update_keeps_entry self u cid e Hg) as (e1 & Hg1 & T1 & O1).
    destruct (IH _ _ Hg1) as (e' & Hg' & T' & O').
    exists e'. split; [exact Hg' |]. split; congruence.
Qed.

Lemma store_keeps_first_original_witness :
  let first :=
    run_updates [mkUpdate "10:00:02" "10:00:02" 1 "Hello world" ""] initial_log in
  PyDict.get 1 (transcript_data first) =
    Some (mkEntry "10:00:02" "Hello world" "") /\
  exists e',
    PyDict.get 1
      (transcript_data
         (run_updates
            [mkUpdate "10:00:03" "10:00:04" 1 "Hello, world" "Bonjour"] first))
      = Some e' /\
    original e' = "Hello world".
Proof.
  cbn zeta. split; [reflexivity |].
  destruct (store_keeps_first_original
              [mkUpdate "10:00:03" "10:00:04" 1 "Hello, world" "Bonjour"]
              (run_updates
                 [mkUpdate "10:00:02" "10:00:02" 1 "Hello world" ""] initial_log)
              1 (mkEntry "10:00:02" "Hello world" "") eq_refl)
    as (e' & Hg & _ & Ho).
  exists e'. split; [exact Hg | exact Ho].
Defined.

(** *** Saving the transcript *)

Lemma keys_set_elem {V} (k : Z) (v : V) d x :
  x ∈ PyDict.keys (PyDict.set k v d) <-> x = k \/ x ∈ PyDict.keys d.
Proof.
  unfold PyDict.keys.
  induction d as [| [k' v'] d IH]; cbn [PyDict.set map fst].
  - rewrite list_elem_of_singleton. split; [auto |].
    intros [H | H]; [exact H | inversion H].
  - destruct (Z.eqb_spec k' k) as [-> | Hne]; cbn [map fst];
      rewrite !elem_of_cons; [tauto |].
    rewrite IH. tauto.
Qed.

Lemma keys_set_nodup {V} (k : Z) (v : V) d :
  NoDup (PyDict.keys d) -> NoDup (PyDict.keys (PyDict.set k v d)).
Proof.
  unfold PyDict.keys.
  induction d as [| [k' v'] d IH]; cbn [PyDict.set map fst]; intros Hn.
  - apply NoDup_singleton.
  - apply NoDup_cons in Hn as [Hk Hn].
    destruct (Z.eqb_spec k' k) as [-> | Hne]; cbn [map fst].
    + apply NoDup_cons. auto.
    + apply NoDup_cons. split; [| apply IH, Hn].
      intros Hin. apply (keys_set_elem k v d k') in Hin.
      destruct Hin as [-> | Hin]; [congruence | exact (Hk Hin)].
Qed.

Lemma get_Some_keys {V} (k : Z) (d : list (Z * V)) :
  (exists e, PyDict.get k d = Some e) <-> k ∈ PyDict.keys d.
Proof.
  unfold PyDict.keys.
  induction d as [| [k' v'] d IH]; cbn [PyDict.get map fst].
  - split; [intros [e H]; discriminate | intros H; inversion H].
  - rewrite elem_of_cons.
    destruct (Z.eqb_spec k' k) as [-> | Hne].
    + split; [auto | eauto].
    + rewrite IH. split; [auto |]. intros [-> | H]; [congruence | exact H].
Qed.

Lemma apply_update_keys_nodup self u :
  NoDup (PyDict.keys (transcript_data self)) ->
  NoDup (PyDict.keys (transcript_data (apply_update self u))).
Proof.
  intros Hn.
  assert (Hd : NoDup (PyDict.keys
     match PyDict.get (u_chunk u) (transcript_data self) with
     | Some e0 =>
         if String.eqb (u_translated u) "" then transcript_data self
         else PyDict.set (u_chunk u)
                (mkEntry (timestamp e0) (original e0) (u_translated u))
                (transcript_data self)
     | None =>
         PyDict.set (u_chunk u)
           (mkEntry (u_now_store u) (u_original u) (u_translated u))
           (transcript_data self)
     end)).
  { destruct (PyDict.get (u_chunk u) (transcript_data self)) as [e0 |].
    - destruct (String.eqb (u_translated u) "");
        [exact Hn | apply keys_set_nodup, Hn].
    - apply keys_set_nodup, Hn. }
  unfold apply_update, update_text. cbv zeta.
  destruct (find_widget (u_chunk u) (items self)); lsimpl; exact Hd.
Qed.

Lemma run_updates_keys_nodup calls :
  NoDup (PyDict.keys (transcript_data (run_updates calls initial_log))).
Proof.
  induction calls as [| u calls IH] using rev_ind; [constructor |].
  rewrite run_updates_snoc. apply apply_update_keys_nodup, IH.
Qed.

Lemma sorted_lt_le (l : list Z) : StronglySorted Z.lt l -> StronglySorted Z.le l.
Proof.
  induction 1 as [| a l Hs IH Hall]; constructor; [exact IH |].
  eapply Forall_impl; [exact Hall |]. cbn. intros b Hb. lia.
Qed.

(** The order of the saved transcript is the order of the display. *)
Lemma sorted_ids_items calls :
  sorted_ids (transcript_data (run_updates calls initial_log)) =
    (items (run_updates calls initial_log)).*1.
Proof.
  destruct (run_updates_inv calls) as (Hs & _ & _ & Hit & Hdom & _).
  unfold sorted_ids.
  apply (StronglySorted_unique Z.le).
  - apply StronglySorted_merge_sort; apply _.
  - apply sorted_lt_le, Hs.
  - rewrite merge_sort_Permutation.
    apply NoDup_Permutation.
    + apply run_updates_keys_nodup.
    + clear -Hs. induction Hs as [| a l Hs IH Hall]; constructor; [| exact IH].
      intros Hin. pose proof (proj1 (Forall_forall _ _) Hall a Hin). lia.
    + intros x. rewrite <- get_Some_keys. split.
      * intros [e He]. eapply Hdom, He.
      * intros Hx. apply list_elem_of_fmap in Hx as ([c h] & -> & Hch).
        destruct (proj1 (Forall_forall _ _) Hit _ Hch) as (_ & e & _ & _ & He & _).
        eauto.
Qed.

Lemma save_transcript_ok env self :
  transcript_data self <> [] ->
  makedirs_error env = None -> open_error env = None ->
  save_transcript env self =
    (mkLog (items self) (transcript_data self) (widgets self)
       (container_layout self)
       (console self ++
        [("[Overlay] Saved to " ++
          ("transcripts/transcript_" ++ stamp_file env ++ ".txt"))%string])
       (scroll_timers self) "Saved!"
       (files self ++
        [(("transcripts/transcript_" ++ stamp_file env ++ ".txt")%string,
          transcript_lines env (transcript_data self))])
       (feedback_timers self ++ [save_btn_text self]),
     None).
Proof.
  intros Hne Hdir Hopen. unfold save_transcript.
  destruct (transcript_data self) as [| kv d]; [contradiction |].
  rewrite Hdir, Hopen. reflexivity.
Qed.

(** X14.  A save after at least one update, when the directory and the file
    can be created, writes one file.  After the two header lines it
    holds one record for each chunk received, in the order in which the
    window shows the chunks (increasing chunk id), each with the time
    stamp, original text and translation of the dictionary; the button
    then reads [Saved!]. *)
Theorem saved_transcript_in_display_order
    (env : SaveEnv) (calls : list Update)
    (Hcalls : calls <> [])
    (Hdir : makedirs_error env = None)
    (Hopen : open_error env = None) :
  let self := run_updates calls initial_log in
  let self' := (save_transcript env self).1 in
  (save_transcript env self).2 = None /\
  save_btn_text self' = "Saved!" /\
  exists records,
    files self' =
      [(("transcripts/transcript_" ++ stamp_file env ++ ".txt")%string,
        ("Transcript saved at " ++ stamp_header env ++ nl)%string ::
        (repeat_string "=" 50 ++ nl ++ nl)%string :: records)] /\
    Forall2
      (fun it text =>
         exists e, PyDict.get it.1 (transcript_data self) = Some e /\
                   text = record_text it.1 e)
      (items self) records.
Proof.
  intros self self'.
  destruct (run_updates_inv calls) as (_ & _ & _ & Hit & _ & Hhist).
  fold self in Hit, Hhist.
  assert (Hfiles : files self = []).
  { subst self. clear. induction calls as [| u calls IH] using rev_ind;
      [reflexivity |].
    rewrite run_updates_snoc. unfold apply_update, update_text. cbv zeta.
    destruct (find_widget _ _); lsimpl; exact IH. }
  assert (Hne : transcript_data self <> []).
  { destruct calls as [| u calls]; [contradiction |].
    assert (Hu : u_chunk u ∈ (items self).*1).
    { apply Hhist. exists u. split; [apply list_elem_of_here | reflexivity]. }
    apply list_elem_of_fmap in Hu as ([c h] & Ec & Hch).
    destruct (proj1 (Forall_forall _ _) Hit _ Hch) as (_ & e & _ & _ & He & _).
    intros E. rewrite E in He. discriminate. }
  subst self'. rewrite (save_transcript_ok env self Hne Hdir Hopen).
  lsimpl. rewrite Hfiles.
  split; [reflexivity |]. split; [reflexivity |].
  exists (map (fun cid =>
                 match PyDict.get cid (transcript_data self) with
                 | Some data => record_text cid data
                 | None => ""
                 end)
            (sorted_ids (transcript_data self))).
  split; [reflexivity |].
  subst self. rewrite sorted_ids_items.
  clear -Hit. induction Hit as [| [c h] its (w & e & _ & _ & He & _) _ IH];
    cbn [fmap list_fmap map fst]; constructor; [| exact IH].
  cbn [fst] in *. rewrite He. exists e. auto.
Qed.

Lemma saved_transcript_in_display_order_witness :
  hello_calls <> [] /\
  makedirs_error save_ok = None /\ open_error save_ok = None /\
  save_btn_text (save_transcript save_ok (run_updates hello_calls initial_log)).1
    = "Saved!".
Proof.
  assert (Hne : hello_calls <> []) by discriminate.
  split; [exact Hne |]. split; [reflexivity |]. split; [reflexivity |].
  exact (proj1 (proj2 (saved_transcript_in_display_order save_ok hello_calls
                         Hne eq_refl eq_refl))).
Defined.

(** *** Moving the window *)




End OverlaySpec.

(** ** Properties of the audio device manager *)

Module AudioSpec.

Import AudioDeviceManager.
Local Open Scope string_scope.
Local Open Scope list_scope.

(** *** The list of output devices *)

Lemma output_from_spec i ds l :
  l ∈ output_from i ds <->
  exists d,
    (i <= l_id l)%nat /\ ds !! (l_id l - i)%nat = Some d /\
    l_name l = name d /\ (0 < max_output_channels d)%Z.
Proof.
  revert i. induction ds as [| d0 ds IH]; intros i; cbn [output_from].
  - split; [intros H; inversion H |]. intros (d & _ & H & _). discriminate.
  - assert (Hrest :
      (exists d, (S i <= l_id l)%nat /\ ds !! (l_id l - S i)%nat = Some d /\
                 l_name l = name d /\ (0 < max_output_channels d)%Z) <->
      (exists d, (i <= l_id l)%nat /\ l_id l <> i /\
                 (d0 :: ds) !! (l_id l - i)%nat = Some d /\
                 l_name l = name d /\ (0 < max_output_channels d)%Z)).
    { split; intros (d & H1 & H2).
      - destruct H2 as (H2 & H3). exists d.
        split; [lia |]. split; [lia |].
        replace (l_id l - i)%nat with (S (l_id l - S i)) by lia.
        split; [exact H2 | exact H3].
      - destruct H2 as (Hne & H2 & H3). exists d. split; [lia |].
        replace (l_id l - i)%nat with (S (l_id l - S i)) in H2 by lia.
        split; [exact H2 | exact H3]. }
    destruct (Z.ltb_spec 0 (max_output_channels d0)) as [Hpos | Hnon].
    + rewrite elem_of_cons, IH, Hrest. split.
      * intros [-> | (d & H1 & _ & H2)].
        -- exists d0. cbn [l_id l_name]. rewrite Nat.sub_diag. auto.
        -- exists d. auto.
      * intros (d & Hle & Hl & Hn & Hp).
        destruct (decide (l_id l = i)) as [E | Hne].
        -- left. rewrite E, Nat.sub_diag in Hl. injection Hl as <-.
           destruct l; cbn in *. congruence.
        -- right. exists d. auto.
    + rewrite IH, Hrest. split.
      * intros (d & H1 & _ & H2). exists d. auto.
      * intros (d & Hle & Hl & Hn & Hp).
        destruct (decide (l_id l = i)) as [E | Hne].
        -- rewrite E, Nat.sub_diag in Hl. injection Hl as <-. lia.
        -- exists d. auto.
Qed.

Lemma output_from_sorted i ds :
  StronglySorted lt (map l_id (output_from i ds)) /\
  Forall (fun l => (i <= l_id l)%nat) (output_from i ds).
Proof.
  revert i. induction ds as [| d ds IH]; intros i; cbn [output_from].
  - split; constructor.
  - destruct (IH (S i)) as [Hs Hall].
    assert (Hall' : Forall (fun l => (i <= l_id l)%nat) (output_from (S i) ds)).
    { eapply Forall_impl; [exact Hall |]. cbn. intros l Hl. lia. }
    destruct (0 <? max_output_channels d)%Z; [| auto].
    cbn [map l_id]. split.
    + constructor; [exact Hs |]. apply Forall_forall. intros x Hx.
      apply list_elem_of_In, in_map_iff in Hx. destruct Hx as (l & <- & Hl).
      apply list_elem_of_In in Hl.
      pose proof (proj1 (Forall_forall _ _) Hall l Hl) as Hge.
      cbv beta in Hge. cbn [l_id]. lia.
    + constructor; [cbn; lia | exact Hall'].
Qed.

(** X16.  [get_output_devices] lists exactly the devices that have output
    channels, each with its name and, as id, its position in the list of
    all devices; the ids are strictly increasing.  When the devices
    cannot be queried the list is empty. *)
Theorem output_devices_listed (ds : list Device) (msg : string) :
  (forall l, l ∈ (get_output_devices (Devices ds)).1 <->
     exists d, ds !! l_id l = Some d /\ l_name l = name d /\
               (0 < max_output_channels d)%Z) /\
  StronglySorted lt (map l_id (get_output_devices (Devices ds)).1) /\
  (get_output_devices (QueryFails msg)).1 = [].
Proof.
  cbn [get_output_devices fst]. split; [| split; [| reflexivity]].
  - intros l. rewrite output_from_spec. rewrite Nat.sub_0_r.
    split; intros (d & H); exists d; [tauto |].
    split; [lia | exact H].
  - apply output_from_sorted.
Qed.

(** *** Choosing the default output device *)

Lemma py_index_nat (ds : list Device) (n : nat) :
  py_index ds (Z.of_nat n) = ds !! n.
Proof.
  unfold py_index. destruct (Z.leb_spec 0 (Z.of_nat n)); [| lia].
  rewrite Nat2Z.id. reflexivity.
Qed.

(** X17.  The ids of [get_output_devices] are good arguments of
    [set_default_output_device]: when SwitchAudioSource is installed,
    the call with the id of a listed device runs [SwitchAudioSource -s]
    with the name of that device, and reports success exactly when that
    command ends with code 0. *)
Theorem listed_id_selects_device
    (env : SwitchEnv) (ds : list Device) (l : Listed) (out : string)
    (Hwhich : which_run env = Exits 0 out)
    (Hq : query env = Devices ds)
    (Hl : l ∈ (get_output_devices (query env)).1)
    (Hname : l_name l <> "") :
  let r := set_default_output_device env (ById (Z.of_nat (l_id l))) in
  commands r =
    [["which"; "SwitchAudioSource"]; ["SwitchAudioSource"; "-s"; l_name l]] /\
  (returned r = true <-> exists o, switch_run env (l_name l) = Exits 0 o).
Proof.
  rewrite Hq in Hl. cbn [get_output_devices fst] in Hl.
  apply output_from_spec in Hl.
  destruct Hl as (d & _ & Hd & Hn & _). rewrite Nat.sub_0_r in Hd.
  assert (Hlt : (l_id l < length ds)%nat) by (eapply lookup_lt_Some; eassumption).
  cbn zeta. unfold set_default_output_device. rewrite Hwhich, Hq.
  cbn [Z.eqb].
  destruct (Z.ltb_spec (Z.of_nat (l_id l)) (Z.of_nat (length ds))) as [_ | Hge];
    [| lia].
  rewrite py_index_nat, Hd, <- Hn. unfold switch_to.
  apply String.eqb_neq in Hname. rewrite Hname.
  destruct (switch_run env (l_name l)) as [e | e | rc o]; cbn.
  - split; [reflexivity |]. split; [discriminate | intros [o H]; discriminate].
  - split; [reflexivity |]. split; [discriminate | intros [o H]; discriminate].
  - split; [reflexivity |]. split.
    + intros H. apply Z.eqb_eq in H. subst. eauto.
    + intros [o' H]. injection H as -> _. reflexivity.
Qed.

Lemma listed_id_selects_device_witness :
  which_run switch_installed = Exits 0 "/opt/homebrew/bin/SwitchAudioSource" /\
  mkListed "BlackHole 2ch" 2 ∈ (get_output_devices (query switch_installed)).1 /\
  commands (set_default_output_device switch_installed (ById 2)) =
    [["which"; "SwitchAudioSource"];
     ["SwitchAudioSource"; "-s"; "BlackHole 2ch"]].
Proof.
  assert (Hl : mkListed "BlackHole 2ch" 2 ∈
               (get_output_devices (query switch_installed)).1).
  { vm_compute. apply list_elem_of_further, list_elem_of_here. }
  split; [reflexivity |]. split; [exact Hl |].
  exact (proj1 (listed_id_selects_device switch_installed three_devices
                  (mkListed "BlackHole 2ch" 2) _ eq_refl eq_refl Hl
                  ltac:(discriminate))).
Defined.

(** X18.  Indices outside the list.  With SwitchAudioSource installed and [n]
    devices: an index of [n] or more runs no switch command and prints
    the manual instructions; a negative index down to [-n] is taken from
    the end of the list, so it selects the device at [n + i]; an index
    below [-n] raises inside the method, which prints the error.  The
    last two return [False] as well. *)
Theorem device_index_bounds
    (env : SwitchEnv) (ds : list Device) (i : Z) (out : string)
    (Hwhich : which_run env = Exits 0 out)
    (Hq : query env = Devices ds) :
  let n := Z.of_nat (length ds) in
  ((n <= i)%Z ->
     set_default_output_device env (ById i) =
       switch_fallback [["which"; "SwitchAudioSource"]]) /\
  ((- n <= i < 0)%Z ->
     set_default_output_device env (ById i) =
       set_default_output_device env (ById (n + i))) /\
  ((i < - n)%Z ->
     set_default_output_device env (ById i) =
       switch_failed (index_error env) [["which"; "SwitchAudioSource"]]).
Proof.
  cbn zeta. unfold set_default_output_device. rewrite Hwhich, Hq. cbn [Z.eqb].
  split; [| split]; intros Hi.
  - destruct (Z.ltb_spec i (Z.of_nat (length ds))); [lia | reflexivity].
  - destruct (Z.ltb_spec i (Z.of_nat (length ds))); [| lia].
    destruct (Z.ltb_spec (Z.of_nat (length ds) + i) (Z.of_nat (length ds)));
      [| lia].
    unfold py_index.
    destruct (Z.leb_spec 0 i); [lia |].
    destruct (Z.leb_spec (- Z.of_nat (length ds)) i); [| lia].
    destruct (Z.leb_spec 0 (Z.of_nat (length ds) + i)); [| lia].
    reflexivity.
  - destruct (Z.ltb_spec i (Z.of_nat (length ds))); [| lia].
    unfold py_index.
    destruct (Z.leb_spec 0 i); [lia |].
    destruct (Z.leb_spec (- Z.of_nat (length ds)) i); [lia |].
    reflexivity.
Qed.

Lemma device_index_bounds_witness :
  which_run switch_installed = Exits 0 "/opt/homebrew/bin/SwitchAudioSource" /\
  query switch_installed = Devices three_devices /\
  commands (set_default_output_device switch_installed (ById (-1))) =
    [["which"; "SwitchAudioSource"];
     ["SwitchAudioSource"; "-s"; "BlackHole 2ch"]] /\
  returned (set_default_output_device switch_installed (ById (-4))) = false.
Proof.
  pose proof (device_index_bounds switch_installed three_devices (-1) _
                eq_refl eq_refl) as H1.
  pose proof (device_index_bounds switch_installed three_devices (-4) _
                eq_refl eq_refl) as H4.
  cbn zeta in H1, H4.
  destruct H1 as (_ & Hneg & _). destruct H4 as (_ & _ & Hlow).
  split; [reflexivity |]. split; [reflexivity |].
  rewrite Hneg by (cbn; lia). rewrite Hlow by (cbn; lia).
  split; reflexivity.
Defined.

(** X19.  [set_default_output_device] reports success only after it has run
    [SwitchAudioSource -s] with a name that is not empty and that command
    has ended with code 0. *)
Theorem success_means_switched
    (env : SwitchEnv) (device_id : DeviceRef)
    (Hok : returned (set_default_output_device env device_id) = true) :
  exists n o prefix,
    n <> "" /\ switch_run env n = Exits 0 o /\
    commands (set_default_output_device env device_id) =
      prefix ++ [["SwitchAudioSource"; "-s"; n]] /\
    printed (set_default_output_device env device_id) = [].
Proof.
  assert (Hsw : forall n cmds,
            returned (switch_to env n cmds) = true ->
            exists o, n <> "" /\ switch_run env n = Exits 0 o /\
                      commands (switch_to env n cmds) =
                        cmds ++ [["SwitchAudioSource"; "-s"; n]] /\
                      printed (switch_to env n cmds) = []).
  { intros n cmds. unfold switch_to.
    destruct (String.eqb_spec n ""); [discriminate |].
    destruct (switch_run env n) as [e | e | rc o]; cbn; try discriminate.
    intros H. apply Z.eqb_eq in H. subst. eauto. }
  revert Hok. unfold set_default_output_device.
  destruct (which_run env) as [e | e | rc o]; try discriminate.
  destruct (rc =? 0)%Z; [| discriminate].
  destruct device_id as [i | n].
  - destruct (query env) as [e | ds]; [discriminate |].
    destruct (i <? Z.of_nat (length ds))%Z; [| discriminate].
    destruct (py_index ds i) as [d |]; [| discriminate].
    intros H. destruct (Hsw _ _ H) as (o' & H1 & H2 & H3 & H4). eauto 10.
  - intros H. destruct (Hsw _ _ H) as (o' & H1 & H2 & H3 & H4). eauto 10.
Qed.

Lemma success_means_switched_witness :
  returned (set_default_output_device switch_installed
              (ByName "BlackHole 2ch")) = true /\
  printed (set_default_output_device switch_installed
             (ByName "BlackHole 2ch")) = [].
Proof.
  assert (H : returned (set_default_output_device switch_installed
                          (ByName "BlackHole 2ch")) = true) by reflexivity.
  split; [exact H |].
  destruct (success_means_switched switch_installed _ H)
    as (n & o & pre & _ & _ & _ & Hp).
  exact Hp.
Defined.

(** *** The multi-output device *)

(** X20.  [create_multi_output_device] returns [False] in one case only: the
    command that opens Audio MIDI Setup ran and ended with a nonzero
    code.  It returns [True] when that command runs into its timeout or
    cannot be started, and whatever the automation script does.  The
    script is run exactly when the application was opened, and a silent
    call prints nothing. *)
Theorem multi_output_result
    (env : MultiEnv) (device_name : string) (device_ids : list string)
    (silent : bool) :
  let r := create_multi_output_device env device_name device_ids silent in
  (returned r = false <->
   exists rc out, open_run env = Exits rc out /\ rc <> 0%Z) /\
  (osascript_command ∈ commands r <->
   exists out, open_run env = Exits 0 out) /\
  printed (create_multi_output_device env device_name device_ids true) = [].
Proof.
  cbn zeta.
  assert (Hquiet :
    printed (create_multi_output_device env device_name device_ids true) = []).
  { unfold create_multi_output_device.
    destruct (open_run env) as [e | e | rc out]; cbn; try reflexivity.
    destruct (rc =? 0)%Z; cbn; [| reflexivity].
    destruct (osascript_run env) as [e | e | rc2 stdout]; cbn; try reflexivity.
    destruct ((rc2 =? 0)%Z && contains "success" stdout); reflexivity. }
  cut ((returned (create_multi_output_device env device_name device_ids silent)
          = false <->
        exists rc out, open_run env = Exits rc out /\ rc <> 0%Z) /\
       (osascript_command ∈
          commands (create_multi_output_device env device_name device_ids silent)
        <-> exists out, open_run env = Exits 0 out) /\
       (silent = true ->
        printed (create_multi_output_device env device_name device_ids silent)
          = [])).
  { intros (H1 & H2 & _). split; [exact H1 | split; [exact H2 | exact Hquiet]]. }
  clear Hquiet. unfold create_multi_output_device.
  assert (Hsay : forall l, silent = true -> say silent l = [])
    by (intros l ->; reflexivity).
  assert (Hneq : open_command <> osascript_command) by discriminate.
  assert (Hnotin : ~ osascript_command ∈ [open_command]).
  { intros H. apply list_elem_of_singleton in H. congruence. }
  assert (Hin : osascript_command ∈ [open_command; osascript_command]).
  { apply list_elem_of_further, list_elem_of_here. }
  destruct (open_run env) as [e | e | rc out]; cbn.
  - split; [split; [discriminate | intros (rc & o & H & _); discriminate] |].
    split; [split; [intros H; contradiction | intros (o & H); discriminate] |].
    intros Hs. rewrite !Hsay by exact Hs. reflexivity.
  - split; [split; [discriminate | intros (rc & o & H & _); discriminate] |].
    split; [split; [intros H; contradiction | intros (o & H); discriminate] |].
    intros Hs. rewrite !Hsay by exact Hs. reflexivity.
  - destruct (Z.eqb_spec rc 0) as [-> | Hrc]; cbn.
    + assert (Hr : forall x : CallResult,
                returned x = true -> commands x = [open_command; osascript_command] ->
                (silent = true -> printed x = []) ->
                (returned x = false <->
                 exists rc out0, Exits 0 out = Exits rc out0 /\ rc <> 0%Z) /\
                (osascript_command ∈ commands x <->
                 exists out0, Exits 0 out = Exits 0 out0) /\
                (silent = true -> printed x = [])).
      { intros x Hx Hc Hp. rewrite Hx, Hc.
        split; [split; [discriminate |] |].
        - intros (rc & o & H & Hn). injection H as <- _. contradiction.
        - split; [split; [eauto | intros _; exact Hin] | exact Hp]. }
      destruct (osascript_run env) as [e | e | rc2 stdout];
        [apply Hr | apply Hr | destruct ((rc2 =? 0)%Z && contains "success" stdout);
                               apply Hr];
        try reflexivity;
        intros Hs; cbn; rewrite !Hsay by exact Hs; reflexivity.
    + split; [split; [eauto | reflexivity] |].
      split; [split; [intros H; contradiction |] |].
      * intros (o & H). injection H as -> _. contradiction.
      * intros Hs. rewrite !Hsay by exact Hs. reflexivity.
Qed.

End AudioSpec.

(** ** Properties of the dashboard *)

Module DashboardSpec.

Import Dashboard.
Local Open Scope string_scope.
Local Open Scope list_scope.

(** *** Calls and what runs *)

Lemma running_app (cs l : list Call) :
  running (cs ++ l) = fold_left track l (running cs).
Proof. unfold running. apply fold_left_app. Qed.

Lemma open_overlays_app (cs l : list Call) :
  open_overlays (cs ++ l) = fold_left track_overlay l (open_overlays cs).
Proof. unfold open_overlays. apply fold_left_app. Qed.

Lemma truthy_current (a : Attr) : truthy a = None -> current a = [].
Proof. unfold current. intros ->. reflexivity. Qed.

Lemma current_Some (a : Attr) (x : nat) : truthy a = Some x -> current a = [x].
Proof. unfold current. intros ->. reflexivity. Qed.

(** *** The handlers keep the state consistent *)

Ltac fields :=
  cbn [status_label start_btn stop_btn pipeline overlay_window startup_worker
       window calls pending fresh console quit b_text b_enabled b_hidden].

Lemma on_start_consistent (w : Dashboard) :
  consistent w -> consistent (on_start w).
Proof.
  unfold consistent, on_start. fields.
  intros (H1 & H2 & H3 & H4 & H5 & H6).
  rewrite running_app, open_overlays_app. cbn. auto 10.
Qed.

Lemma take_pending_consistent rest out (w : Dashboard) :
  consistent w -> consistent (take_pending rest out w).
Proof. unfold consistent, take_pending. cbn. auto. Qed.

Lemma set_status_text_consistent t (w : Dashboard) :
  consistent w -> consistent (set_status_text t w).
Proof. unfold consistent, set_status_text. cbn. auto. Qed.

Lemma on_pipeline_ready_consistent has_stop p (w : Dashboard) :
  truthy (pipeline w) = None -> quit w = false ->
  consistent w -> consistent (on_pipeline_ready has_stop p w).
Proof.
  unfold consistent. intros Hp Hq (H1 & H2 & H3 & H4 & H5 & H6).
  assert (Ho : truthy (overlay_window w) = None).
  { destruct (truthy (overlay_window w)) eqn:E; [| reflexivity].
    exfalso. apply (proj1 H5); [discriminate | exact Hp]. }
  rewrite (truthy_current _ Hp) in H1. rewrite (truthy_current _ Ho) in H2.
  destruct p as [p |]; unfold on_pipeline_ready; fields.
  - rewrite running_app, open_overlays_app, H1, H2.
    repeat split; try discriminate; try reflexivity.
    + destruct has_stop; reflexivity.
    + destruct has_stop; reflexivity.
    + intros Hq'. congruence.
  - rewrite H1, H2, (truthy_current _ Hp), (truthy_current _ Ho).
    repeat split; auto; try (apply H4); try (apply H5).
Qed.

Lemma filter_self (p : nat) :
  List.filter (fun q => negb (Nat.eqb q p)) [p] = [].
Proof. cbn. rewrite Nat.eqb_refl. reflexivity. Qed.

Lemma on_stop_consistent (w : Dashboard) :
  consistent w -> consistent (on_stop w).
Proof.
  unfold consistent, on_stop. intros (H1 & H2 & H3 & H4 & H5 & H6).
  destruct (truthy (pipeline w)) as [p |] eqn:Ep;
    destruct (truthy (overlay_window w)) as [o |] eqn:Eo; fields.
  - rewrite (current_Some _ _ Ep) in H1. rewrite (current_Some _ _ Eo) in H2.
    rewrite !running_app, !open_overlays_app, H1, H2. cbn.
    rewrite !Nat.eqb_refl. cbn.
    repeat split; try discriminate; try reflexivity; intros H; congruence.
  - exfalso. apply (proj2 H5); [discriminate | reflexivity].
  - exfalso. apply (proj1 H5); [discriminate | reflexivity].
  - rewrite (truthy_current _ Ep) in H1. rewrite (truthy_current _ Eo) in H2.
    rewrite Ep, Eo, H1, H2. unfold current. rewrite Ep, Eo.
    repeat split; try discriminate; try reflexivity; intros H; congruence.
Qed.

Lemma on_stop_pipeline (w : Dashboard) : truthy (pipeline (on_stop w)) = None.
Proof.
  unfold on_stop.
  destruct (truthy (pipeline w)) as [p |] eqn:Ep;
    destruct (truthy (overlay_window w)) as [o |]; cbn; auto.
Qed.

Lemma on_stop_pending (w : Dashboard) :
  pending (on_stop w) = pending w /\ quit (on_stop w) = quit w.
Proof.
  unfold on_stop.
  destruct (truthy (pipeline w)); destruct (truthy (overlay_window w));
    split; reflexivity.
Qed.

Lemma closeEvent_consistent (w : Dashboard) :
  consistent w -> consistent (closeEvent w).
Proof.
  intros H.
  pose proof (on_stop_consistent _ (set_status_text_consistent "Stopping..." _ H))
    as (H1 & H2 & H3 & H4 & H5 & H6).
  pose proof (on_stop_pipeline (set_status_text "Stopping..." w)) as Hp.
  unfold consistent, closeEvent. fields.
  rewrite running_app, open_overlays_app. cbn. auto 10.
Qed.

(** In the running state no worker is under way. *)
Lemma running_state_pending (w : Dashboard) :
  locked w -> quit w = false -> truthy (pipeline w) <> None -> pending w = [].
Proof.
  intros [Hq | [Hp | (_ & _ & Hn)]] Hq' Hr; [congruence | exact Hp | contradiction].
Qed.

Lemma on_stop_locked (w : Dashboard) :
  pending w = [] -> locked (on_stop w).
Proof.
  intros H. right. left. rewrite (proj1 (on_stop_pending w)). exact H.
Qed.

Lemma deliver_keeps has_stop ev (w : Dashboard) :
  consistent w /\ locked w ->
  consistent (deliver has_stop ev w) /\ locked (deliver has_stop ev w).
Proof.
  intros [Hc Hl]. unfold deliver.
  destruct (quit w) eqn:Hq; [split; assumption |].
  destruct ev as [| | b | |].
  - destruct (clickable (start_btn w)) eqn:Hclick; [| split; assumption].
    split; [apply on_start_consistent; exact Hc |].
    assert (Hstop : truthy (pipeline w) = None).
    { destruct Hc as (_ & _ & H3 & H4 & _).
      unfold clickable in Hclick. apply andb_true_iff in Hclick as [_ Hh].
      apply negb_true_iff in Hh. rewrite Hh in H3. symmetry in H3.
      apply negb_false_iff in H3.
      destruct (truthy (pipeline w)) eqn:E; [| reflexivity].
      assert (b_hidden (stop_btn w) = false) by (apply H4; discriminate).
      congruence. }
    assert (Hpend : pending w = []).
    { destruct Hl as [Hq' | [Hp | (_ & Hcl & _)]]; [congruence | exact Hp | congruence]. }
    right. right. unfold on_start. cbn. rewrite Hpend. cbn.
    repeat split; auto.
  - destruct (clickable (stop_btn w)) eqn:Hclick; [| split; assumption].
    split; [apply on_stop_consistent; exact Hc |].
    apply on_stop_locked. apply running_state_pending; [exact Hl | exact Hq |].
    destruct Hc as (_ & _ & _ & H4 & _). apply H4.
    unfold clickable in Hclick. apply andb_true_iff in Hclick as [_ Hh].
    apply negb_true_iff in Hh. exact Hh.
  - destruct (pending w) as [| k rest] eqn:Hp; [split; assumption |].
    destruct Hl as [Hq' | [Hp' | (Hlen & Hcl & Hn)]]; try congruence.
    rewrite Hp in Hlen. destruct rest; [| discriminate].
    destruct (StartupWorker_run k b) as [out p] eqn:Hrun.
    split.
    + apply on_pipeline_ready_consistent; [exact Hn | exact Hq |].
      apply take_pending_consistent. exact Hc.
    + right. left. destruct p; reflexivity.
  - destruct (truthy (overlay_window w)) as [o |] eqn:Eo; [| split; assumption].
    destruct (existsb (is_connect_stop o) (calls w)); [| split; assumption].
    split; [apply on_stop_consistent; exact Hc |].
    apply on_stop_locked. apply running_state_pending; [exact Hl | exact Hq |].
    destruct Hc as (_ & _ & _ & _ & H5 & _). apply H5. congruence.
  - split; [apply closeEvent_consistent; exact Hc |].
    left. reflexivity.
Qed.

Lemma initial_keeps : consistent initial /\ locked initial.
Proof.
  split.
  - unfold consistent. cbn. repeat split; auto; try discriminate;
      intros H; contradiction.
  - right. left. reflexivity.
Qed.

Lemma run_keeps has_stop evs (w : Dashboard) :
  consistent w /\ locked w ->
  consistent (run has_stop evs w) /\ locked (run has_stop evs w).
Proof.
  revert w. induction evs as [| ev evs IH]; intros w H; [exact H |].
  cbn. apply IH. apply deliver_keeps. exact H.
Qed.

Lemma run_app has_stop evs1 evs2 (w : Dashboard) :
  run has_stop (evs1 ++ evs2) w = run has_stop evs2 (run has_stop evs1 w).
Proof. unfold run. apply fold_left_app. Qed.

Lemma run_quit has_stop evs (w : Dashboard) :
  quit w = true -> run has_stop evs w = w.
Proof.
  intros Hq. induction evs as [| ev evs IH]; [reflexivity |].
  cbn. unfold deliver at 2. rewrite Hq. exact IH.
Qed.

Example sample_session :
  running (calls (run true [ClickStart; WorkerFinished BuiltOk] initial))
    = [0%nat] /\
  console (run true start_stop_start initial)
    = ["Startup Error: no model"; "Traceback"] /\
  l_text (status_label (run true start_stop_start initial)) = "Stopped".
Proof. repeat split; reflexivity. Qed.

(** X21.  Whatever the user clicks and whenever the workers finish, the
    pipelines started and not stopped are at most one, and it is the one
    the [pipeline] attribute holds, so the one [on_stop] stops; the same
    for the overlay windows shown and not closed; and an overlay is open
    exactly while a pipeline runs. *)
Theorem one_pipeline_at_a_time (has_stop : bool) (evs : list Event) :
  let w := run has_stop evs initial in
  running (calls w) = current (pipeline w) /\
  open_overlays (calls w) = current (overlay_window w) /\
  (length (running (calls w)) <= 1)%nat /\
  (open_overlays (calls w) <> [] <-> running (calls w) <> []).
Proof.
  cbn zeta.
  destruct (run_keeps has_stop evs initial initial_keeps)
    as [(H1 & H2 & H3 & H4 & H5 & H6) _].
  split; [exact H1 |]. split; [exact H2 |]. rewrite H1, H2. unfold current.
  split.
  - destruct (truthy (pipeline _)); cbn; lia.
  - destruct (truthy (pipeline _)) eqn:Ep;
      destruct (truthy (overlay_window _)) eqn:Eo; split; intros H;
      try discriminate; try contradiction.
    + exfalso. apply (proj2 H5); [discriminate | reflexivity].
    + exfalso. apply (proj1 H5); [discriminate | reflexivity].
Qed.

(** X22.  Exactly one of the two buttons is shown, and it is the stop button
    exactly while a pipeline runs. *)
Theorem buttons_track_pipeline (has_stop : bool) (evs : list Event) :
  let w := run has_stop evs initial in
  b_hidden (start_btn w) = negb (b_hidden (stop_btn w)) /\
  (b_hidden (stop_btn w) = false <-> running (calls w) <> []).
Proof.
  cbn zeta.
  destruct (run_keeps has_stop evs initial initial_keeps)
    as [(H1 & H2 & H3 & H4 & H5 & H6) _].
  split; [exact H3 |]. rewrite H4, H1. unfold current.
  destruct (truthy (pipeline _)); split; intros H;
    try discriminate; try contradiction.
Qed.

(** X23.  While the signal of a worker is under way, the start button takes no
    click, no pipeline runs, and no second worker has been started. *)
Theorem one_worker_at_a_time (has_stop : bool) (evs : list Event)
    (Hq : quit (run has_stop evs initial) = false)
    (Hp : pending (run has_stop evs initial) <> []) :
  let w := run has_stop evs initial in
  length (pending w) = 1%nat /\
  clickable (start_btn w) = false /\
  running (calls w) = [].
Proof.
  cbn zeta.
  destruct (run_keeps has_stop evs initial initial_keeps)
    as [(H1 & _) [Hq' | [Hp' | (Hlen & Hcl & Hn)]]];
    [congruence | contradiction |].
  split; [exact Hlen |]. split; [exact Hcl |].
  rewrite H1. apply truthy_current. exact Hn.
Qed.

Lemma one_worker_at_a_time_witness :
  pending (run true [ClickStart; ClickStart] initial) = [0%nat] /\
  clickable (start_btn (run true [ClickStart; ClickStart] initial)) = false.
Proof.
  split; [reflexivity |].
  exact (proj1 (proj2 (one_worker_at_a_time true [ClickStart; ClickStart]
                         eq_refl ltac:(discriminate)))).
Defined.

(** X24.  [on_stop] may be called again: the second call stops and closes
    nothing and leaves the state as the first one made it. *)
Theorem on_stop_idempotent (w : Dashboard) :
  on_stop (on_stop w) = on_stop w.
Proof.
  unfold on_stop.
  destruct (truthy (pipeline w)) as [p |] eqn:Ep;
    destruct (truthy (overlay_window w)) as [o |] eqn:Eo; cbn;
    rewrite ?Ep, ?Eo; reflexivity.
Qed.

(** X25.  Closing the dashboard stops the pipeline and closes the overlay,
    whatever went on before, and nothing that comes later is handled. *)
Theorem close_stops_everything
    (has_stop : bool) (before later : list Event) :
  let w := run has_stop (before ++ Close :: later) initial in
  running (calls w) = [] /\ open_overlays (calls w) = [] /\
  quit w = true /\
  w = run has_stop (before ++ [Close]) initial.
Proof.
  cbn zeta.
  assert (Hq : quit (run has_stop (before ++ [Close]) initial) = true).
  { rewrite run_app. cbn. unfold deliver.
    destruct (quit (run has_stop before initial)) eqn:E; [exact E | reflexivity]. }
  assert (Heq : run has_stop (before ++ Close :: later) initial =
                run has_stop (before ++ [Close]) initial).
  { replace (before ++ Close :: later) with ((before ++ [Close]) ++ later)
      by (rewrite <- app_assoc; reflexivity).
    rewrite run_app. apply run_quit. exact Hq. }
  rewrite Heq.
  destruct (run_keeps has_stop (before ++ [Close]) initial initial_keeps)
    as [(H1 & H2 & H3 & H4 & H5 & H6) _].
  pose proof (H6 Hq) as Hn.
  assert (Ho : truthy (overlay_window (run has_stop (before ++ [Close]) initial))
               = None).
  { destruct (truthy (overlay_window _)) eqn:E; [| reflexivity].
    exfalso. apply (proj1 H5); [discriminate | exact Hn]. }
  rewrite H1, H2, (truthy_current _ Hn), (truthy_current _ Ho).
  repeat split. exact Hq.
Qed.

(** *** The device list *)

Lemma ItemData_eqb_eq (a b : ItemData) : ItemData_eqb a b = true <-> a = b.
Proof.
  destruct a as [| s | i], b as [| t | j]; cbn;
    try (split; [discriminate | discriminate]); try tauto.
  - rewrite String.eqb_eq. split; congruence.
  - rewrite Z.eqb_eq. split; congruence.
Qed.

Lemma add_inputs_items i ds (c : ComboBox) :
  items (add_inputs i ds c) = items c ++ input_entries i ds.
Proof.
  revert i c. induction ds as [| d ds IH]; intros i c; cbn.
  - rewrite app_nil_r. reflexivity.
  - destruct (0 <? AudioDeviceManager.max_input_channels d)%Z; [| apply IH].
    rewrite IH. cbn. rewrite <- app_assoc. reflexivity.
Qed.

Lemma add_inputs_current i ds (c : ComboBox) :
  items c <> [] -> currentIndex (add_inputs i ds c) = currentIndex c.
Proof.
  revert i c. induction ds as [| d ds IH]; intros i c Hne; cbn; [reflexivity |].
  destruct (0 <? AudioDeviceManager.max_input_channels d)%Z; [| apply IH; exact Hne].
  rewrite IH.
  - cbn. destruct (items c); [contradiction | reflexivity].
  - cbn. destruct (items c); discriminate.
Qed.

Lemma input_entries_spec i ds text (z : Z) :
  (text, DataInt z) ∈ input_entries i ds <->
  exists n d,
    z = Z.of_nat n /\ (i <= n)%nat /\ ds !! (n - i)%nat = Some d /\
    (0 < AudioDeviceManager.max_input_channels d)%Z /\ text = entry_text n d.
Proof.
  revert i. induction ds as [| d0 ds IH]; intros i; cbn [input_entries].
  - split; [intros H; inversion H |]. intros (n & d & _ & _ & H & _). discriminate.
  - assert (Hrest :
      (exists n d, z = Z.of_nat n /\ (S i <= n)%nat /\
                   ds !! (n - S i)%nat = Some d /\
                   (0 < AudioDeviceManager.max_input_channels d)%Z /\
                   text = entry_text n d) <->
      (exists n d, z = Z.of_nat n /\ (i <= n)%nat /\ n <> i /\
                   (d0 :: ds) !! (n - i)%nat = Some d /\
                   (0 < AudioDeviceManager.max_input_channels d)%Z /\
                   text = entry_text n d)).
    { split.
      - intros (n & d & Hz & Hle & Hl & Hrest). exists n, d.
        split; [exact Hz |]. split; [lia |]. split; [lia |].
        replace (n - i)%nat with (S (n - S i)) by lia.
        split; [exact Hl | exact Hrest].
      - intros (n & d & Hz & Hle & Hne & Hl & Hrest). exists n, d.
        split; [exact Hz |]. split; [lia |].
        replace (n - i)%nat with (S (n - S i)) in Hl by lia.
        split; [exact Hl | exact Hrest]. }
    destruct (Z.ltb_spec 0 (AudioDeviceManager.max_input_channels d0))
      as [Hpos | Hnon].
    + rewrite elem_of_cons, IH, Hrest. split.
      * intros [E | (n & d & Hz & Hle & _ & H)].
        -- injection E as -> ->. exists i, d0. rewrite Nat.sub_diag. auto.
        -- exists n, d. auto.
      * intros (n & d & Hz & Hle & Hl & Hp & Ht).
        destruct (decide (n = i)) as [-> | Hne].
        -- left. rewrite Nat.sub_diag in Hl. injection Hl as <-.
           subst. reflexivity.
        -- right. exists n, d. auto 10.
    + rewrite IH, Hrest. split.
      * intros (n & d & Hz & Hle & _ & H). exists n, d. auto.
      * intros (n & d & Hz & Hle & Hl & Hp & Ht).
        destruct (decide (n = i)) as [-> | Hne].
        -- rewrite Nat.sub_diag in Hl. injection Hl as <-. lia.
        -- exists n, d. auto 10.
Qed.

Lemma populate_items ds cfg (c0 : ComboBox) :
  items (populate_devices (AudioDeviceManager.Devices ds) cfg c0) =
  ("Auto (Default)", DataStr "auto") :: input_entries 0 ds.
Proof.
  unfold populate_devices.
  assert (H : items (add_inputs 0 ds
                (addItem "Auto (Default)" (DataStr "auto") (clear c0))) =
              ("Auto (Default)", DataStr "auto") :: input_entries 0 ds).
  { rewrite add_inputs_items. reflexivity. }
  destruct cfg as [d |]; [| exact H].
  destruct (0 <=? findData d _)%Z; [| exact H].
  exact H.
Qed.

(** X26.  The box [populate_devices] leaves offers "Auto" first and then one
    entry for each device that has input channels, labelled with the
    position of the device in the list of all devices and carrying that
    position as its data; what the box held before plays no part. *)
Theorem populate_lists_inputs
    (ds : list AudioDeviceManager.Device) (cfg : option ItemData)
    (c0 : ComboBox) (text : string) (z : Z) :
  let c := populate_devices (AudioDeviceManager.Devices ds) cfg c0 in
  items c !! 0%nat = Some ("Auto (Default)", DataStr "auto") /\
  ((text, DataInt z) ∈ items c <->
   exists n d,
     z = Z.of_nat n /\ ds !! n = Some d /\
     (0 < AudioDeviceManager.max_input_channels d)%Z /\
     text = entry_text n d).
Proof.
  cbn zeta. rewrite populate_items. split; [reflexivity |].
  rewrite elem_of_cons, input_entries_spec. split.
  - intros [E | (n & d & Hz & _ & Hl & H)]; [discriminate |].
    rewrite Nat.sub_0_r in Hl. exists n, d. auto.
  - intros (n & d & Hz & Hl & H). right. exists n, d.
    rewrite Nat.sub_0_r. split; [exact Hz |]. split; [lia |]. auto.
Qed.

Lemma find_from_spec (i : Z) data (l : list (string * ItemData)) :
  (find_from i data l = (-1)%Z /\
   existsb (fun e => ItemData_eqb (snd e) data) l = false) \/
  (exists t,
     (i <= find_from i data l < i + Z.of_nat (length l))%Z /\
     l !! Z.to_nat (find_from i data l - i) = Some (t, data)) \/
  (i < 0)%Z.
Proof.
  destruct (Z.ltb_spec i 0) as [Hneg | Hi]; [right; right; exact Hneg |].
  revert i Hi. induction l as [| [t d] l IH]; intros i Hi; cbn [find_from existsb].
  - left. split; reflexivity.
  - cbn [snd]. destruct (ItemData_eqb d data) eqn:E.
    + right. left. exists t. apply ItemData_eqb_eq in E. subst d.
      rewrite Z.sub_diag. cbn [length]. split; [lia | reflexivity].
    + destruct (IH (i + 1)%Z ltac:(lia)) as [[H1 H2] | [(t' & Hr & Hl) | Hneg]];
        [| | lia].
      * left. split; [exact H1 | exact H2].
      * right. left. exists t'. cbn [length]. split; [lia |].
        replace (Z.to_nat (find_from (i + 1) data l - i))
          with (S (Z.to_nat (find_from (i + 1) data l - (i + 1)))) by lia.
        exact Hl.
Qed.

(** X27.  After [populate_devices] the current entry is the one that carries
    [config.device_index], when the box offers such an entry, and "Auto"
    otherwise: also when the configured device is gone or has no input
    channels. *)
Theorem populate_selects_configured
    (ds : list AudioDeviceManager.Device) (cfg : option ItemData)
    (c0 : ComboBox) :
  let c := populate_devices (AudioDeviceManager.Devices ds) cfg c0 in
  currentData c =
    match cfg with
    | Some d => if offered d c then d else DataStr "auto"
    | None => DataStr "auto"
    end.
Proof.
  cbn zeta. unfold offered. rewrite populate_items.
  unfold populate_devices.
  set (c2 := add_inputs 0 ds
               (addItem "Auto (Default)" (DataStr "auto") (clear c0))).
  assert (Hitems : items c2 =
                   ("Auto (Default)", DataStr "auto") :: input_entries 0 ds).
  { unfold c2. rewrite add_inputs_items. reflexivity. }
  assert (Hcur : currentIndex c2 = 0%Z).
  { unfold c2. rewrite add_inputs_current; [reflexivity | discriminate]. }
  assert (Hauto : currentData c2 = DataStr "auto").
  { unfold currentData, in_range. rewrite Hcur, Hitems. cbn [length].
    destruct (Z.ltb_spec 0 (Z.of_nat (S (length (input_entries 0 ds)))));
      [reflexivity | lia]. }
  destruct cfg as [d |]; [| exact Hauto].
  unfold findData. rewrite Hitems.
  destruct (find_from_spec 0 d
              (("Auto (Default)", DataStr "auto") :: input_entries 0 ds))
    as [[H1 H2] | [(t & Hr & Hl) | Hneg]]; [| | lia].
  - rewrite H1, H2. cbn. exact Hauto.
  - rewrite Z.sub_0_r in Hl.
    assert (Hex : existsb (fun e => ItemData_eqb (snd e) d)
                    (("Auto (Default)", DataStr "auto") :: input_entries 0 ds)
                  = true).
    { apply existsb_exists. exists (t, d). split.
      - apply list_elem_of_In. eapply list_elem_of_lookup_2. exact Hl.
      - apply ItemData_eqb_eq. reflexivity. }
    rewrite Hex.
    destruct (Z.leb_spec 0 (find_from 0 d
               (("Auto (Default)", DataStr "auto") :: input_entries 0 ds)));
      [| lia].
    unfold currentData, setCurrentIndex, in_range. cbn [items currentIndex].
    rewrite Hitems.
    destruct (Z.leb_spec 0 (find_from 0 d
               (("Auto (Default)", DataStr "auto") :: input_entries 0 ds)));
      [| lia].
    destruct (Z.ltb_spec (find_from 0 d
               (("Auto (Default)", DataStr "auto") :: input_entries 0 ds))
              (Z.of_nat (length
               (("Auto (Default)", DataStr "auto") :: input_entries 0 ds))));
      [| lia].
    cbn [andb].
    destruct (Z.leb_spec 0 (find_from 0 d
               (("Auto (Default)", DataStr "auto") :: input_entries 0 ds)));
      [| lia].
    destruct (Z.ltb_spec (find_from 0 d
               (("Auto (Default)", DataStr "auto") :: input_entries 0 ds))
              (Z.of_nat (length
               (("Auto (Default)", DataStr "auto") :: input_entries 0 ds))));
      [| lia].
    cbn [andb]. rewrite Hl. reflexivity.
Qed.

(** X28.  Whatever entry is chosen in the box that [populate_devices] filled,
    the device index that [save_config] stores is "auto" or the position
    of a device that has input channels. *)
Theorem saved_device_index_valid
    (q : AudioDeviceManager.Query) (cfg : option ItemData) (c0 : ComboBox)
    (sel : Z) :
  let v := saved_device_index
             (setCurrentIndex sel (populate_devices q cfg c0)) in
  v = "auto" \/
  exists ds n d,
    q = AudioDeviceManager.Devices ds /\ ds !! n = Some d /\
    (0 < AudioDeviceManager.max_input_channels d)%Z /\
    v = Overlay.str_int (Z.of_nat n).
Proof.
  cbn zeta. unfold saved_device_index, currentData, setCurrentIndex.
  cbn [items currentIndex].
  assert (Hr : forall (c : ComboBox) i j,
            in_range i (mkComboBox (items c) j) = in_range i c)
    by reflexivity.
  destruct (in_range sel (populate_devices q cfg c0)) eqn:Hin.
  - rewrite Hr, Hin.
    destruct (items (populate_devices q cfg c0) !! Z.to_nat sel)
      as [[t d] |] eqn:Hl; [| left; reflexivity].
    destruct q as [e | ds].
    + left. cbn in Hl.
      destruct (Z.to_nat sel) as [| [| k]]; cbn in Hl; try discriminate;
        injection Hl as _ <-; reflexivity.
    + rewrite populate_items in Hl.
      destruct d as [| s | z]; [left; reflexivity | |].
      * left. apply list_elem_of_lookup_2 in Hl.
        apply elem_of_cons in Hl as [E | Hin'].
        -- injection E as _ ->. reflexivity.
        -- exfalso. clear - Hin'. revert Hin'. generalize 0%nat.
           induction ds as [| d ds IH]; intros i H; cbn in H.
           ++ inversion H.
           ++ destruct (0 <? AudioDeviceManager.max_input_channels d)%Z.
              ** apply elem_of_cons in H as [E | H]; [discriminate |].
                 exact (IH _ H).
              ** exact (IH _ H).
      * right. apply list_elem_of_lookup_2 in Hl.
        apply elem_of_cons in Hl as [E | Hin']; [discriminate |].
        apply input_entries_spec in Hin'.
        destruct Hin' as (n & d & -> & _ & Hd & Hpos & _).
        rewrite Nat.sub_0_r in Hd. exists ds, n, d.
        split; [reflexivity |]. split; [exact Hd |].
        split; [exact Hpos | reflexivity].
  - rewrite Hr. unfold in_range. cbn. left. reflexivity.
Qed.

End DashboardSpec.
